(** * CfgSyncPlugin: a shallow embedding of the configuration-sync engine

    The development follows
    [extensions/applicationinsights-cfgsync-js/src/CfgSyncPlugin.ts].
    The closure variables of the plugin become the record [State]; every
    inner function of the closure becomes a computation in a small
    state-and-exception monad over a [World] that also holds what lives
    outside the plugin: the listeners of the global event bus, the pending
    timers, the outstanding requests and the trace of outbound calls. *)

From Stdlib Require Import ZArith String Ascii Bool.
From stdpp Require Import base option list strings gmap.

Set Warnings "-register-all".

Local Open Scope string_scope.
Local Open Scope list_scope.
Local Open Scope Z_scope.

(** ** JavaScript values *)

Inductive JsVal : Type :=
| JUndef
| JNull
| JBool (b : bool)
| JNum (n : Z)
| JStr (s : string)
| JArr (items : list JsVal)
| JObj (fields : list (string * JsVal)).

(** [ToBoolean]: what [if (v)], [!!v] and [a && b] test. *)
Definition truthy (v : JsVal) : bool :=
  match v with
  | JUndef | JNull => false
  | JBool b => b
  | JNum n => negb (Z.eqb n 0)
  | JStr s => negb (String.eqb s "")
  | JArr _ | JObj _ => true
  end.

(** [a && b] on values. *)
Definition js_and (a b : JsVal) : JsVal := if truthy a then b else a.

(** First binding of a key in a field list. *)
Fixpoint assoc (k : string) (fs : list (string * JsVal)) : option JsVal :=
  match fs with
  | [] => None
  | (k', v) :: r => if String.eqb k k' then Some v else assoc k r
  end.

(** Property read [v.k]; reading from a value without that property is
    [undefined].  The reads of the source are all guarded by [&&], so the
    throwing read from [null] is never reached. *)
Definition get_field (k : string) (v : JsVal) : JsVal :=
  match v with
  | JObj fs => default JUndef (assoc k fs)
  | _ => JUndef
  end.

(** Truthiness of the typed optional values of the closure. *)
Definition truthy_str (s : option string) : bool :=
  match s with Some s => negb (String.eqb s "") | None => false end.
Definition truthy_bool (b : option bool) : bool := default false b.
Definition truthy_num (n : option Z) : bool :=
  match n with Some n => negb (Z.eqb n 0) | None => false end.
Definition isNullOrUndefined {A} (x : option A) : bool :=
  match x with None => true | Some _ => false end.

(** ** Exceptions and results *)

Inductive Exn : Type :=
| TypeError
| SyntaxError
| UserError (msg : string).

Inductive Result (A : Type) : Type :=
| Ok (a : A)
| Throw (e : Exn).
Arguments Ok {A} a.
Arguments Throw {A} e.

(** ** Configuration types *)

(** [NonOverrideCfg]: key name to "protect this key". *)
Abbreviation NonOverrideCfg := (gmap string bool).

Definition SyncFn : Type := JsVal -> JsVal -> Result bool.
Definition ReceiveFn : Type := JsVal -> Result unit.

(** What a call [f(url, oncomplete, isAutoSync)] of the user's fetch
    function comes to for the plugin: the calls it makes on the
    [oncomplete] it is handed before it returns, each with a status, a
    body and a flag, and its return or throw. *)
Record FetchRun : Type := {
  fCompleted : list (Z * option string * option bool);
  fReturned : Result unit
}.

Definition UserFetchFn : Type := option string -> option bool -> FetchRun.

(** The extension configuration as the user wrote it: every option may be
    left out. *)
Record ICfgSyncConfig : Type := {
  disableAutoSync : option bool;
  customEvtName : option string;
  cfgUrl : option string;
  receiveChanges : option bool;
  overrideSyncFn : option SyncFn;
  overrideFetchFn : option UserFetchFn;
  onCfgChangeReceive : option ReceiveFn;
  scheduleFetchTimeout : option Z;
  nonOverrideConfigs : option NonOverrideCfg
}.

Definition evtName : string := "cfgsync".
Definition FETCH_SPAN : Z := 1800000.

Definition defaultNonOverrideCfg : NonOverrideCfg :=
  <["instrumentationKey" := true]>
    (<["connectionString" := true]> (<["endpointUrl" := true]> ∅)).

Definition _defaultConfig : ICfgSyncConfig := {|
  disableAutoSync := Some false;
  customEvtName := None;
  cfgUrl := None;
  receiveChanges := Some false;
  overrideSyncFn := None;
  overrideFetchFn := None;
  onCfgChangeReceive := None;
  scheduleFetchTimeout := Some FETCH_SPAN;
  nonOverrideConfigs := Some defaultNonOverrideCfg
|}.

Definition orDefault {A} (x d : option A) : option A :=
  match x with Some _ => x | None => d end.

(** Modelled from the spec: [ctx.getExtCfg(identifier, defaults)] of the
    core package, which "resolves a namespaced sub-config with fallback to
    the defaults table": the user's options, each falling back to the
    default when it is left out. *)
Definition getExtCfg (user defaults : ICfgSyncConfig) : ICfgSyncConfig := {|
  disableAutoSync := orDefault (disableAutoSync user) (disableAutoSync defaults);
  customEvtName := orDefault (customEvtName user) (customEvtName defaults);
  cfgUrl := orDefault (cfgUrl user) (cfgUrl defaults);
  receiveChanges := orDefault (receiveChanges user) (receiveChanges defaults);
  overrideSyncFn := orDefault (overrideSyncFn user) (overrideSyncFn defaults);
  overrideFetchFn := orDefault (overrideFetchFn user) (overrideFetchFn defaults);
  onCfgChangeReceive :=
    orDefault (onCfgChangeReceive user) (onCfgChangeReceive defaults);
  scheduleFetchTimeout :=
    orDefault (scheduleFetchTimeout user) (scheduleFetchTimeout defaults);
  nonOverrideConfigs :=
    orDefault (nonOverrideConfigs user) (nonOverrideConfigs defaults)
|}.

(** The host configuration object handed to [initialize] and to every
    change notification: its data, as a peer would see it in
    [detail.cfg], and the options of this extension inside it. *)
Record IConfiguration : Type := {
  cfgTree : JsVal;
  cfgExt : ICfgSyncConfig
}.

(** ** The closure state *)

(** What [_fetchFn] can hold. *)
Inductive SendGetFunction : Type :=
| FetchSender
| XhrSender
| OverrideFetch (f : UserFetchFn).

Record State : Type := {
  _extensionConfig : option ICfgSyncConfig;
  _mainConfig : JsVal;
  _isAutoSync : option bool;
  _evtName : option string;
  _evtNamespace : option nat;
  _cfgUrl : option string;
  _timeoutHandle : option nat;
  _receiveChanges : option bool;
  _fetchSpan : option Z;
  _onCfgChangeReceive : option ReceiveFn;
  _nonOverrideConfigs : option NonOverrideCfg;
  _fetchFn : option SendGetFunction;
  _overrideFetchFn : option UserFetchFn;
  _overrideSyncFn : option SyncFn
}.

(** ** The world around the plugin *)

(** A listener on the global bus.  [lSelf] tells the handler installed by
    this plugin from the listeners of other instances. *)
Record Listener : Type := {
  lName : option string;
  lNs : option nat;
  lSelf : bool
}.

Inductive Transport : Type := ViaFetch | ViaXhr.

(** A request that was issued and has not completed. *)
Record Pending : Type := {
  pVia : Transport;
  pUrl : option string;
  pAuto : option bool
}.

(** Calls that leave the plugin. *)
Inductive Effect : Type :=
| ESendCustomEvent (name : option string) (cfg details : JsVal)
| EOverrideSync (cfg details : JsVal)
| EUpdateCfg (cfg : JsVal)
| ECfgChangeReceive (detail : JsVal)
| EOverrideFetch (url : option string) (auto : option bool)
| EOnComplete (status : Z) (text : option string) (auto : option bool).

Record World : Type := {
  eng : State;
  bus : list Listener;
  timers : list nat;
  nextId : nat;
  inflight : list Pending;
  trace : list Effect
}.

(** The collaborators the plugin imports, as the host provides them:
    [getGlobal()] finds a global object, [global.fetch] is a function,
    [getJSON()] finds a parser, and what [sendCustomEvent], the core's
    [updateCfg], [new Request(url)] followed by [fetch], and
    [xhr.open]/[xhr.send] answer or throw.

    A call is taken here for what it gives back to the plugin.  What the
    host runs before it returns (the listeners a dispatch reaches, the
    plugin's own among them, and the change notification the core sends
    after an update) enters the plugin through [onCfgSyncEvent] and
    [onConfigChange_callback], and is followed as an event or a
    notification of its own; a statement about a call that reaches the
    host speaks of the call that is made and of what comes back, not of
    the world the host leaves behind. *)
Record Host : Type := {
  getGlobal : bool;
  globalFetch : bool;
  isFetchSupported : bool;
  isXhrSupported : bool;
  getJSON : option (string -> Result JsVal);
  sendCustomEvent : option string -> JsVal -> JsVal -> Result bool;
  updateCfg : JsVal -> Result unit;
  newRequest : option string -> Result unit;
  xhrOpenSend : option string -> Result unit
}.

(** ** The monad *)

Definition M (A : Type) : Type := World -> Result A * World.

Definition ret {A} (a : A) : M A := fun w => (Ok a, w).

Definition bind {A B} (m : M A) (k : A -> M B) : M B :=
  fun w =>
    match m w with
    | (Ok a, w') => k a w'
    | (Throw e, w') => (Throw e, w')
    end.

(** [try { body } catch (e) { }] followed by [rest]: the writes made
    before the throw stay. *)
Definition tryCatch {A} (body : M A) (rest : M A) : M A :=
  fun w =>
    match body w with
    | (Ok a, w') => (Ok a, w')
    | (Throw _, w') => rest w'
    end.

Definition throw {A} (e : Exn) : M A := fun w => (Throw e, w).

Definition lift {A} (r : Result A) : M A := fun w => (r, w).

Declare Scope js_scope.
Delimit Scope js_scope with js.
Notation "x <-- m ;; k" := (bind m (fun x => k))
  (at level 100, m at next level, right associativity) : js_scope.
Notation "m ;;; k" := (bind m (fun _ => k))
  (at level 100, right associativity) : js_scope.

Definition when (b : bool) (m : M unit) : M unit :=
  if b then m else ret tt.

Definition getEng : M State := fun w => (Ok (eng w), w).

Definition modEng (f : State -> State) : M unit :=
  fun w => (Ok tt, {| eng := f (eng w); bus := bus w; timers := timers w;
                      nextId := nextId w; inflight := inflight w;
                      trace := trace w |}).

Definition emit (e : Effect) : M unit :=
  fun w => (Ok tt, {| eng := eng w; bus := bus w; timers := timers w;
                      nextId := nextId w; inflight := inflight w;
                      trace := trace w ++ [e] |}).

(** ** Assignments to the closure variables *)

Definition set_extensionConfig (v : option ICfgSyncConfig) (s : State) : State :=
  {| _extensionConfig := v;
     _mainConfig := _mainConfig s;
     _isAutoSync := _isAutoSync s;
     _evtName := _evtName s;
     _evtNamespace := _evtNamespace s;
     _cfgUrl := _cfgUrl s;
     _timeoutHandle := _timeoutHandle s;
     _receiveChanges := _receiveChanges s;
     _fetchSpan := _fetchSpan s;
     _onCfgChangeReceive := _onCfgChangeReceive s;
     _nonOverrideConfigs := _nonOverrideConfigs s;
     _fetchFn := _fetchFn s;
     _overrideFetchFn := _overrideFetchFn s;
     _overrideSyncFn := _overrideSyncFn s |}.

Definition set_mainConfig (v : JsVal) (s : State) : State :=
  {| _extensionConfig := _extensionConfig s;
     _mainConfig := v;
     _isAutoSync := _isAutoSync s;
     _evtName := _evtName s;
     _evtNamespace := _evtNamespace s;
     _cfgUrl := _cfgUrl s;
     _timeoutHandle := _timeoutHandle s;
     _receiveChanges := _receiveChanges s;
     _fetchSpan := _fetchSpan s;
     _onCfgChangeReceive := _onCfgChangeReceive s;
     _nonOverrideConfigs := _nonOverrideConfigs s;
     _fetchFn := _fetchFn s;
     _overrideFetchFn := _overrideFetchFn s;
     _overrideSyncFn := _overrideSyncFn s |}.

Definition set_isAutoSync (v : option bool) (s : State) : State :=
  {| _extensionConfig := _extensionConfig s;
     _mainConfig := _mainConfig s;
     _isAutoSync := v;
     _evtName := _evtName s;
     _evtNamespace := _evtNamespace s;
     _cfgUrl := _cfgUrl s;
     _timeoutHandle := _timeoutHandle s;
     _receiveChanges := _receiveChanges s;
     _fetchSpan := _fetchSpan s;
     _onCfgChangeReceive := _onCfgChangeReceive s;
     _nonOverrideConfigs := _nonOverrideConfigs s;
     _fetchFn := _fetchFn s;
     _overrideFetchFn := _overrideFetchFn s;
     _overrideSyncFn := _overrideSyncFn s |}.

Definition set_evtName (v : option string) (s : State) : State :=
  {| _extensionConfig := _extensionConfig s;
     _mainConfig := _mainConfig s;
     _isAutoSync := _isAutoSync s;
     _evtName := v;
     _evtNamespace := _evtNamespace s;
     _cfgUrl := _cfgUrl s;
     _timeoutHandle := _timeoutHandle s;
     _receiveChanges := _receiveChanges s;
     _fetchSpan := _fetchSpan s;
     _onCfgChangeReceive := _onCfgChangeReceive s;
     _nonOverrideConfigs := _nonOverrideConfigs s;
     _fetchFn := _fetchFn s;
     _overrideFetchFn := _overrideFetchFn s;
     _overrideSyncFn := _overrideSyncFn s |}.

Definition set_evtNamespace (v : option nat) (s : State) : State :=
  {| _extensionConfig := _extensionConfig s;
     _mainConfig := _mainConfig s;
     _isAutoSync := _isAutoSync s;
     _evtName := _evtName s;
     _evtNamespace := v;
     _cfgUrl := _cfgUrl s;
     _timeoutHandle := _timeoutHandle s;
     _receiveChanges := _receiveChanges s;
     _fetchSpan := _fetchSpan s;
     _onCfgChangeReceive := _onCfgChangeReceive s;
     _nonOverrideConfigs := _nonOverrideConfigs s;
     _fetchFn := _fetchFn s;
     _overrideFetchFn := _overrideFetchFn s;
     _overrideSyncFn := _overrideSyncFn s |}.

Definition set_cfgUrl (v : option string) (s : State) : State :=
  {| _extensionConfig := _extensionConfig s;
     _mainConfig := _mainConfig s;
     _isAutoSync := _isAutoSync s;
     _evtName := _evtName s;
     _evtNamespace := _evtNamespace s;
     _cfgUrl := v;
     _timeoutHandle := _timeoutHandle s;
     _receiveChanges := _receiveChanges s;
     _fetchSpan := _fetchSpan s;
     _onCfgChangeReceive := _onCfgChangeReceive s;
     _nonOverrideConfigs := _nonOverrideConfigs s;
     _fetchFn := _fetchFn s;
     _overrideFetchFn := _overrideFetchFn s;
     _overrideSyncFn := _overrideSyncFn s |}.

Definition set_timeoutHandle (v : option nat) (s : State) : State :=
  {| _extensionConfig := _extensionConfig s;
     _mainConfig := _mainConfig s;
     _isAutoSync := _isAutoSync s;
     _evtName := _evtName s;
     _evtNamespace := _evtNamespace s;
     _cfgUrl := _cfgUrl s;
     _timeoutHandle := v;
     _receiveChanges := _receiveChanges s;
     _fetchSpan := _fetchSpan s;
     _onCfgChangeReceive := _onCfgChangeReceive s;
     _nonOverrideConfigs := _nonOverrideConfigs s;
     _fetchFn := _fetchFn s;
     _overrideFetchFn := _overrideFetchFn s;
     _overrideSyncFn := _overrideSyncFn s |}.

Definition set_receiveChanges (v : option bool) (s : State) : State :=
  {| _extensionConfig := _extensionConfig s;
     _mainConfig := _mainConfig s;
     _isAutoSync := _isAutoSync s;
     _evtName := _evtName s;
     _evtNamespace := _evtNamespace s;
     _cfgUrl := _cfgUrl s;
     _timeoutHandle := _timeoutHandle s;
     _receiveChanges := v;
     _fetchSpan := _fetchSpan s;
     _onCfgChangeReceive := _onCfgChangeReceive s;
     _nonOverrideConfigs := _nonOverrideConfigs s;
     _fetchFn := _fetchFn s;
     _overrideFetchFn := _overrideFetchFn s;
     _overrideSyncFn := _overrideSyncFn s |}.

Definition set_fetchSpan (v : option Z) (s : State) : State :=
  {| _extensionConfig := _extensionConfig s;
     _mainConfig := _mainConfig s;
     _isAutoSync := _isAutoSync s;
     _evtName := _evtName s;
     _evtNamespace := _evtNamespace s;
     _cfgUrl := _cfgUrl s;
     _timeoutHandle := _timeoutHandle s;
     _receiveChanges := _receiveChanges s;
     _fetchSpan := v;
     _onCfgChangeReceive := _onCfgChangeReceive s;
     _nonOverrideConfigs := _nonOverrideConfigs s;
     _fetchFn := _fetchFn s;
     _overrideFetchFn := _overrideFetchFn s;
     _overrideSyncFn := _overrideSyncFn s |}.

Definition set_onCfgChangeReceive (v : option ReceiveFn) (s : State) : State :=
  {| _extensionConfig := _extensionConfig s;
     _mainConfig := _mainConfig s;
     _isAutoSync := _isAutoSync s;
     _evtName := _evtName s;
     _evtNamespace := _evtNamespace s;
     _cfgUrl := _cfgUrl s;
     _timeoutHandle := _timeoutHandle s;
     _receiveChanges := _receiveChanges s;
     _fetchSpan := _fetchSpan s;
     _onCfgChangeReceive := v;
     _nonOverrideConfigs := _nonOverrideConfigs s;
     _fetchFn := _fetchFn s;
     _overrideFetchFn := _overrideFetchFn s;
     _overrideSyncFn := _overrideSyncFn s |}.

Definition set_nonOverrideConfigs (v : option NonOverrideCfg) (s : State) : State :=
  {| _extensionConfig := _extensionConfig s;
     _mainConfig := _mainConfig s;
     _isAutoSync := _isAutoSync s;
     _evtName := _evtName s;
     _evtNamespace := _evtNamespace s;
     _cfgUrl := _cfgUrl s;
     _timeoutHandle := _timeoutHandle s;
     _receiveChanges := _receiveChanges s;
     _fetchSpan := _fetchSpan s;
     _onCfgChangeReceive := _onCfgChangeReceive s;
     _nonOverrideConfigs := v;
     _fetchFn := _fetchFn s;
     _overrideFetchFn := _overrideFetchFn s;
     _overrideSyncFn := _overrideSyncFn s |}.

Definition set_fetchFn (v : option SendGetFunction) (s : State) : State :=
  {| _extensionConfig := _extensionConfig s;
     _mainConfig := _mainConfig s;
     _isAutoSync := _isAutoSync s;
     _evtName := _evtName s;
     _evtNamespace := _evtNamespace s;
     _cfgUrl := _cfgUrl s;
     _timeoutHandle := _timeoutHandle s;
     _receiveChanges := _receiveChanges s;
     _fetchSpan := _fetchSpan s;
     _onCfgChangeReceive := _onCfgChangeReceive s;
     _nonOverrideConfigs := _nonOverrideConfigs s;
     _fetchFn := v;
     _overrideFetchFn := _overrideFetchFn s;
     _overrideSyncFn := _overrideSyncFn s |}.

Definition set_overrideFetchFn (v : option UserFetchFn) (s : State) : State :=
  {| _extensionConfig := _extensionConfig s;
     _mainConfig := _mainConfig s;
     _isAutoSync := _isAutoSync s;
     _evtName := _evtName s;
     _evtNamespace := _evtNamespace s;
     _cfgUrl := _cfgUrl s;
     _timeoutHandle := _timeoutHandle s;
     _receiveChanges := _receiveChanges s;
     _fetchSpan := _fetchSpan s;
     _onCfgChangeReceive := _onCfgChangeReceive s;
     _nonOverrideConfigs := _nonOverrideConfigs s;
     _fetchFn := _fetchFn s;
     _overrideFetchFn := v;
     _overrideSyncFn := _overrideSyncFn s |}.

Definition set_overrideSyncFn (v : option SyncFn) (s : State) : State :=
  {| _extensionConfig := _extensionConfig s;
     _mainConfig := _mainConfig s;
     _isAutoSync := _isAutoSync s;
     _evtName := _evtName s;
     _evtNamespace := _evtNamespace s;
     _cfgUrl := _cfgUrl s;
     _timeoutHandle := _timeoutHandle s;
     _receiveChanges := _receiveChanges s;
     _fetchSpan := _fetchSpan s;
     _onCfgChangeReceive := _onCfgChangeReceive s;
     _nonOverrideConfigs := _nonOverrideConfigs s;
     _fetchFn := _fetchFn s;
     _overrideFetchFn := _overrideFetchFn s;
     _overrideSyncFn := v |}.

(** ** Updates of the world outside the closure *)

Definition mod_bus (f : list Listener -> list Listener) : M unit :=
  fun w => (Ok tt, {| eng := eng w; bus := f (bus w); timers := timers w; nextId := nextId w; inflight := inflight w; trace := trace w |}).

Definition mod_timers (f : list nat -> list nat) : M unit :=
  fun w => (Ok tt, {| eng := eng w; bus := bus w; timers := f (timers w); nextId := nextId w; inflight := inflight w; trace := trace w |}).

Definition mod_nextId (f : nat -> nat) : M unit :=
  fun w => (Ok tt, {| eng := eng w; bus := bus w; timers := timers w; nextId := f (nextId w); inflight := inflight w; trace := trace w |}).

Definition mod_inflight (f : list Pending -> list Pending) : M unit :=
  fun w => (Ok tt, {| eng := eng w; bus := bus w; timers := timers w; nextId := nextId w; inflight := f (inflight w); trace := trace w |}).

Definition isSome {A} (x : option A) : bool :=
  match x with Some _ => true | None => false end.

Definition opt_str_eqb (a b : option string) : bool :=
  match a, b with
  | Some x, Some y => String.eqb x y
  | None, None => true
  | _, _ => false
  end.

Definition opt_nat_eqb (a b : option nat) : bool :=
  match a, b with
  | Some x, Some y => Nat.eqb x y
  | None, None => true
  | _, _ => false
  end.

(** ** The event bus and the timer service *)

(** Modelled from the spec: [eventOn(global, name, handler, ns, true)] of
    the core package, called with the plugin's handler: one more listener
    under the name and the namespace. *)
Definition eventOn (name : option string) (ns : option nat) : M unit :=
  mod_bus (fun b => b ++ [{| lName := name; lNs := ns; lSelf := true |}]).

(** Modelled from the spec: [eventOff(global, null, null, ns)] of the
    core package, where the "namespace scopes unsubscription to the
    calling instance": every listener registered under the namespace [ns]
    goes, whatever its event name, and no other. *)
Definition eventOff (ns : option nat) : M unit :=
  mod_bus (List.filter (fun l => negb (opt_nat_eqb (lNs l) ns))).

(** [scheduleTimeout(cb, span)] of ts-utils: a fresh handle, pending
    until it fires or is cancelled. *)
Definition scheduleTimeout : M nat :=
  fun w => (Ok (nextId w),
            {| eng := eng w; bus := bus w; timers := timers w ++ [nextId w];
               nextId := S (nextId w); inflight := inflight w;
               trace := trace w |}).

(** [handle.cancel()] *)
Definition cancel (id : nat) : M unit :=
  mod_timers (List.filter (fun t => negb (Nat.eqb t id))).

(** Modelled from the spec: [createUniqueNamespace(identifier)] of the
    core package, merged with the core's own namespace by
    [mergeEvtNamespace]: "a distinct internal namespace" for each
    instance. *)
Definition createUniqueNamespace : M nat :=
  fun w => (Ok (nextId w),
            {| eng := eng w; bus := bus w; timers := timers w;
               nextId := S (nextId w); inflight := inflight w;
               trace := trace w |}).

(** ** Outcomes of a request, as the host reports them *)

(** [doAwaitResponse(promise, cb)] of ts-async runs [cb] once the promise
    has settled, resolved or rejected, with [{rejected, value, reason}];
    the test of [result.rejected] in [_fetchSender] relies on it.

    [response.text()] settled: [res.value] is the text, or [undefined]
    when the promise was rejected. *)
Inductive TextOutcome : Type :=
| TextResolved (text : string)
| TextRejected.

(** [fetch(request)] settled. *)
Inductive FetchOutcome : Type :=
| FetchRejected
| FetchResolved (ok : bool) (status : Z) (text : TextOutcome).

Definition OnCompleteCallback : Type :=
  Z -> option string -> option bool -> M unit.

(** [XMLHttpRequest.DONE] *)
Definition XHR_DONE : nat := 4.

(** ** The plugin *)

Section Engine.

(** The host the plugin runs in. *)
Variable h : Host.

(** [replaceByNonOverrideCfg] of [CfgSyncHelperFuncs], imported by the
    plugin. *)
Variable replaceByNonOverrideCfg :
  JsVal -> NonOverrideCfg -> nat -> nat -> Result JsVal.

Local Open Scope js_scope.

Definition _initDefaults : M unit :=
  modEng (fun s =>
    {| _extensionConfig := _extensionConfig s;
       _mainConfig := JNull;
       _isAutoSync := None;
       _evtName := None;
       _evtNamespace := None;
       _cfgUrl := None;
       _timeoutHandle := None;
       _receiveChanges := None;
       _fetchSpan := None;
       _onCfgChangeReceive := None;
       _nonOverrideConfigs := None;
       _fetchFn := _fetchFn s;
       _overrideFetchFn := None;
       _overrideSyncFn := None |}).

Definition _eventOff : M unit :=
  tryCatch
    (s <-- getEng;;
     when (getGlobal h) (eventOff (_evtNamespace s)))
    (ret tt).

Definition _sendCfgsyncEvents (customDetails : JsVal) : M bool :=
  tryCatch
    (s <-- getEng;;
     match _overrideSyncFn s with
     | Some f =>
         emit (EOverrideSync (_mainConfig s) customDetails);;;
         lift (f (_mainConfig s) customDetails)
     | None =>
         emit (ESendCustomEvent (_evtName s) (_mainConfig s) customDetails);;;
         lift (sendCustomEvent h (_evtName s) (_mainConfig s) customDetails)
     end)
    (ret false).

Definition _setCfg (config : JsVal) (isAutoSync : option bool) : M bool :=
  if truthy config then
    modEng (set_mainConfig config);;;
    if truthy_bool isAutoSync then _sendCfgsyncEvents JUndef else ret false
  else ret false.

Definition setCfg (config : JsVal) : M bool :=
  s <-- getEng;;
  _setCfg config (_isAutoSync s).

Definition sync (customDetails : JsVal) : M bool :=
  _sendCfgsyncEvents customDetails.

Definition _replaceTartgetByKeys (cfg : JsVal) : M JsVal :=
  s <-- getEng;;
  tryCatch
    (match _nonOverrideConfigs s with
     | Some rules =>
         if truthy cfg then lift (replaceByNonOverrideCfg cfg rules 1 5)
         else ret JNull
     | None => ret JNull
     end)
    (ret JNull).

(** The handler that [_addEventListener] installs on the bus. *)
Definition onCfgSyncEvent (event : JsVal) : M unit :=
  s <-- getEng;;
  let cfgEvent := js_and event (get_field "detail" event) in
  match _onCfgChangeReceive s, truthy cfgEvent with
  | Some f, true =>
      emit (ECfgChangeReceive cfgEvent);;;
      lift (f cfgEvent)
  | _, _ =>
      let cfg := js_and cfgEvent (get_field "cfg" cfgEvent) in
      newCfg <-- (if truthy cfg then _replaceTartgetByKeys cfg else ret cfg);;
      if truthy newCfg then
        emit (EUpdateCfg newCfg);;;
        lift (updateCfg h newCfg)
      else ret tt
  end.

Definition _addEventListener : M unit :=
  s <-- getEng;;
  when (truthy_bool (_receiveChanges s))
    (when (getGlobal h)
       (tryCatch (eventOn (_evtName s) (_evtNamespace s)) (ret tt))).

Definition _updateEventListenerName (name : option string) : M bool :=
  tryCatch
    (_eventOff;;;
     when (truthy_str name)
       (modEng (set_evtName name);;;
        _addEventListener);;;
     ret true)
    (ret false).

Definition updateEventListenerName (eventName : option string) : M bool :=
  _updateEventListenerName eventName.

Definition _getFetchFnInterface : M (option SendGetFunction) :=
  s <-- getEng;;
  match _overrideFetchFn s with
  | Some f => ret (Some (OverrideFetch f))
  | None =>
      if isFetchSupported h then ret (Some FetchSender)
      else if isXhrSupported h then ret (Some XhrSender)
      else ret None
  end.

Definition _doOnComplete (oncomplete : OnCompleteCallback) (status : Z)
    (response : option string) (isAutoSync : option bool) : M unit :=
  tryCatch (oncomplete status response isAutoSync) (ret tt).

(** The synchronous part of [_fetchSender]: the request is built and
    handed to [fetch]. *)
Definition _fetchSender (url : option string) (isAutoSync : option bool)
  : M unit :=
  if truthy_str url && getGlobal h && globalFetch h then
    tryCatch
      (lift (newRequest h url);;;
       mod_inflight (fun l =>
         l ++ [{| pVia := ViaFetch; pUrl := url; pAuto := isAutoSync |}]))
      (ret tt)
  else ret tt.

(** The two nested [doAwaitResponse] callbacks of [_fetchSender], run when
    the host settles the request. *)
Definition _fetchSender_settled (oncomplete : OnCompleteCallback)
    (isAutoSync : option bool) (result : FetchOutcome) : M unit :=
  match result with
  | FetchRejected => ret tt
  | FetchResolved ok status res =>
      if ok then
        _doOnComplete oncomplete status
          (match res with
           | TextResolved text => Some text
           | TextRejected => None
           end)
          isAutoSync
      else ret tt
  end.

(** The synchronous part of [_xhrSender]. *)
Definition _xhrSender (url : option string) (isAutoSync : option bool)
  : M unit :=
  tryCatch
    (lift (xhrOpenSend h url);;;
     mod_inflight (fun l =>
       l ++ [{| pVia := ViaXhr; pUrl := url; pAuto := isAutoSync |}]))
    (ret tt).

(** The [onreadystatechange] handler of [_xhrSender], run at every change
    of [xhr.readyState]. *)
Definition _xhrSender_onreadystatechange (oncomplete : OnCompleteCallback)
    (isAutoSync : option bool) (readyState : nat) (status : Z)
    (responseText : option string) : M unit :=
  if Nat.eqb readyState XHR_DONE then
    _doOnComplete oncomplete status responseText isAutoSync
  else ret tt.

Definition _onFetchComplete (status : Z) (response : option string)
    (isAutoSync : option bool) : M unit :=
  if (200 <=? status) && (status <? 400) && truthy_str response then
    tryCatch
      (match getJSON h with
       | Some parse =>
           cfg <-- lift (parse (default "" response));;
           if truthy cfg then
             _setCfg cfg isAutoSync;;; ret tt
           else ret tt
       | None => ret tt
       end)
      (ret tt)
  else ret tt.

(** The calls a user's fetch function makes on the [oncomplete] it was
    handed, which is [_onFetchComplete] at every call site. *)
Fixpoint oncomplete_calls (cs : list (Z * option string * option bool))
  : M unit :=
  match cs with
  | [] => ret tt
  | (status, response, isAutoSync) :: r =>
      _onFetchComplete status response isAutoSync;;;
      oncomplete_calls r
  end.

(** A call [_fetchFn(_cfgUrl, _onFetchComplete, _isAutoSync)]; calling
    what is [null] or [undefined] is a [TypeError].  The user's fetch
    function runs with [_onFetchComplete] in hand. *)
Definition call_fetchFn (f : option SendGetFunction) (url : option string)
    (isAutoSync : option bool) : M unit :=
  match f with
  | None => throw TypeError
  | Some FetchSender => _fetchSender url isAutoSync
  | Some XhrSender => _xhrSender url isAutoSync
  | Some (OverrideFetch g) =>
      emit (EOverrideFetch url isAutoSync);;;
      oncomplete_calls (fCompleted (g url isAutoSync));;;
      lift (fReturned (g url isAutoSync))
  end.

Definition _setupTimer : M unit :=
  s <-- getEng;;
  when (negb (isSome (_timeoutHandle s)) && truthy_num (_fetchSpan s))
    (id <-- scheduleTimeout;;
     modEng (set_timeoutHandle (Some id))).

(** The callback [_setupTimer] passes to [scheduleTimeout]. *)
Definition _setupTimer_callback : M unit :=
  modEng (set_timeoutHandle None);;;
  s <-- getEng;;
  call_fetchFn (_fetchFn s) (_cfgUrl s) (_isAutoSync s);;;
  _setupTimer.

Definition _clearScheduledTimer : M unit :=
  s <-- getEng;;
  match _timeoutHandle s with
  | Some id => cancel id
  | None => ret tt
  end;;;
  modEng (set_timeoutHandle None).

Definition _doTeardown : M unit :=
  _eventOff;;;
  _clearScheduledTimer;;;
  _initDefaults.

(** The callback registered with [onConfigChange]: run once at
    registration and again at every later change of the host
    configuration. *)
Definition onConfigChange_callback (config : IConfiguration) : M unit :=
  let ext := getExtCfg (cfgExt config) _defaultConfig in
  modEng (set_extensionConfig (Some ext));;;
  s <-- getEng;;
  when (isNullOrUndefined (_isAutoSync s))
    (modEng (set_isAutoSync (Some (negb (truthy_bool (disableAutoSync ext))))));;;
  s <-- getEng;;
  when (isNullOrUndefined (_receiveChanges s))
    (modEng (set_receiveChanges (Some (truthy_bool (receiveChanges ext)))));;;
  let _newEvtName :=
    if truthy_str (customEvtName ext) then customEvtName ext
    else Some evtName in
  s <-- getEng;;
  when (negb (opt_str_eqb (_evtName s) _newEvtName))
    (if truthy_bool (_receiveChanges s) then
       _updateEventListenerName _newEvtName;;; ret tt
     else
       _eventOff;;;
       modEng (set_evtName _newEvtName));;;
  s <-- getEng;;
  when (isNullOrUndefined (_cfgUrl s))
    (modEng (set_cfgUrl (cfgUrl ext)));;;
  s <-- getEng;;
  when (negb (truthy_str (_cfgUrl s)))
    (modEng (set_mainConfig (cfgTree config));;;
     s <-- getEng;;
     when (truthy_bool (_isAutoSync s))
       (_sendCfgsyncEvents JUndef;;; ret tt)).

Definition _populateDefaults (config : IConfiguration) : M unit :=
  onConfigChange_callback config;;;
  s <-- getEng;;
  match _extensionConfig s with
  | None => throw TypeError
  | Some ext =>
      modEng (set_overrideSyncFn (overrideSyncFn ext));;;
      modEng (set_overrideFetchFn (overrideFetchFn ext));;;
      modEng (set_onCfgChangeReceive (onCfgChangeReceive ext));;;
      modEng (set_nonOverrideConfigs (nonOverrideConfigs ext));;;
      modEng (set_fetchSpan (scheduleFetchTimeout ext));;;
      s <-- getEng;;
      when (truthy_str (_cfgUrl s))
        (f <-- _getFetchFnInterface;;
         modEng (set_fetchFn f);;;
         s <-- getEng;;
         when (isSome (_fetchFn s))
           (call_fetchFn (_fetchFn s) (_cfgUrl s) (_isAutoSync s));;;
         _setupTimer)
  end.

Definition initialize (config : IConfiguration) : M unit :=
  ns <-- createUniqueNamespace;;
  modEng (set_evtNamespace (Some ns));;;
  _populateDefaults config.

(** ** What the host does to the plugin afterwards *)

(** The timer service fires the handle [id]: nothing happens unless it is
    still pending. *)
Definition fireTimer (id : nat) : M unit :=
  fun w =>
    if existsb (Nat.eqb id) (timers w) then
      (cancel id;;; _setupTimer_callback) w
    else (Ok tt, w).

(** The bus dispatches an event named [name]: every listener of this
    plugin registered under that name runs its handler; what a handler
    throws is reported by the bus, not passed on. *)
Fixpoint runListeners (ls : list Listener) (name : option string)
    (event : JsVal) : M unit :=
  match ls with
  | [] => ret tt
  | l :: r =>
      when (lSelf l && opt_str_eqb (lName l) name)
        (tryCatch (onCfgSyncEvent event) (ret tt));;;
      runListeners r name event
  end.

Definition dispatchEvent (name : option string) (event : JsVal) : M unit :=
  fun w => runListeners (bus w) name event w.

Definition pending_eqb (p q : Pending) : bool :=
  match pVia p, pVia q with
  | ViaFetch, ViaFetch | ViaXhr, ViaXhr => true
  | _, _ => false
  end
  && opt_str_eqb (pUrl p) (pUrl q)
  && match pAuto p, pAuto q with
     | Some a, Some b => Bool.eqb a b
     | None, None => true
     | _, _ => false
     end.

Fixpoint remove_pending (p : Pending) (l : list Pending) : list Pending :=
  match l with
  | [] => []
  | q :: r => if pending_eqb p q then r else q :: remove_pending p r
  end.

(** The host settles the outstanding fetch request [p]; the plugin's
    callbacks run with [_onFetchComplete], as every caller passes it. *)
Definition settleFetch (p : Pending) (result : FetchOutcome) : M unit :=
  fun w =>
    if existsb (pending_eqb p) (inflight w) then
      (mod_inflight (remove_pending p);;;
       _fetchSender_settled _onFetchComplete (pAuto p) result) w
    else (Ok tt, w).

(** The outstanding XHR request [p] reaches [DONE]. *)
Definition settleXhr (p : Pending) (status : Z) (responseText : option string)
  : M unit :=
  fun w =>
    if existsb (pending_eqb p) (inflight w) then
      (mod_inflight (remove_pending p);;;
       _xhrSender_onreadystatechange _onFetchComplete (pAuto p) XHR_DONE
         status responseText) w
    else (Ok tt, w).

End Engine.

(** ** SelectiveMerge *)

(** [rules] marks [k] protected. *)
Definition protected (rules : NonOverrideCfg) (k : string) : bool :=
  default false (rules !! k).

(** Modelled from the spec: [replaceByNonOverrideCfg] lives in
    [CfgSyncHelperFuncs.ts], which is not among the sources at hand; the
    plugin only imports it.  Section 4.2 of the specification describes
    it as [sanitize(cfg, rules, level, maxLevel)]: a key of [cfg] that
    [rules] marks protected is left out of the result; the value of any
    other key is kept, after a recursive pass with [level + 1] when it is
    itself a mapping and [level < maxLevel], and verbatim otherwise. *)
Fixpoint sanitize (rules : NonOverrideCfg) (maxLevel level : nat)
    (cfg : JsVal) {struct cfg} : JsVal :=
  match cfg with
  | JObj fs =>
      JObj ((fix keys (fs : list (string * JsVal)) : list (string * JsVal) :=
               match fs with
               | [] => []
               | (k, v) :: r =>
                   if protected rules k then keys r
                   else
                     (k, match v with
                         | JObj _ =>
                             if (level <? maxLevel)%nat
                             then sanitize rules maxLevel (S level) v
                             else v
                         | _ => v
                         end) :: keys r
               end) fs)
  | _ => cfg
  end.

(** Modelled from the spec: the entry point of SelectiveMerge, which
    "returns null if rules or cfg is absent". *)
Definition sanitize_or_null (cfg : JsVal) (rules : option NonOverrideCfg)
    (level maxLevel : nat) : JsVal :=
  match rules with
  | Some r => if truthy cfg then sanitize r maxLevel level cfg else JNull
  | None => JNull
  end.

(** Modelled from the spec: the helper as the plugin calls it. *)
Definition replaceByNonOverrideCfg (cfg : JsVal) (rules : NonOverrideCfg)
    (level maxLevel : nat) : Result JsVal :=
  Ok (sanitize_or_null cfg (Some rules) level maxLevel).

(** The value found by following the keys of [p] from [v]. *)
Fixpoint get_path (p : list string) (v : JsVal) : option JsVal :=
  match p with
  | [] => Some v
  | k :: p' =>
      match v with
      | JObj fs =>
          match assoc k fs with
          | Some v' => get_path p' v'
          | None => None
          end
      | _ => None
      end
  end.

(** No key of the first [depth] nesting levels of [v] is protected. *)
Fixpoint clean (rules : NonOverrideCfg) (depth : nat) (v : JsVal) : bool :=
  match depth with
  | O => true
  | S d =>
      match v with
      | JObj fs =>
          forallb (fun kv => negb (protected rules (fst kv))
                             && clean rules d (snd kv)) fs
      | _ => true
      end
  end.

(** [p] runs through a protected key within its first [depth] steps. *)
Definition blocked (rules : NonOverrideCfg) (depth : nat) (p : list string)
  : bool :=
  existsb (protected rules) (firstn depth p).

(** ** A JSON reader for the examples *)

(** The theorems below hold for whatever parser the host supplies in
    [getJSON].  The worked examples need one to run: [parseJSON] reads
    the JSON texts made of [null], [true], [false], integers, strings
    without escapes, arrays and objects, and throws [SyntaxError] on
    anything else. *)

Definition is_ws (c : ascii) : bool :=
  Ascii.eqb c " " || Ascii.eqb c "009" || Ascii.eqb c "010"
  || Ascii.eqb c "013".

Fixpoint skip_ws (s : list ascii) : list ascii :=
  match s with
  | c :: r => if is_ws c then skip_ws r else s
  | [] => []
  end.

Fixpoint strip_prefix (p s : list ascii) : option (list ascii) :=
  match p, s with
  | [], _ => Some s
  | a :: p', b :: s' => if Ascii.eqb a b then strip_prefix p' s' else None
  | _ :: _, [] => None
  end.

Definition digit_of (c : ascii) : option Z :=
  let n := N_of_ascii c in
  if (48 <=? n)%N && (n <=? 57)%N then Some (Z.of_N n - 48) else None.

Fixpoint read_digits (s : list ascii) (acc : Z) : Z * list ascii :=
  match s with
  | c :: r =>
      match digit_of c with
      | Some d => read_digits r (10 * acc + d)
      | None => (acc, s)
      end
  | [] => (acc, [])
  end.

Definition read_int (s : list ascii) : option (Z * list ascii) :=
  match s with
  | c :: r =>
      match digit_of c with
      | Some d =>
          let '(n, rest) := read_digits r d in
          match rest with
          | c' :: _ =>
              if Ascii.eqb c' "." || Ascii.eqb c' "e" || Ascii.eqb c' "E"
              then None else Some (n, rest)
          | [] => Some (n, rest)
          end
      | None => None
      end
  | [] => None
  end.

Definition dquote : ascii := "034".

Fixpoint read_string (s : list ascii) : option (string * list ascii) :=
  match s with
  | c :: r =>
      if Ascii.eqb c dquote then Some (EmptyString, r)
      else if Ascii.eqb c "\" || (N_of_ascii c <? 32)%N then None
      else
        match read_string r with
        | Some (str, rest) => Some (String c str, rest)
        | None => None
        end
  | [] => None
  end.

Section Parser.

(** The reader of one value, for what lies inside an array or object. *)
Variable value : list ascii -> option (JsVal * list ascii).

(** The items of an array after its bracket, [n] bounding their number. *)
Fixpoint read_items (n : nat) (s : list ascii)
  : option (list JsVal * list ascii) :=
  match n with
  | O => None
  | S n' =>
      match value s with
      | Some (v, rest) =>
          match skip_ws rest with
          | c :: rest' =>
              if Ascii.eqb c "," then
                match read_items n' rest' with
                | Some (vs, rest'') => Some (v :: vs, rest'')
                | None => None
                end
              else if Ascii.eqb c "]" then Some ([v], rest')
              else None
          | [] => None
          end
      | None => None
      end
  end.

(** The members of an object after its brace. *)
Fixpoint read_members (n : nat) (s : list ascii)
  : option (list (string * JsVal) * list ascii) :=
  match n with
  | O => None
  | S n' =>
      match skip_ws s with
      | q :: s1 =>
          if Ascii.eqb q dquote then
            match read_string s1 with
            | Some (k, s2) =>
                match skip_ws s2 with
                | c :: s3 =>
                    if Ascii.eqb c ":" then
                      match value s3 with
                      | Some (v, s4) =>
                          match skip_ws s4 with
                          | d :: s5 =>
                              if Ascii.eqb d "," then
                                match read_members n' s5 with
                                | Some (ms, s6) => Some ((k, v) :: ms, s6)
                                | None => None
                                end
                              else if Ascii.eqb d "}" then Some ([(k, v)], s5)
                              else None
                          | [] => None
                          end
                      | None => None
                      end
                    else None
                | [] => None
                end
            | None => None
            end
          else None
      | [] => None
      end
  end.

End Parser.

Fixpoint read_value (fuel : nat) (s : list ascii)
  : option (JsVal * list ascii) :=
  match fuel with
  | O => None
  | S f =>
      let s := skip_ws s in
      match strip_prefix (list_ascii_of_string "null") s with
      | Some r => Some (JNull, r)
      | None =>
      match strip_prefix (list_ascii_of_string "true") s with
      | Some r => Some (JBool true, r)
      | None =>
      match strip_prefix (list_ascii_of_string "false") s with
      | Some r => Some (JBool false, r)
      | None =>
      match s with
      | c :: r =>
          if Ascii.eqb c dquote then
            match read_string r with
            | Some (str, rest) => Some (JStr str, rest)
            | None => None
            end
          else if Ascii.eqb c "-" then
            match read_int r with
            | Some (n, rest) => Some (JNum (- n), rest)
            | None => None
            end
          else if Ascii.eqb c "[" then
            match skip_ws r with
            | c' :: r' =>
                if Ascii.eqb c' "]" then Some (JArr [], r')
                else
                  match read_items (read_value f) f r with
                  | Some (vs, rest) => Some (JArr vs, rest)
                  | None => None
                  end
            | [] => None
            end
          else if Ascii.eqb c "{" then
            match skip_ws r with
            | c' :: r' =>
                if Ascii.eqb c' "}" then Some (JObj [], r')
                else
                  match read_members (read_value f) f r with
                  | Some (ms, rest) => Some (JObj ms, rest)
                  | None => None
                  end
            | [] => None
            end
          else
            match read_int s with
            | Some (n, rest) => Some (JNum n, rest)
            | None => None
            end
      | [] => None
      end
      end
      end
      end
  end.

Definition parseJSON (text : string) : Result JsVal :=
  let s := list_ascii_of_string text in
  match read_value (S (List.length s)) s with
  | Some (v, rest) =>
      match skip_ws rest with
      | [] => Ok v
      | _ :: _ => Throw SyntaxError
      end
  | None => Throw SyntaxError
  end.

(** JSON texts are written below with ['] where JSON has the double
    quote. *)
Definition unquote_char (c : ascii) : ascii :=
  if Ascii.eqb c "'" then dquote else c.

Fixpoint json (s : string) : string :=
  match s with
  | EmptyString => EmptyString
  | String c r => String (unquote_char c) (json r)
  end.

(** ** Vocabulary of the statements *)

(** Running a computation for its final world and for its result. *)
Definition exec {A} (m : M A) (w : World) : World := snd (m w).
Definition result {A} (m : M A) (w : World) : Result A := fst (m w).

(** A sequence of change notifications, in delivery order: each carries
    the host configuration as it is when it is delivered.  The closure
    holds values where the code holds the live configuration and rules
    objects, so what is said of [_mainConfig] and [_nonOverrideConfigs]
    is said of what is assigned to them, not of what the host does to
    the object afterwards. *)
Fixpoint notifications (h : Host) (cfgs : list IConfiguration) : M unit :=
  match cfgs with
  | [] => ret tt
  | c :: r => bind (onConfigChange_callback h c) (fun _ => notifications h r)
  end.

(** What a send that may throw turns into behind the [try]/[catch]. *)
Definition swallowed (r : Result bool) : bool :=
  match r with Ok b => b | Throw _ => false end.

(** The world with one more outbound call recorded. *)
Definition traced (w : World) (e : Effect) : World :=
  {| eng := eng w; bus := bus w; timers := timers w; nextId := nextId w;
     inflight := inflight w; trace := trace w ++ [e] |}.

(** The outbound calls made on the way from [w] to [w']: what the trace
    has gained. *)
Definition callsSince (w w' : World) : list Effect :=
  List.skipn (List.length (trace w)) (trace w').

(** The first of them: the call the plugin makes before anything the
    host does in answer to it. *)
Definition firstCall (w w' : World) : option Effect :=
  List.hd_error (callsSince w w').

(** An [oncomplete] callback that only records that it was called, and
    with what. *)
Definition recordComplete : OnCompleteCallback :=
  fun status text isAutoSync => emit (EOnComplete status text isAutoSync).

(** The [readystatechange] events of one XHR request, in order: each
    carries the [readyState], [status] and [responseText] the handler
    reads. *)
Fixpoint xhr_events (oncomplete : OnCompleteCallback)
    (isAutoSync : option bool) (evs : list (nat * Z * option string))
  : M unit :=
  match evs with
  | [] => ret tt
  | (readyState, status, text) :: r =>
      bind (_xhrSender_onreadystatechange oncomplete isAutoSync readyState
              status text)
           (fun _ => xhr_events oncomplete isAutoSync r)
  end.

(** How many of the events are at [DONE]. *)
Definition done_count (evs : list (nat * Z * option string)) : nat :=
  List.length (List.filter (fun ev => Nat.eqb (fst (fst ev)) XHR_DONE) evs).

(** *** Latches *)

(** A field that is set keeps its value from [s] to [s']. *)
Definition keeps {A} (field : State -> option A) (s s' : State) : Prop :=
  forall v, field s = Some v -> field s' = Some v.

(** The three latched fields keep their values. *)
Definition latched (s s' : State) : Prop :=
  keeps _isAutoSync s s' /\ keeps _receiveChanges s s' /\ keeps _cfgUrl s s'.

(** [m], run in [w], returns normally and respects the latches. *)
Definition latching {A} (m : M A) (w : World) : Prop :=
  (exists a, result m w = Ok a) /\ latched (eng w) (eng (exec m w)).

(** *** SelectiveMerge *)

(** What [sanitize] does to the value of a key it keeps. *)
Definition sub (rules : NonOverrideCfg) (maxLevel level : nat) (v : JsVal)
  : JsVal :=
  match v with
  | JObj _ =>
      if (level <? maxLevel)%nat then sanitize rules maxLevel (S level) v
      else v
  | _ => v
  end.

(** What [sanitize] does to the fields of one level. *)
Fixpoint keep (rules : NonOverrideCfg) (maxLevel level : nat)
    (fs : list (string * JsVal)) : list (string * JsVal) :=
  match fs with
  | [] => []
  | (k, v) :: r =>
      if protected rules k then keep rules maxLevel level r
      else (k, sub rules maxLevel level v) :: keep rules maxLevel level r
  end.

(** What is found in the sanitized tree at the end of a path of [n] keys
    for a value [v] of the original: the sanitized [v] while the path is
    within [maxLevel], [v] itself beyond. *)
Definition at_depth (rules : NonOverrideCfg) (maxLevel level n : nat)
    (v : JsVal) : JsVal :=
  if (level + n <=? maxLevel)%nat then sanitize rules maxLevel (level + n) v
  else v.

(** *** Invariants of a running plugin *)

(** The listeners left by [eventOff] for the namespace [ns]. *)
Definition others (ns : option nat) (b : list Listener) : list Listener :=
  List.filter (fun l => negb (opt_nat_eqb (lNs l) ns)) b.

(** The closure after [_initDefaults]: everything null but the two
    variables it does not touch. *)
Definition cleared (s : State) : State :=
  {| _extensionConfig := _extensionConfig s;
     _mainConfig := JNull;
     _isAutoSync := None;
     _evtName := None;
     _evtNamespace := None;
     _cfgUrl := None;
     _timeoutHandle := None;
     _receiveChanges := None;
     _fetchSpan := None;
     _onCfgChangeReceive := None;
     _nonOverrideConfigs := None;
     _fetchFn := _fetchFn s;
     _overrideFetchFn := None;
     _overrideSyncFn := None |}.

(** Every listener of this plugin on the bus sits under the plugin's
    current namespace, and there is none where there is no global
    object. *)
Definition owned (h : Host) (w : World) : Prop :=
  forall l, In l (bus w) -> lSelf l = true ->
    getGlobal h = true /\ lNs l = _evtNamespace (eng w).

(** The only timer that can be pending is the one [_timeoutHandle]
    holds. *)
Definition one_timer (w : World) : Prop :=
  forall id, In id (timers w) -> _timeoutHandle (eng w) = Some id.

Definition running (h : Host) (w : World) : Prop :=
  owned h w /\ one_timer w.

(** No listener of this plugin, no pending timer. *)
Definition quiet (w : World) : Prop :=
  (forall l, In l (bus w) -> lSelf l = false) /\ timers w = [] /\
  _timeoutHandle (eng w) = None.

(** *** Reachable worlds *)

(** [m] keeps [I]. *)
Definition preserves {A} (I : World -> Prop) (m : M A) : Prop :=
  forall w, I w -> I (exec m w).

(** What can happen to a plugin between [initialize] and teardown: the
    public operations, and the callbacks the host runs. *)
Inductive Action : Type :=
| ASetCfg (config : JsVal)
| ASync (customDetails : JsVal)
| AUpdateEventListenerName (eventName : option string)
| AConfigChange (config : IConfiguration)
| ATimerFires (id : nat)
| AEvent (name : option string) (event : JsVal)
| AFetchSettles (p : Pending) (result : FetchOutcome)
| AXhrDone (p : Pending) (status : Z) (responseText : option string)
| AOverrideCompletes (status : Z) (response : option string)
    (isAutoSync : option bool).

Definition discard {A} (m : M A) : M unit := bind m (fun _ => ret tt).

Definition act (h : Host)
    (helper : JsVal -> NonOverrideCfg -> nat -> nat -> Result JsVal)
    (a : Action) : M unit :=
  match a with
  | ASetCfg config => discard (setCfg h config)
  | ASync customDetails => discard (sync h customDetails)
  | AUpdateEventListenerName n => discard (updateEventListenerName h n)
  | AConfigChange config => onConfigChange_callback h config
  | ATimerFires id => fireTimer h id
  | AEvent name event => dispatchEvent h helper name event
  | AFetchSettles p result => settleFetch h p result
  | AXhrDone p status text => settleXhr h p status text
  | AOverrideCompletes status response isAutoSync =>
      _onFetchComplete h status response isAutoSync
  end.

(** The world after a run of actions; an action that throws throws into
    the host, and the next one runs all the same. *)
Fixpoint after (h : Host)
    (helper : JsVal -> NonOverrideCfg -> nat -> nat -> Result JsVal)
    (acts : list Action) (w : World) : World :=
  match acts with
  | [] => w
  | a :: r => after h helper r (exec (act h helper a) w)
  end.

(** ** Concrete hosts and inputs *)

(** A browser: a global object, [fetch], [XMLHttpRequest], [JSON] and
    [CustomEvent] are all there and none of them fails. *)
Definition browser : Host := {|
  getGlobal := true;
  globalFetch := true;
  isFetchSupported := true;
  isXhrSupported := true;
  getJSON := Some parseJSON;
  sendCustomEvent := fun _ _ _ => Ok true;
  updateCfg := fun _ => Ok tt;
  newRequest := fun _ => Ok tt;
  xhrOpenSend := fun _ => Ok tt
|}.

(** A host with a global object and [JSON] but neither [fetch] nor
    [XMLHttpRequest]. *)
Definition bareHost : Host := {|
  getGlobal := true;
  globalFetch := false;
  isFetchSupported := false;
  isXhrSupported := false;
  getJSON := Some parseJSON;
  sendCustomEvent := fun _ _ _ => Ok true;
  updateCfg := fun _ => Ok tt;
  newRequest := fun _ => Ok tt;
  xhrOpenSend := fun _ => Ok tt
|}.

(** The closure right after the constructor ran [_initDefaults]. *)
Definition state0 : State := {|
  _extensionConfig := None;
  _mainConfig := JNull;
  _isAutoSync := None;
  _evtName := None;
  _evtNamespace := None;
  _cfgUrl := None;
  _timeoutHandle := None;
  _receiveChanges := None;
  _fetchSpan := None;
  _onCfgChangeReceive := None;
  _nonOverrideConfigs := None;
  _fetchFn := None;
  _overrideFetchFn := None;
  _overrideSyncFn := None
|}.

Definition world0 : World := {|
  eng := state0;
  bus := [];
  timers := [];
  nextId := 0%nat;
  inflight := [];
  trace := []
|}.

(** No option of the extension is given. *)
Definition noOptions : ICfgSyncConfig := {|
  disableAutoSync := None;
  customEvtName := None;
  cfgUrl := None;
  receiveChanges := None;
  overrideSyncFn := None;
  overrideFetchFn := None;
  onCfgChangeReceive := None;
  scheduleFetchTimeout := None;
  nonOverrideConfigs := None
|}.

Definition sampleTree : JsVal :=
  JObj [("instrumentationKey", JStr "abc"); ("sampleRate", JNum 50)].

(** A host configuration with default options. *)
Definition plainConfig : IConfiguration :=
  {| cfgTree := sampleTree; cfgExt := noOptions |}.

(** A host configuration that turns on receive mode. *)
Definition receivingConfig : IConfiguration := {|
  cfgTree := sampleTree;
  cfgExt := {|
    disableAutoSync := None;
    customEvtName := None;
    cfgUrl := None;
    receiveChanges := Some true;
    overrideSyncFn := None;
    overrideFetchFn := None;
    onCfgChangeReceive := None;
    scheduleFetchTimeout := None;
    nonOverrideConfigs := None |}
|}.

(** A host configuration that points the plugin at a remote document. *)
Definition remoteConfig : IConfiguration := {|
  cfgTree := sampleTree;
  cfgExt := {|
    disableAutoSync := None;
    customEvtName := None;
    cfgUrl := Some "https://example/cfg.json";
    receiveChanges := Some true;
    overrideSyncFn := None;
    overrideFetchFn := None;
    onCfgChangeReceive := None;
    scheduleFetchTimeout := None;
    nonOverrideConfigs := None |}
|}.

(** A later host configuration that asks for the opposite of
    [remoteConfig] in every latched option. *)
Definition contraryConfig : IConfiguration := {|
  cfgTree := sampleTree;
  cfgExt := {|
    disableAutoSync := Some true;
    customEvtName := Some "renamed";
    cfgUrl := Some "https://other/cfg.json";
    receiveChanges := Some false;
    overrideSyncFn := None;
    overrideFetchFn := None;
    onCfgChangeReceive := None;
    scheduleFetchTimeout := None;
    nonOverrideConfigs := None |}
|}.

(** A receive callback that accepts everything. *)
Definition acceptAll : ReceiveFn := fun _ => Ok tt.

(** A host configuration in receive mode with a receive callback. *)
Definition callbackConfig : IConfiguration := {|
  cfgTree := sampleTree;
  cfgExt := {|
    disableAutoSync := None;
    customEvtName := None;
    cfgUrl := None;
    receiveChanges := Some true;
    overrideSyncFn := None;
    overrideFetchFn := None;
    onCfgChangeReceive := Some acceptAll;
    scheduleFetchTimeout := None;
    nonOverrideConfigs := None |}
|}.

(** An override sync function that reports success. *)
Definition alwaysTrue : SyncFn := fun _ _ => Ok true.

(** An event as a peer sends it. *)
Definition peerDetail : JsVal :=
  JObj [("cfg", JObj [("instrumentationKey", JStr "x");
                      ("sampleRate", JNum 50)]);
        ("customDetails", JNull)].

Definition peerEvent : JsVal :=
  JObj [("type", JStr "cfgsync"); ("detail", peerDetail)].

(** The request [pollingWorld] has outstanding. *)
Definition firstRequest : Pending :=
  {| pVia := ViaFetch; pUrl := Some "https://example/cfg.json";
     pAuto := Some true |}.

(** The remote answers 200 with [{"sampleRate":10}]. *)
Definition goodResponse : FetchOutcome :=
  FetchResolved true 200 (TextResolved (json "{'sampleRate':10}")).

(** A browser page after [initialize] with default options: the snapshot
    is the host configuration. *)
Definition syncedWorld : World := exec (initialize browser plainConfig) world0.

(** A browser page after [initialize] in receive mode. *)
Definition receivingWorld : World :=
  exec (initialize browser receivingConfig) world0.

(** A browser page after [initialize] with a [cfgUrl]: a request is out
    and the poll timer is armed. *)
Definition pollingWorld : World :=
  exec (initialize browser remoteConfig) world0.

(** The same configuration on the host without transports. *)
Definition stuckWorld : World :=
  exec (initialize bareHost remoteConfig) world0.

Definition callbackWorld : World :=
  exec (initialize browser callbackConfig) world0.

(** A browser page whose override sync function is [alwaysTrue]. *)
Definition overriddenWorld : World :=
  exec (modEng (set_overrideSyncFn (Some alwaysTrue))) syncedWorld.

(** [pollingWorld] after teardown. *)
Definition tornWorld : World := exec (_doTeardown browser) pollingWorld.

(** *** Frames and triples *)

(** [m] leaves the observation [obs] of the world as it is, whether it
    returns or throws. *)
Definition fixes {A X} (obs : World -> X) (m : M A) : Prop :=
  forall v, preserves (fun w => obs w = v) m.

(** From a world in [P], [m] returns normally and leaves a world in
    [Q]. *)
Definition hoare {A} (P : World -> Prop) (m : M A) (Q : World -> Prop)
  : Prop :=
  forall w, P w -> (exists a, result m w = Ok a) /\ Q (exec m w).

(** What polling rests on: the requests that are out, the timers, the
    handle and the transport. *)
Definition pollPart (w : World)
  : list Pending * list nat * nat * option nat * option SendGetFunction :=
  (inflight w, timers w, nextId w, _timeoutHandle (eng w), _fetchFn (eng w)).

(** The variables [_populateDefaults] fills in after the first
    notification. *)
Definition optionsPart (w : World)
  : option SyncFn * option UserFetchFn * option ReceiveFn
    * option NonOverrideCfg * option Z * option nat :=
  (_overrideSyncFn (eng w), _overrideFetchFn (eng w),
   _onCfgChangeReceive (eng w), _nonOverrideConfigs (eng w),
   _fetchSpan (eng w), _evtNamespace (eng w)).

(** The timers and the handle. *)
Definition timerPart (w : World) : list nat * option nat :=
  (timers w, _timeoutHandle (eng w)).

(** Exactly the timer [_timeoutHandle] holds is pending. *)
Definition armed (w : World) : Prop :=
  timers w = match _timeoutHandle (eng w) with
             | Some id => [id]
             | None => []
             end.

(** The address, the snapshot and the trace are those of [w0]. *)
Definition ignoring (w0 w : World) : Prop :=
  _cfgUrl (eng w) = _cfgUrl (eng w0) /\
  _mainConfig (eng w) = _mainConfig (eng w0) /\
  trace w = trace w0.

(** [_extensionConfig.customEvtName || evtName] for a host
    configuration. *)
Definition newEvtName (config : IConfiguration) : option string :=
  if truthy_str (customEvtName (getExtCfg (cfgExt config) _defaultConfig))
  then customEvtName (getExtCfg (cfgExt config) _defaultConfig)
  else Some evtName.

(** Nothing was sent since [w0], and the override sync function is the
    one of [w0]. *)
Definition unsent (w0 w : World) : Prop :=
  trace w = trace w0 /\ _overrideSyncFn (eng w) = _overrideSyncFn (eng w0).

(** The one outbound call a broadcast of [cfg] makes from [w0] under the
    event name [name]. *)
Definition broadcastOf (w0 : World) (name : option string) (cfg : JsVal)
  : Effect :=
  match _overrideSyncFn (eng w0) with
  | Some _ => EOverrideSync cfg JUndef
  | None => ESendCustomEvent name cfg JUndef
  end.

(** *** What a change notification comes to *)

(** An unset variable takes the fresh value, a set one keeps its own. *)
Definition latch {A} (current fresh : option A) : option A :=
  match current with Some _ => current | None => fresh end.

(** The plugin's own listener under [name]. *)
Definition ownListener (name : option string) (ns : option nat) : Listener :=
  {| lName := name; lNs := ns; lSelf := true |}.

(** The world [onConfigChange_callback] leaves, written out field by
    field. *)
Definition afterConfigChange (h : Host) (config : IConfiguration) (w : World)
  : World :=
  let ext := getExtCfg (cfgExt config) _defaultConfig in
  let s := eng w in
  let auto :=
    latch (_isAutoSync s) (Some (negb (truthy_bool (disableAutoSync ext)))) in
  let recv :=
    latch (_receiveChanges s) (Some (truthy_bool (receiveChanges ext))) in
  let renamed := negb (opt_str_eqb (_evtName s) (newEvtName config)) in
  let url := latch (_cfgUrl s) (cfgUrl ext) in
  let sent := negb (truthy_str url) && truthy_bool auto in
  {| eng :=
       {| _extensionConfig := Some ext;
          _mainConfig :=
            if truthy_str url then _mainConfig s else cfgTree config;
          _isAutoSync := auto;
          _evtName := newEvtName config;
          _evtNamespace := _evtNamespace s;
          _cfgUrl := url;
          _timeoutHandle := _timeoutHandle s;
          _receiveChanges := recv;
          _fetchSpan := _fetchSpan s;
          _onCfgChangeReceive := _onCfgChangeReceive s;
          _nonOverrideConfigs := _nonOverrideConfigs s;
          _fetchFn := _fetchFn s;
          _overrideFetchFn := _overrideFetchFn s;
          _overrideSyncFn := _overrideSyncFn s |};
     bus :=
       if renamed && getGlobal h then
         if truthy_bool recv then
           others (_evtNamespace s) (bus w)
           ++ [ownListener (newEvtName config) (_evtNamespace s)]
         else others (_evtNamespace s) (bus w)
       else bus w;
     timers := timers w;
     nextId := nextId w;
     inflight := inflight w;
     trace :=
       if sent then
         trace w ++ [broadcastOf w (newEvtName config) (cfgTree config)]
       else trace w |}.

(** *** Listening *)

(** The listeners of this plugin among those on the bus. *)
Definition selfListeners (b : list Listener) : list Listener :=
  List.filter lSelf b.

(** The plugin has no listener on the bus, or exactly one: registered
    under the stored event name and the plugin's namespace, in receive
    mode, on a host with a global object. *)
Definition tuned (h : Host) (w : World) : Prop :=
  selfListeners (bus w) = [] \/
  (getGlobal h = true /\ truthy_bool (_receiveChanges (eng w)) = true /\
   selfListeners (bus w)
     = [ownListener (_evtName (eng w)) (_evtNamespace (eng w))]).

(** What listening rests on: the bus, the stored name, the namespace and
    the receive flag. *)
Definition listenPart (w : World)
  : list Listener * option string * option nat * option bool :=
  (bus w, _evtName (eng w), _evtNamespace (eng w), _receiveChanges (eng w)).

(** What listening and the timer rest on. *)
Definition standingPart (w : World)
  : (list Listener * option string * option nat * option bool)
    * (list nat * option nat) :=
  (listenPart w, timerPart w).

(** *** [initialize], written out *)

(** The world once [initialize] has drawn the namespace. *)
Definition namespaced (w : World) : World :=
  {| eng := set_evtNamespace (Some (nextId w)) (eng w);
     bus := bus w; timers := timers w; nextId := S (nextId w);
     inflight := inflight w; trace := trace w |}.

(** The world once [_populateDefaults] has run the first notification
    and read the options, before it looks at [_cfgUrl]. *)
Definition configured (h : Host) (config : IConfiguration) (w : World)
  : World :=
  let ext := getExtCfg (cfgExt config) _defaultConfig in
  let w2 := afterConfigChange h config (namespaced w) in
  {| eng :=
       set_fetchSpan (scheduleFetchTimeout ext)
         (set_nonOverrideConfigs (nonOverrideConfigs ext)
            (set_onCfgChangeReceive (onCfgChangeReceive ext)
               (set_overrideFetchFn (overrideFetchFn ext)
                  (set_overrideSyncFn (overrideSyncFn ext) (eng w2)))));
     bus := bus w2; timers := timers w2; nextId := nextId w2;
     inflight := inflight w2; trace := trace w2 |}.

(** What [_populateDefaults] does when [_cfgUrl] is set: resolve the
    transport, fetch once, arm the timer. *)
Definition startPolling (h : Host) : M unit :=
  bind (_getFetchFnInterface h) (fun f =>
  bind (modEng (set_fetchFn f)) (fun _ =>
  bind getEng (fun s =>
  bind (when (isSome (_fetchFn s))
          (call_fetchFn h (_fetchFn s) (_cfgUrl s) (_isAutoSync s)))
       (fun _ => _setupTimer)))).

(** *** Lifecycles *)

(** The world after a run of whole lifecycles: each is an [initialize],
    a run of actions and a teardown. *)
Fixpoint lifecycles (h : Host)
    (helper : JsVal -> NonOverrideCfg -> nat -> nat -> Result JsVal)
    (runs : list (IConfiguration * list Action)) (w : World) : World :=
  match runs with
  | [] => w
  | (config, acts) :: r =>
      lifecycles h helper r
        (exec (_doTeardown h)
           (after h helper acts (exec (initialize h config) w)))
  end.

(** An override fetch function that always throws. *)
Definition failingFetch : UserFetchFn := fun _ _ =>
  {| fCompleted := []; fReturned := Throw (UserError "down") |}.

(** A host configuration that polls through [failingFetch]. *)
Definition failingConfig : IConfiguration := {|
  cfgTree := sampleTree;
  cfgExt := {|
    disableAutoSync := None;
    customEvtName := None;
    cfgUrl := Some "https://example/cfg.json";
    receiveChanges := None;
    overrideSyncFn := None;
    overrideFetchFn := Some failingFetch;
    onCfgChangeReceive := None;
    scheduleFetchTimeout := None;
    nonOverrideConfigs := None |}
|}.

(** A host configuration that fetches once and never polls. *)
Definition fetchOnceConfig : IConfiguration := {|
  cfgTree := sampleTree;
  cfgExt := {|
    disableAutoSync := None;
    customEvtName := None;
    cfgUrl := Some "https://example/cfg.json";
    receiveChanges := None;
    overrideSyncFn := None;
    overrideFetchFn := None;
    onCfgChangeReceive := None;
    scheduleFetchTimeout := Some 0;
    nonOverrideConfigs := None |}
|}.

(** A host configuration with an override sync function. *)
Definition overridingConfig : IConfiguration := {|
  cfgTree := sampleTree;
  cfgExt := {|
    disableAutoSync := None;
    customEvtName := None;
    cfgUrl := None;
    receiveChanges := None;
    overrideSyncFn := Some alwaysTrue;
    overrideFetchFn := None;
    onCfgChangeReceive := None;
    scheduleFetchTimeout := None;
    nonOverrideConfigs := None |}
|}.

(** *** Polling *)

(** Everything in the world but the snapshot, the outstanding requests
    and the trace. *)
Definition besidesSnapshot (w : World)
  : State * list Listener * list nat * nat :=
  (set_mainConfig JNull (eng w), bus w, timers w, nextId w).

(** The world once the request [p] is no longer outstanding. *)
Definition answered (p : Pending) (w : World) : World :=
  {| eng := eng w; bus := bus w; timers := timers w; nextId := nextId w;
     inflight := remove_pending p (inflight w); trace := trace w |}.

(** The request a poll from [w] puts out over [via]. *)
Definition pollOf (via : Transport) (w : World) : Pending :=
  {| pVia := via; pUrl := _cfgUrl (eng w); pAuto := _isAutoSync (eng w) |}.

(** The calls an [oncomplete] callback gets from the events of one XHR
    request: one for each event at [DONE], in order. *)
Definition completions (isAutoSync : option bool)
    (evs : list (nat * Z * option string)) : list Effect :=
  List.map (fun ev => EOnComplete (snd (fst ev)) (snd ev) isAutoSync)
    (List.filter (fun ev => Nat.eqb (fst (fst ev)) XHR_DONE) evs).

(** What a send of the snapshot [cfg] from [w] returns. *)
Definition sendResult (h : Host) (w : World) (cfg : JsVal) : bool :=
  swallowed
    match _overrideSyncFn (eng w) with
    | Some f => f cfg JUndef
    | None => sendCustomEvent h (_evtName (eng w)) cfg JUndef
    end.

(** A user's fetch function that answers before it returns: it calls
    [oncomplete] once, with status 200 and [{"sampleRate":10}]. *)
Definition servingFetch : UserFetchFn := fun _ isAutoSync =>
  {| fCompleted := [(200, Some (json "{'sampleRate':10}"), isAutoSync)];
     fReturned := Ok tt |}.

(** A host configuration that polls through [servingFetch]. *)
Definition servedConfig : IConfiguration := {|
  cfgTree := sampleTree;
  cfgExt := {|
    disableAutoSync := None;
    customEvtName := None;
    cfgUrl := Some "https://example/cfg.json";
    receiveChanges := None;
    overrideSyncFn := None;
    overrideFetchFn := Some servingFetch;
    onCfgChangeReceive := None;
    scheduleFetchTimeout := None;
    nonOverrideConfigs := None |}
|}.

(** * Properties *)

Example parseJSON_object :
  parseJSON (json "{'sampleRate': 10, 'a': {'b': [1, -2, 'x'], 'c': null}}")
  = Ok (JObj [("sampleRate", JNum 10);
              ("a", JObj [("b", JArr [JNum 1; JNum (-2); JStr "x"]);
                          ("c", JNull)])]).
Proof. vm_compute. reflexivity. Qed.

Example parseJSON_malformed :
  parseJSON (json "{'sampleRate': ") = Throw SyntaxError.
Proof. vm_compute. reflexivity. Qed.

Example parseJSON_scalars :
  parseJSON "null" = Ok JNull /\ parseJSON "0" = Ok (JNum 0).
Proof. vm_compute. split; reflexivity. Qed.

(** The scenario of the specification: default options, a browser, a
    configuration [{instrumentationKey:"abc", sampleRate:50}]: exactly one
    event goes out, carrying that object. *)
Example initialize_broadcasts_once :
  trace (exec (initialize browser plainConfig) world0)
  = [ESendCustomEvent (Some "cfgsync") sampleTree JUndef].
Proof. vm_compute. reflexivity. Qed.

(** ** Broadcast: [_sendCfgsyncEvents], [sync], [_setCfg] *)

Section Calls.

Lemma skipn_length_app {A} (l r : list A) :
  List.skipn (List.length l) (l ++ r) = r.
Proof. induction l as [|x l IH]; [reflexivity|exact IH]. Qed.

Lemma callsSince_app (w w' : World) (l : list Effect) :
  trace w' = trace w ++ l -> callsSince w w' = l.
Proof. intros H. unfold callsSince. rewrite H. apply skipn_length_app. Qed.

Lemma firstCall_traced (w : World) (e : Effect) :
  firstCall w (traced w e) = Some e.
Proof.
  unfold firstCall. rewrite (callsSince_app w (traced w e) [e] eq_refl).
  reflexivity.
Qed.

Lemma firstCall_app (w w' : World) (e : Effect) (l : list Effect) :
  trace w' = trace w ++ e :: l -> firstCall w w' = Some e.
Proof.
  intros H. unfold firstCall. rewrite (callsSince_app w w' _ H). reflexivity.
Qed.

Lemma callsSince_same (w w' : World) :
  trace w' = trace w -> callsSince w w' = [].
Proof.
  intros H. apply callsSince_app. rewrite app_nil_r. exact H.
Qed.

End Calls.

Section Broadcast.

Variable h : Host.

Lemma _sendCfgsyncEvents_override (w : World) (d : JsVal) (f : SyncFn) :
  _overrideSyncFn (eng w) = Some f ->
  _sendCfgsyncEvents h d w
  = (Ok (swallowed (f (_mainConfig (eng w)) d)),
     traced w (EOverrideSync (_mainConfig (eng w)) d)).
Proof.
  intros Hf. unfold _sendCfgsyncEvents, tryCatch, bind, getEng, emit, lift.
  rewrite Hf. cbn. destruct (f _ d); reflexivity.
Qed.

Lemma _sendCfgsyncEvents_bus (w : World) (d : JsVal) :
  _overrideSyncFn (eng w) = None ->
  _sendCfgsyncEvents h d w
  = (Ok (swallowed
           (sendCustomEvent h (_evtName (eng w)) (_mainConfig (eng w)) d)),
     traced w (ESendCustomEvent (_evtName (eng w)) (_mainConfig (eng w)) d)).
Proof.
  intros Hf. unfold _sendCfgsyncEvents, tryCatch, bind, getEng, emit, lift.
  rewrite Hf. cbn. destruct (sendCustomEvent h _ _ d); reflexivity.
Qed.

(** A send never throws, and touches nothing but the trace. *)
Lemma _sendCfgsyncEvents_frame (w : World) (d : JsVal) :
  exists b e, _sendCfgsyncEvents h d w = (Ok b, traced w e).
Proof.
  destruct (_overrideSyncFn (eng w)) as [f|] eqn:Hf.
  - eexists _, _. apply (_sendCfgsyncEvents_override w d f Hf).
  - eexists _, _. apply (_sendCfgsyncEvents_bus w d Hf).
Qed.

(** C9.  [sync(customDetails)]: with an override sync function configured
    the call returns what the override returns and the only outbound call
    is the one to the override (nothing is sent on the bus); without one
    the call the plugin makes is the send of the current snapshot on the
    bus under the current event name, and [sync] returns what the send
    returns; whatever the override or the send throws is swallowed and
    the call then returns false. *)
Theorem sync_delegates_or_emits (w : World) (customDetails : JsVal) :
  (forall f, _overrideSyncFn (eng w) = Some f ->
     trace (exec (sync h customDetails) w)
       = trace w ++ [EOverrideSync (_mainConfig (eng w)) customDetails] /\
     (forall b, f (_mainConfig (eng w)) customDetails = Ok b ->
        result (sync h customDetails) w = Ok b) /\
     (forall e, f (_mainConfig (eng w)) customDetails = Throw e ->
        result (sync h customDetails) w = Ok false)) /\
  (_overrideSyncFn (eng w) = None ->
     firstCall w (exec (sync h customDetails) w)
       = Some (ESendCustomEvent (_evtName (eng w)) (_mainConfig (eng w))
                 customDetails) /\
     (forall b,
        sendCustomEvent h (_evtName (eng w)) (_mainConfig (eng w))
          customDetails = Ok b ->
        result (sync h customDetails) w = Ok b) /\
     (forall e,
        sendCustomEvent h (_evtName (eng w)) (_mainConfig (eng w))
          customDetails = Throw e ->
        result (sync h customDetails) w = Ok false)).
Proof.
  unfold sync, exec, result. split.
  - intros f Hf. rewrite (_sendCfgsyncEvents_override w _ f Hf). cbn.
    split; [reflexivity|]. split; intros x Hx; rewrite Hx; reflexivity.
  - intros Hf. rewrite (_sendCfgsyncEvents_bus w _ Hf). cbn [fst snd].
    split; [apply firstCall_traced|].
    split; intros x Hx; rewrite Hx; reflexivity.
Qed.

(** C10.  With a truthy config and a falsy auto-sync flag, [_setCfg]
    stores the config as the snapshot and still returns false, having
    sent nothing; so does the public [setCfg] when the plugin's own
    auto-sync flag is falsy. *)
Theorem _setCfg_stores_and_returns_false (w : World) (config : JsVal)
    (isAutoSync : option bool) :
  truthy config = true ->
  truthy_bool isAutoSync = false ->
  result (_setCfg h config isAutoSync) w = Ok false /\
  _mainConfig (eng (exec (_setCfg h config isAutoSync) w)) = config /\
  trace (exec (_setCfg h config isAutoSync) w) = trace w /\
  (truthy_bool (_isAutoSync (eng w)) = false ->
   result (setCfg h config) w = Ok false /\
   _mainConfig (eng (exec (setCfg h config) w)) = config).
Proof.
  intros Hc Ha. unfold setCfg, _setCfg, exec, result, bind, getEng.
  rewrite Hc, Ha. cbn. split; [reflexivity|]. split; [reflexivity|].
  split; [reflexivity|]. intros Hs. rewrite Hs. cbn. split; reflexivity.
Qed.

End Broadcast.

(** ** Completion of a fetch: [_onFetchComplete] *)

Section FetchComplete.

Variable h : Host.

Lemma _setCfg_total (w : World) (config : JsVal) (isAutoSync : option bool) :
  exists b, result (_setCfg h config isAutoSync) w = Ok b.
Proof.
  unfold _setCfg, result. destruct (truthy config); [|eexists; reflexivity].
  unfold bind, modEng. destruct (truthy_bool isAutoSync);
    [|eexists; reflexivity].
  match goal with |- context [_sendCfgsyncEvents h ?d ?w'] =>
    destruct (_sendCfgsyncEvents_frame h w' d) as (b & e & ->) end.
  eexists; reflexivity.
Qed.

Lemma _setCfg_stores (w : World) (config : JsVal) (isAutoSync : option bool) :
  truthy config = true ->
  _mainConfig (eng (exec (_setCfg h config isAutoSync) w)) = config.
Proof.
  intros Hc. unfold _setCfg, exec. rewrite Hc. unfold bind, modEng.
  destruct (truthy_bool isAutoSync); [|reflexivity].
  match goal with |- context [_sendCfgsyncEvents h ?d ?w'] =>
    destruct (_sendCfgsyncEvents_frame h w' d) as (b & e & ->) end.
  reflexivity.
Qed.


End FetchComplete.



(** C9 on a concrete page, whose override sync function answers true. *)
Lemma sync_delegates_or_emits_witness :
  trace (exec (sync browser (JStr "note")) overriddenWorld)
  = trace overriddenWorld
    ++ [EOverrideSync (_mainConfig (eng overriddenWorld)) (JStr "note")].
Proof.
  refine (proj1 (proj1
    (sync_delegates_or_emits browser overriddenWorld (JStr "note"))
    alwaysTrue _)).
  vm_compute. reflexivity.
Defined.

(** C10 on a concrete page: [setCfg({sampleRate:10})] with auto-sync off. *)
Lemma _setCfg_stores_witness :
  result (_setCfg browser (JObj [("sampleRate", JNum 10)]) (Some false))
    syncedWorld = Ok false /\
  _mainConfig
    (eng (exec (_setCfg browser (JObj [("sampleRate", JNum 10)]) (Some false))
            syncedWorld))
  = JObj [("sampleRate", JNum 10)].
Proof.
  pose proof (_setCfg_stores_and_returns_false browser syncedWorld
                (JObj [("sampleRate", JNum 10)]) (Some false)
                eq_refl eq_refl) as (H1 & H2 & _).
  split; [exact H1|exact H2].
Defined.

(** ** The transports: [_fetchSender] and [_xhrSender] *)

Section Transports.

Variable isAutoSync : option bool.

(** The fetch strategy stays silent when the request is rejected or the
    response is not [ok]. *)
Lemma _fetchSender_settled_silent (w : World) (oncomplete : OnCompleteCallback)
    (result : FetchOutcome) :
  result = FetchRejected \/
  (exists status res, result = FetchResolved false status res) ->
  _fetchSender_settled oncomplete isAutoSync result w = (Ok tt, w).
Proof. intros [->|(status & res & ->)]; reflexivity. Qed.

(** On an [ok] response whose text resolves it calls back once, with the
    status and the text. *)
Lemma _fetchSender_settled_text (w : World) (status : Z) (text : string) :
  _fetchSender_settled recordComplete isAutoSync
    (FetchResolved true status (TextResolved text)) w
  = (Ok tt, traced w (EOnComplete status (Some text) isAutoSync)).
Proof. reflexivity. Qed.

(** On an [ok] response whose text is rejected it calls back all the
    same, with [undefined] for the text: the inner [doAwaitResponse]
    callback does not look at [res.rejected]. *)
Lemma _fetchSender_settled_rejected_text (w : World) (status : Z) :
  _fetchSender_settled recordComplete isAutoSync
    (FetchResolved true status TextRejected) w
  = (Ok tt, traced w (EOnComplete status None isAutoSync)).
Proof. reflexivity. Qed.

(** Whatever the callback throws stays inside [_doOnComplete]. *)
Lemma _doOnComplete_total (w : World) (oncomplete : OnCompleteCallback)
    (status : Z) (text : option string) :
  result (_doOnComplete oncomplete status text isAutoSync) w = Ok tt.
Proof.
  unfold _doOnComplete, tryCatch, result.
  destruct (oncomplete status text isAutoSync w) as [[[]|e] w']; reflexivity.
Qed.

(** The legacy strategy calls back at [DONE], whatever the status, and at
    no other ready state. *)
Lemma _xhrSender_onreadystatechange_calls (w : World) (readyState : nat)
    (status : Z) (text : option string) :
  _xhrSender_onreadystatechange recordComplete isAutoSync readyState status
    text w
  = (Ok tt,
     if Nat.eqb readyState XHR_DONE
     then traced w (EOnComplete status text isAutoSync) else w).
Proof.
  unfold _xhrSender_onreadystatechange.
  destruct (Nat.eqb readyState XHR_DONE); reflexivity.
Qed.

(** Over the life of one request it calls back once per event at
    [DONE]: exactly once when the request reaches [DONE] once. *)
Lemma xhr_events_calls (evs : list (nat * Z * option string)) (w : World) :
  result (xhr_events recordComplete isAutoSync evs) w = Ok tt /\
  List.length (trace (exec (xhr_events recordComplete isAutoSync evs) w))
  = (List.length (trace w) + done_count evs)%nat.
Proof.
  revert w. induction evs as [|[[rs st] tx] evs IH]; intros w.
  - split; [reflexivity|]. cbn. lia.
  - unfold exec, result in *. cbn [xhr_events]. unfold bind.
    rewrite _xhrSender_onreadystatechange_calls.
    unfold done_count. cbn [List.filter fst].
    destruct (Nat.eqb rs XHR_DONE).
    + specialize (IH (traced w (EOnComplete st tx isAutoSync))).
      destruct IH as [IH1 IH2]. split; [exact IH1|].
      rewrite IH2. cbn [traced trace]. rewrite length_app.
      unfold done_count. cbn. lia.
    + specialize (IH w). destruct IH as [IH1 IH2]. split; [exact IH1|].
      rewrite IH2. reflexivity.
Qed.

End Transports.

(** C2, at the input where the fetch strategy departs from it: the
    response is [ok] with status 200 and [response.text()] is rejected.
    The strategy still invokes [oncomplete], once, with the status and an
    undefined text. *)
Theorem _fetchSender_calls_back_on_rejected_text :
  trace (exec (_fetchSender_settled recordComplete (Some true)
                 (FetchResolved true 200 TextRejected)) world0)
  = [EOnComplete 200 None (Some true)].
Proof. reflexivity. Qed.

(** ** The poll timer *)

Section PollTimer.

Variable h : Host.

(** Calling a [_fetchFn] that was never resolved throws. *)
Lemma _setupTimer_callback_throws (w : World) :
  _fetchFn (eng w) = None ->
  result (_setupTimer_callback h) w = Throw TypeError.
Proof.
  intros Hf. unfold _setupTimer_callback, result, bind, modEng, getEng, throw.
  cbn. rewrite Hf. reflexivity.
Qed.

(** [_populateDefaults] guards the same call. *)
Lemma call_fetchFn_guarded (w : World) :
  _fetchFn (eng w) = None ->
  when (isSome (_fetchFn (eng w)))
    (call_fetchFn h (_fetchFn (eng w)) (_cfgUrl (eng w)) (_isAutoSync (eng w)))
    w
  = (Ok tt, w).
Proof. intros Hf. rewrite Hf. reflexivity. Qed.

End PollTimer.

(** C4, at the input where the code departs from it: a [cfgUrl] is set,
    there is no override fetch function and the host supports neither
    fetch nor the legacy request.  [initialize] returns normally, leaves
    [_fetchFn] unresolved and arms the poll timer; when the timer fires,
    its callback throws a [TypeError] and the timer is not armed again. *)
Theorem timer_tick_throws_without_transport :
  result (initialize bareHost remoteConfig) world0 = Ok tt /\
  _fetchFn (eng stuckWorld) = None /\
  _timeoutHandle (eng stuckWorld) = Some 1%nat /\
  timers stuckWorld = [1%nat] /\
  result (fireTimer bareHost 1) stuckWorld = Throw TypeError /\
  timers (exec (fireTimer bareHost 1) stuckWorld) = [].
Proof. vm_compute. repeat split; reflexivity. Qed.

(** ** Host configuration changes: the latches *)

Section Latches.

Variable h : Host.

Lemma latched_refl (s : State) : latched s s.
Proof. repeat split; intros v Hv; exact Hv. Qed.

Lemma latched_trans (s1 s2 s3 : State) :
  latched s1 s2 -> latched s2 s3 -> latched s1 s3.
Proof.
  intros (a1 & b1 & c1) (a2 & b2 & c2).
  repeat split; intros v Hv; auto.
Qed.

Lemma latching_ret {A} (a : A) (w : World) : latching (ret a) w.
Proof. split; [eexists; reflexivity|apply latched_refl]. Qed.

Lemma latching_bind {A B} (m : M A) (k : A -> M B) (w : World) :
  latching m w ->
  (forall a, result m w = Ok a -> latching (k a) (exec m w)) ->
  latching (bind m k) w.
Proof.
  intros [[a Ha] Hl] Hk. specialize (Hk a Ha).
  unfold latching, result, exec, bind in *.
  destruct (m w) as [r w1]. cbn in *. subst r.
  destruct Hk as [Hr Hl2]. split; [exact Hr|].
  eapply latched_trans; eassumption.
Qed.

Lemma latching_getEng {A} (k : State -> M A) (w : World) :
  latching (k (eng w)) w -> latching (bind getEng k) w.
Proof. intros Hk. exact Hk. Qed.

Lemma latching_when (b : bool) (m : M unit) (w : World) :
  (b = true -> latching m w) -> latching (when b m) w.
Proof.
  destruct b; intros Hm; [apply Hm; reflexivity|apply latching_ret].
Qed.

(** An assignment respects the latches when it leaves the three fields
    as they are, or fills one that was unset. *)
Lemma latching_modEng (f : State -> State) (w : World) :
  latched (eng w) (f (eng w)) -> latching (modEng f) w.
Proof. intros Hl. split; [eexists; reflexivity|exact Hl]. Qed.

Lemma _eventOff_frame (w : World) :
  result (_eventOff h) w = Ok tt /\ eng (exec (_eventOff h) w) = eng w.
Proof.
  unfold _eventOff, tryCatch, bind, getEng, result, exec, when, eventOff,
    mod_bus, ret.
  destruct (getGlobal h); split; reflexivity.
Qed.

Lemma _addEventListener_frame (w : World) :
  result (_addEventListener h) w = Ok tt /\
  eng (exec (_addEventListener h) w) = eng w.
Proof.
  unfold _addEventListener, tryCatch, bind, getEng, result, exec, when,
    eventOn, mod_bus, ret.
  destruct (truthy_bool _), (getGlobal h); split; reflexivity.
Qed.

Lemma latching_of_frame {A} (m : M A) (w : World) (a : A) :
  result m w = Ok a -> eng (exec m w) = eng w -> latching m w.
Proof.
  intros Hr He. split; [eexists; exact Hr|]. rewrite He. apply latched_refl.
Qed.

Lemma latching_eventOff (w : World) : latching (_eventOff h) w.
Proof.
  destruct (_eventOff_frame w) as [Hr He].
  exact (latching_of_frame _ w tt Hr He).
Qed.

Lemma latching_addEventListener (w : World) :
  latching (_addEventListener h) w.
Proof.
  destruct (_addEventListener_frame w) as [Hr He].
  exact (latching_of_frame _ w tt Hr He).
Qed.

Lemma latching_sendCfgsyncEvents (d : JsVal) (w : World) :
  latching (_sendCfgsyncEvents h d) w.
Proof.
  destruct (_sendCfgsyncEvents_frame h w d) as (b & e & Heq).
  unfold latching, result, exec. rewrite Heq. cbn.
  split; [eexists; reflexivity|apply latched_refl].
Qed.

(** [_updateEventListenerName] always returns true: what could throw
    inside it is caught where it is called. *)
Lemma _updateEventListenerName_true (name : option string) (w : World) :
  result (_updateEventListenerName h name) w = Ok true.
Proof.
  unfold _updateEventListenerName, tryCatch, result.
  unfold bind at 1.
  destruct (_eventOff_frame w) as [Hr _]. unfold result in Hr.
  destruct (_eventOff h w) as [r w1]. cbn in Hr. subst r.
  unfold bind at 1. unfold when.
  destruct (truthy_str name); [|reflexivity].
  unfold bind at 1. unfold modEng at 1.
  match goal with |- context [_addEventListener h ?w'] =>
    destruct (_addEventListener_frame w') as [Hr _]; unfold result in Hr;
    destruct (_addEventListener h w') as [r w2]; cbn in Hr; subst r end.
  reflexivity.
Qed.

Lemma latching_updateEventListenerName (name : option string) (w : World) :
  latching (_updateEventListenerName h name) w.
Proof.
  split; [eexists; apply _updateEventListenerName_true|].
  unfold _updateEventListenerName, tryCatch, exec.
  unfold bind at 1.
  destruct (_eventOff_frame w) as [Hr He]. unfold result, exec in Hr, He.
  destruct (_eventOff h w) as [r w1]. cbn in Hr, He. subst r.
  unfold bind at 1. unfold when.
  destruct (truthy_str name).
  - unfold bind at 1. unfold modEng at 1.
    match goal with |- context [_addEventListener h ?w'] =>
      destruct (_addEventListener_frame w') as [Hr He'];
      unfold result, exec in Hr, He';
      destruct (_addEventListener h w') as [r w2]; cbn in Hr, He'; subst r end.
    cbn. rewrite He'. cbn. rewrite He.
    repeat split; intros ? Hv; exact Hv.
  - cbn. rewrite He. apply latched_refl.
Qed.

Ltac latch_set :=
  apply latching_modEng; repeat split; intros ? Hv; cbn in *;
  first [exact Hv | congruence].

(** One change notification returns normally and respects the latches. *)
Lemma latching_onConfigChange_callback (config : IConfiguration) (w : World) :
  latching (onConfigChange_callback h config) w.
Proof.
  unfold onConfigChange_callback.
  apply latching_bind; [latch_set|intros _ _].
  apply latching_getEng. apply latching_bind.
  { apply latching_when. intros Hn.
    destruct (_isAutoSync (eng _)) eqn:Hs; [discriminate|]. latch_set. }
  intros _ _. apply latching_getEng. apply latching_bind.
  { apply latching_when. intros Hn.
    destruct (_receiveChanges (eng _)) eqn:Hs; [discriminate|]. latch_set. }
  intros _ _. apply latching_getEng. apply latching_bind.
  { apply latching_when. intros _.
    destruct (truthy_bool _).
    - apply latching_bind; [apply latching_updateEventListenerName|].
      intros; apply latching_ret.
    - apply latching_bind; [apply latching_eventOff|]. intros; latch_set. }
  intros _ _. apply latching_getEng. apply latching_bind.
  { apply latching_when. intros Hn.
    destruct (_cfgUrl (eng _)) eqn:Hs; [discriminate|]. latch_set. }
  intros _ _. apply latching_getEng. apply latching_when. intros _.
  apply latching_bind; [latch_set|intros _ _].
  apply latching_getEng. apply latching_when. intros _.
  apply latching_bind; [apply latching_sendCfgsyncEvents|].
  intros; apply latching_ret.
Qed.

Lemma latching_notifications (cfgs : list IConfiguration) (w : World) :
  latching (notifications h cfgs) w.
Proof.
  revert w. induction cfgs as [|c cfgs IH]; intros w; cbn [notifications].
  - apply latching_ret.
  - apply latching_bind; [apply latching_onConfigChange_callback|].
    intros; apply IH.
Qed.

(** C3.  Over any sequence of host config-change notifications, each of
    which returns normally, a value of [isAutoSync], [receiveChanges] or
    [cfgUrl] that is set before the sequence is the value after it. *)
Theorem latched_fields_never_change (cfgs : list IConfiguration) (w : World) :
  result (notifications h cfgs) w = Ok tt /\
  (forall b, _isAutoSync (eng w) = Some b ->
     _isAutoSync (eng (exec (notifications h cfgs) w)) = Some b) /\
  (forall b, _receiveChanges (eng w) = Some b ->
     _receiveChanges (eng (exec (notifications h cfgs) w)) = Some b) /\
  (forall u, _cfgUrl (eng w) = Some u ->
     _cfgUrl (eng (exec (notifications h cfgs) w)) = Some u).
Proof.
  destruct (latching_notifications cfgs w) as [[[] Hr] (Ha & Hb & Hc)].
  split; [exact Hr|]. split; [exact Ha|]. split; [exact Hb|exact Hc].
Qed.

End Latches.

(** ** SelectiveMerge: [sanitize] *)

Section Sanitize.

Variable rules : NonOverrideCfg.
Variable maxLevel : nat.

Lemma sanitize_JObj (level : nat) (fs : list (string * JsVal)) :
  sanitize rules maxLevel level (JObj fs)
  = JObj (keep rules maxLevel level fs).
Proof.
  cbn [sanitize]. f_equal.
  induction fs as [|[k v] r IH]; [reflexivity|].
  cbn [keep]. rewrite <- IH. destruct (protected rules k); reflexivity.
Qed.

Lemma sanitize_scalar (level : nat) (v : JsVal) :
  (forall fs, v <> JObj fs) -> sanitize rules maxLevel level v = v.
Proof. destruct v; intros Hv; try reflexivity. destruct (Hv fields eq_refl). Qed.

Lemma sub_scalar (level : nat) (v : JsVal) :
  (forall fs, v <> JObj fs) -> sub rules maxLevel level v = v.
Proof. destruct v; intros Hv; try reflexivity. destruct (Hv fields eq_refl). Qed.

Lemma get_path_scalar (k : string) (p : list string) (v : JsVal) :
  (forall fs, v <> JObj fs) -> get_path (k :: p) v = None.
Proof. destruct v; intros Hv; try reflexivity. destruct (Hv fields eq_refl). Qed.

Lemma clean_scalar (d : nat) (v : JsVal) :
  (forall fs, v <> JObj fs) -> clean rules d v = true.
Proof.
  destruct d; [reflexivity|].
  destruct v; intros Hv; try reflexivity. destruct (Hv fields eq_refl).
Qed.

Lemma JsVal_obj_dec (v : JsVal) :
  (exists fs, v = JObj fs) \/ (forall fs, v <> JObj fs).
Proof. destruct v; try (right; discriminate). left; eexists; reflexivity. Qed.

(** Lookup in the fields that are kept. *)
Lemma assoc_keep (level : nat) (k : string) (fs : list (string * JsVal)) :
  assoc k (keep rules maxLevel level fs)
  = if protected rules k then None
    else option_map (sub rules maxLevel level) (assoc k fs).
Proof.
  induction fs as [|[k' v] r IH]; cbn [keep assoc].
  - destruct (protected rules k); reflexivity.
  - destruct (String.eqb_spec k k') as [->|Hne].
    + destruct (protected rules k') eqn:Hp.
      * exact IH.
      * cbn [assoc option_map]. rewrite String.eqb_refl. reflexivity.
    + destruct (protected rules k') eqn:Hp.
      * exact IH.
      * cbn [assoc]. destruct (String.eqb_spec k k'); [contradiction|].
        exact IH.
Qed.

Lemma blocked_nil (d : nat) : blocked rules d [] = false.
Proof. unfold blocked. rewrite firstn_nil. reflexivity. Qed.

Lemma blocked_cons (d : nat) (k : string) (p : list string) :
  blocked rules (S d) (k :: p) = protected rules k || blocked rules d p.
Proof. reflexivity. Qed.

(** What a path finds in the sanitized tree: nothing when it runs through
    a protected key within the filtered levels, and otherwise what it
    finds in the original, sanitized in turn. *)
Lemma get_path_sanitize (p : list string) :
  forall (level : nat) (c : JsVal),
    (level <= maxLevel)%nat ->
    get_path p (sanitize rules maxLevel level c)
    = if blocked rules (S maxLevel - level) p then None
      else option_map (at_depth rules maxLevel level (List.length p))
             (get_path p c).
Proof.
  induction p as [|k p IH]; intros level c Hle.
  - rewrite blocked_nil. cbn [get_path option_map List.length].
    unfold at_depth. rewrite Nat.add_0_r.
    apply Nat.leb_le in Hle. rewrite Hle. reflexivity.
  - destruct (JsVal_obj_dec c) as [[fs ->]|Hc].
    2:{ rewrite (sanitize_scalar level c Hc), (get_path_scalar k p c Hc).
        destruct (blocked _ _ _); reflexivity. }
    rewrite sanitize_JObj. cbn [get_path]. rewrite assoc_keep.
    replace (S maxLevel - level)%nat with (S (maxLevel - level)) by lia.
    rewrite blocked_cons.
    destruct (protected rules k); [reflexivity|]. cbn [orb].
    destruct (assoc k fs) as [v|]; cbn [option_map].
    2:{ destruct (blocked _ _ _); reflexivity. }
    destruct (JsVal_obj_dec v) as [[fs' ->]|Hv].
    + cbn [sub]. destruct (Nat.ltb_spec level maxLevel) as [Hlt|Hge].
      * rewrite (IH (S level) (JObj fs') Hlt).
        replace (S maxLevel - S level)%nat with (maxLevel - level)%nat by lia.
        destruct (blocked _ _ _); [reflexivity|].
        unfold at_depth. cbn [List.length].
        replace (level + S (List.length p))%nat
          with (S level + List.length p)%nat by lia.
        reflexivity.
      * assert (level = maxLevel) by lia. subst level.
        rewrite Nat.sub_diag. unfold blocked at 1. cbn [firstn existsb].
        unfold at_depth. cbn [List.length].
        destruct (Nat.leb_spec (maxLevel + S (List.length p)) maxLevel);
          [lia|].
        destruct (get_path p (JObj fs')); reflexivity.
    + rewrite (sub_scalar level v Hv).
      destruct p as [|k2 p2].
      * rewrite blocked_nil. cbn [get_path option_map]. unfold at_depth.
        destruct (_ <=? _)%nat; [|reflexivity].
        rewrite (sanitize_scalar _ v Hv). reflexivity.
      * rewrite (get_path_scalar k2 p2 v Hv).
        destruct (blocked _ _ _); reflexivity.
Qed.

(** No protected key is left within the filtered levels. *)
Lemma clean_sanitize (d : nat) :
  forall (level : nat) (c : JsVal),
    (level + d = S maxLevel)%nat ->
    clean rules d (sanitize rules maxLevel level c) = true.
Proof.
  induction d as [|d IH]; intros level c Hd; [reflexivity|].
  destruct (JsVal_obj_dec c) as [[fs ->]|Hc].
  2:{ rewrite (sanitize_scalar level c Hc). apply clean_scalar, Hc. }
  rewrite sanitize_JObj. cbn [clean].
  induction fs as [|[k v] r IHr]; [reflexivity|].
  cbn [keep]. destruct (protected rules k) eqn:Hp; [exact IHr|].
  cbn [forallb fst snd]. rewrite Hp, IHr. cbn [negb andb].
  rewrite andb_true_r.
  destruct (JsVal_obj_dec v) as [[fs' ->]|Hv].
  2:{ rewrite (sub_scalar level v Hv). apply clean_scalar, Hv. }
  cbn [sub]. destruct d as [|d']; [reflexivity|].
  destruct (Nat.ltb_spec level maxLevel) as [Hlt|Hge]; [|lia].
  apply IH. lia.
Qed.

(** A tree without protected keys within the filtered levels comes back
    as it is. *)
Lemma sanitize_clean_id (d : nat) :
  forall (level : nat) (c : JsVal),
    (level + d = maxLevel)%nat ->
    clean rules (S d) c = true ->
    sanitize rules maxLevel level c = c.
Proof.
  induction d as [|d IH]; intros level c Hd Hc.
  - destruct (JsVal_obj_dec c) as [[fs ->]|Hs];
      [|apply sanitize_scalar, Hs].
    rewrite sanitize_JObj. f_equal. cbn [clean] in Hc.
    induction fs as [|[k v] r IHr]; [reflexivity|].
    cbn [forallb fst snd] in Hc.
    apply andb_prop in Hc as [Hk Hr]. apply andb_prop in Hk as [Hk _].
    apply negb_true_iff in Hk. cbn [keep]. rewrite Hk, (IHr Hr).
    do 2 f_equal. destruct v; try reflexivity. cbn [sub].
    destruct (Nat.ltb_spec level maxLevel); [lia|reflexivity].
  - destruct (JsVal_obj_dec c) as [[fs ->]|Hs];
      [|apply sanitize_scalar, Hs].
    rewrite sanitize_JObj. f_equal. cbn [clean] in Hc.
    induction fs as [|[k v] r IHr]; [reflexivity|].
    cbn [forallb fst snd] in Hc.
    apply andb_prop in Hc as [Hk Hr]. apply andb_prop in Hk as [Hk Hv].
    apply negb_true_iff in Hk. cbn [keep]. rewrite Hk, (IHr Hr).
    do 2 f_equal. destruct (JsVal_obj_dec v) as [[fs' ->]|Hs];
      [|apply sub_scalar, Hs].
    cbn [sub]. destruct (Nat.ltb_spec level maxLevel); [|lia].
    apply IH; [lia|exact Hv].
Qed.

(** Sanitizing twice is sanitizing once. *)
Lemma sanitize_idempotent (level : nat) (c : JsVal) :
  (level <= maxLevel)%nat ->
  sanitize rules maxLevel level (sanitize rules maxLevel level c)
  = sanitize rules maxLevel level c.
Proof.
  intros Hle. apply (sanitize_clean_id (maxLevel - level)); [lia|].
  apply clean_sanitize. lia.
Qed.

End Sanitize.

(** ** Receiving: [_replaceTartgetByKeys] and the bus handler *)

Section Receive.

Variable h : Host.
Variable helper : JsVal -> NonOverrideCfg -> nat -> nat -> Result JsVal.

(** [_replaceTartgetByKeys] never throws and changes nothing; it answers
    null unless there are rules, the config is truthy and the helper
    returns. *)
Lemma _replaceTartgetByKeys_cases (cfg : JsVal) (w : World) :
  exec (_replaceTartgetByKeys helper cfg) w = w /\
  (_nonOverrideConfigs (eng w) = None \/ truthy cfg = false ->
     result (_replaceTartgetByKeys helper cfg) w = Ok JNull) /\
  (forall rules, _nonOverrideConfigs (eng w) = Some rules ->
     truthy cfg = true ->
     (forall e, helper cfg rules 1%nat 5%nat = Throw e ->
        result (_replaceTartgetByKeys helper cfg) w = Ok JNull) /\
     (forall v, helper cfg rules 1%nat 5%nat = Ok v ->
        result (_replaceTartgetByKeys helper cfg) w = Ok v)).
Proof.
  unfold _replaceTartgetByKeys, exec, result, bind, getEng, tryCatch, lift, ret.
  destruct (_nonOverrideConfigs (eng w)) as [rules|];
    destruct (truthy cfg); cbn;
    try destruct (helper cfg rules 1%nat 5%nat) eqn:Hh; cbn;
    (split; [reflexivity|]); (split; [intros [?|?]; congruence|]);
    intros r' Hr Ht; try discriminate;
    injection Hr as <-; split; intros x Hx; congruence.
Qed.

Lemma _replaceTartgetByKeys_total (cfg : JsVal) (w : World) :
  exists v, _replaceTartgetByKeys helper cfg w = (Ok v, w).
Proof.
  unfold _replaceTartgetByKeys, bind, getEng, tryCatch, lift, ret.
  destruct (_nonOverrideConfigs (eng w)) as [rules|]; [|eexists; reflexivity].
  destruct (truthy cfg); [|eexists; reflexivity].
  destruct (helper cfg rules 1%nat 5%nat); eexists; reflexivity.
Qed.

(** C5, as the code has it.  With a receive callback configured and a
    truthy [event.detail], the callback is called with [event.detail]
    and nothing else happens.  Otherwise [event.detail.cfg] is taken: when
    it is falsy nothing happens; when it is truthy it goes through
    [_replaceTartgetByKeys]; when the outcome is not truthy nothing
    happens, and when it is, the call the handler makes is the update of
    the host configuration with that outcome, and the handler returns or
    throws as the update does. *)
Theorem onCfgSyncEvent_delegates_detail_or_merges (event : JsVal) (w : World) :
  let detail := js_and event (get_field "detail" event) in
  let cfg := js_and detail (get_field "cfg" detail) in
  (forall f, _onCfgChangeReceive (eng w) = Some f -> truthy detail = true ->
     onCfgSyncEvent h helper event w
     = (f detail, traced w (ECfgChangeReceive detail))) /\
  (_onCfgChangeReceive (eng w) = None \/ truthy detail = false ->
     (truthy cfg = false -> onCfgSyncEvent h helper event w = (Ok tt, w)) /\
     (truthy cfg = true ->
      forall newCfg,
        result (_replaceTartgetByKeys helper cfg) w = Ok newCfg ->
        (truthy newCfg = false ->
           onCfgSyncEvent h helper event w = (Ok tt, w)) /\
        (truthy newCfg = true ->
           firstCall w (exec (onCfgSyncEvent h helper event) w)
             = Some (EUpdateCfg newCfg) /\
           result (onCfgSyncEvent h helper event) w = updateCfg h newCfg))).
Proof.
  intros detail cfg. split.
  - intros f Hf Hd. unfold onCfgSyncEvent, bind, getEng. cbn.
    fold detail. rewrite Hf, Hd. reflexivity.
  - intros Hno.
    assert (Hrun : onCfgSyncEvent h helper event w
              = bind (if truthy cfg then _replaceTartgetByKeys helper cfg
                      else ret cfg)
                  (fun newCfg =>
                     if truthy newCfg then
                       bind (emit (EUpdateCfg newCfg))
                         (fun _ => lift (updateCfg h newCfg))
                     else ret tt) w).
    { unfold onCfgSyncEvent. unfold bind at 1. unfold getEng. cbn.
      fold detail. fold cfg.
      destruct Hno as [Hn|Hd].
      - rewrite Hn. destruct (truthy detail); reflexivity.
      - rewrite Hd. destruct (_onCfgChangeReceive (eng w)); reflexivity. }
    unfold exec, result. rewrite Hrun. split.
    + intros Hc. rewrite Hc. unfold bind, ret. rewrite Hc. reflexivity.
    + intros Hc newCfg Hnew.
      destruct (_replaceTartgetByKeys_total cfg w) as [v Hv].
      rewrite Hv in Hnew. cbn in Hnew.
      injection Hnew as ->.
      assert (Hstep : forall k : JsVal -> M unit,
                bind (if truthy cfg then _replaceTartgetByKeys helper cfg
                      else ret cfg) k w
                = k newCfg w).
      { intros k. rewrite Hc. unfold bind. rewrite Hv. reflexivity. }
      rewrite Hstep. split; intros Ht; rewrite Ht; [reflexivity|].
      unfold bind, emit, lift. cbn [fst snd].
      split; [apply firstCall_traced|reflexivity].
Qed.

End Receive.

(** C5, as the specification states it, fails on every event when a
    receive callback is configured: the callback is handed
    [event.detail], which is not the event. *)
Lemma onCfgSyncEvent_passes_detail_not_event :
  _onCfgChangeReceive (eng callbackWorld) = Some acceptAll /\
  trace (exec (onCfgSyncEvent browser replaceByNonOverrideCfg peerEvent)
           callbackWorld)
  = trace callbackWorld ++ [ECfgChangeReceive peerDetail] /\
  peerDetail <> peerEvent.
Proof.
  split; [reflexivity|]. split; [vm_compute; reflexivity|].
  unfold peerDetail, peerEvent. discriminate.
Qed.

(** C5 on a concrete page: the peer event, with a receive callback. *)
Lemma onCfgSyncEvent_delegates_witness :
  onCfgSyncEvent browser replaceByNonOverrideCfg peerEvent callbackWorld
  = (Ok tt, traced callbackWorld (ECfgChangeReceive peerDetail)).
Proof.
  refine (proj1
    (onCfgSyncEvent_delegates_detail_or_merges browser replaceByNonOverrideCfg
       peerEvent callbackWorld) acceptAll _ _); reflexivity.
Defined.

(** The scenario of the specification: the event
    [{cfg:{instrumentationKey:"x", sampleRate:50}}] with the default
    protected set reaches the host as [{sampleRate:50}]. *)
Example dispatchEvent_updates_host :
  firstCall receivingWorld
    (exec (dispatchEvent browser replaceByNonOverrideCfg
             (Some "cfgsync") peerEvent) receivingWorld)
  = Some (EUpdateCfg (JObj [("sampleRate", JNum 50)])).
Proof. vm_compute. reflexivity. Qed.

(** C7.  [_replaceTartgetByKeys], which runs [sanitize] with level 1 and
    maxLevel 5 under the plugin's rules, changes no state and returns
    null when there are no rules, when the config is falsy, and when the
    helper throws.  Otherwise its result has no protected key in its
    first five levels; a path finds nothing in it when one of its first
    five keys is protected, and otherwise finds what it finds in the
    config, sanitized in turn down to level five and verbatim below; and
    a config without protected keys in its first five levels is returned
    as it is. *)
Theorem _replaceTartgetByKeys_sanitizes (c : JsVal) (w : World) :
  exec (_replaceTartgetByKeys replaceByNonOverrideCfg c) w = w /\
  (_nonOverrideConfigs (eng w) = None \/ truthy c = false ->
     result (_replaceTartgetByKeys replaceByNonOverrideCfg c) w = Ok JNull) /\
  (forall helper rules e,
     _nonOverrideConfigs (eng w) = Some rules -> truthy c = true ->
     helper c rules 1%nat 5%nat = Throw e ->
     result (_replaceTartgetByKeys helper c) w = Ok JNull) /\
  (forall rules,
     _nonOverrideConfigs (eng w) = Some rules -> truthy c = true ->
     exists out,
       result (_replaceTartgetByKeys replaceByNonOverrideCfg c) w = Ok out /\
       clean rules 5 out = true /\
       (forall p,
          get_path p out
          = if blocked rules 5 p then None
            else option_map (at_depth rules 5 1 (List.length p))
                   (get_path p c)) /\
       (clean rules 5 c = true -> out = c)).
Proof.
  destruct (_replaceTartgetByKeys_cases replaceByNonOverrideCfg c w)
    as (Hw & Hnull & Hrun).
  split; [exact Hw|]. split; [exact Hnull|]. split.
  - intros helper rules e Hr Ht He.
    destruct (_replaceTartgetByKeys_cases helper c w) as (_ & _ & Hh).
    exact (proj1 (Hh rules Hr Ht) e He).
  - intros rules Hr Ht. exists (sanitize rules 5 1 c).
    split; [|split; [|split]].
    + apply (proj2 (Hrun rules Hr Ht)).
      unfold replaceByNonOverrideCfg, sanitize_or_null. rewrite Ht.
      reflexivity.
    + apply clean_sanitize. reflexivity.
    + intros p. apply (get_path_sanitize rules 5 p 1 c). lia.
    + intros Hc. apply (sanitize_clean_id rules 5 4 1 c); [reflexivity|].
      exact Hc.
Qed.

(** C7 on a concrete page: the peer's config under the default rules. *)
Lemma _replaceTartgetByKeys_sanitizes_witness :
  exists out,
    result (_replaceTartgetByKeys replaceByNonOverrideCfg
              (get_field "cfg" peerDetail)) receivingWorld = Ok out /\
    clean defaultNonOverrideCfg 5 out = true /\
    (forall p,
       get_path p out
       = if blocked defaultNonOverrideCfg 5 p then None
         else option_map (at_depth defaultNonOverrideCfg 5 1 (List.length p))
                (get_path p (get_field "cfg" peerDetail))) /\
    (clean defaultNonOverrideCfg 5 (get_field "cfg" peerDetail) = true ->
     out = get_field "cfg" peerDetail).
Proof.
  refine (proj2 (proj2 (proj2
    (_replaceTartgetByKeys_sanitizes (get_field "cfg" peerDetail)
       receivingWorld))) defaultNonOverrideCfg _ _); reflexivity.
Defined.

(** C3 on a concrete page: one that polls a remote document is told to stop
    auto-sync, stop receiving and poll another address; none of the
    three takes effect. *)
Lemma latched_fields_witness :
  _isAutoSync (eng (exec (notifications browser [contraryConfig]) pollingWorld))
    = Some true /\
  _receiveChanges
    (eng (exec (notifications browser [contraryConfig]) pollingWorld))
    = Some true /\
  _cfgUrl (eng (exec (notifications browser [contraryConfig]) pollingWorld))
    = Some "https://example/cfg.json".
Proof.
  pose proof (latched_fields_never_change browser [contraryConfig]
                pollingWorld) as (_ & Ha & Hb & Hc).
  split; [apply Ha; vm_compute; reflexivity|].
  split; [apply Hb|apply Hc]; vm_compute; reflexivity.
Defined.

(** ** Renaming the listener: [updateEventListenerName] *)

Section Rename.

Variable h : Host.

(** C8, as the code has it.  [updateEventListenerName(name)] always
    returns true.  Where there is a global object it drops every listener
    under the plugin's namespace.  When [name] is truthy it becomes the
    stored event name, and a listener is registered under it only if
    receive mode is on; when [name] is missing or empty the stored name
    stays and nothing is registered. *)
Theorem updateEventListenerName_resubscribes_when_receiving
    (name : option string) (w : World) :
  result (updateEventListenerName h name) w = Ok true /\
  _evtName (eng (exec (updateEventListenerName h name) w))
    = (if truthy_str name then name else _evtName (eng w)) /\
  (getGlobal h = true ->
   bus (exec (updateEventListenerName h name) w)
   = others (_evtNamespace (eng w)) (bus w)
     ++ (if truthy_str name && truthy_bool (_receiveChanges (eng w))
         then [{| lName := name; lNs := _evtNamespace (eng w);
                  lSelf := true |}]
         else [])) /\
  (getGlobal h = false ->
   bus (exec (updateEventListenerName h name) w) = bus w).
Proof.
  split; [apply _updateEventListenerName_true|].
  unfold updateEventListenerName, _updateEventListenerName, _eventOff,
    _addEventListener, exec, tryCatch, bind, getEng, when, eventOff, eventOn,
    mod_bus, modEng, ret, others.
  destruct (getGlobal h), (truthy_str name); cbn;
    destruct (_receiveChanges (eng w)) as [[|]|]; cbn;
    repeat split; intros; try discriminate; try reflexivity;
    rewrite ?app_nil_r; reflexivity.
Qed.

End Rename.

(** C8, as the specification states it, fails in broadcast-only mode: the
    name is stored, the call returns true, and no listener is registered
    under the new name. *)
Lemma updateEventListenerName_silent_when_not_receiving :
  _receiveChanges (eng syncedWorld) = Some false /\
  result (updateEventListenerName browser (Some "renamed")) syncedWorld
    = Ok true /\
  _evtName (eng (exec (updateEventListenerName browser (Some "renamed"))
                   syncedWorld)) = Some "renamed" /\
  bus (exec (updateEventListenerName browser (Some "renamed")) syncedWorld)
    = [].
Proof. vm_compute. repeat split; reflexivity. Qed.

(** C8 on a concrete page, in receive mode. *)
Lemma updateEventListenerName_witness :
  bus (exec (updateEventListenerName browser (Some "renamed")) receivingWorld)
  = others (_evtNamespace (eng receivingWorld)) (bus receivingWorld)
    ++ (if truthy_str (Some "renamed")
           && truthy_bool (_receiveChanges (eng receivingWorld))
        then [{| lName := Some "renamed";
                 lNs := _evtNamespace (eng receivingWorld);
                 lSelf := true |}]
        else []).
Proof.
  refine (proj1 (proj2 (proj2
    (updateEventListenerName_resubscribes_when_receiving browser
       (Some "renamed") receivingWorld))) _).
  reflexivity.
Defined.

Example updateEventListenerName_receiving :
  bus (exec (updateEventListenerName browser (Some "renamed")) receivingWorld)
  = [{| lName := Some "renamed"; lNs := Some 0%nat; lSelf := true |}].
Proof. vm_compute. reflexivity. Qed.

(** ** Teardown *)

Section Teardown.

Variable h : Host.
Variable helper : JsVal -> NonOverrideCfg -> nat -> nat -> Result JsVal.

(** What [_doTeardown] leaves behind, piece by piece. *)
Lemma _doTeardown_run (w : World) :
  result (_doTeardown h) w = Ok tt /\
  eng (exec (_doTeardown h) w) = cleared (eng w) /\
  bus (exec (_doTeardown h) w)
    = (if getGlobal h then others (_evtNamespace (eng w)) (bus w)
       else bus w) /\
  timers (exec (_doTeardown h) w)
    = match _timeoutHandle (eng w) with
      | Some id => List.filter (fun t => negb (Nat.eqb t id)) (timers w)
      | None => timers w
      end /\
  inflight (exec (_doTeardown h) w) = inflight w /\
  trace (exec (_doTeardown h) w) = trace w.
Proof.
  unfold _doTeardown, _eventOff, _clearScheduledTimer, _initDefaults, exec,
    result, tryCatch, bind, getEng, when, eventOff, cancel, mod_bus,
    mod_timers, modEng, ret, others, cleared.
  destruct (getGlobal h); cbn;
    destruct (_timeoutHandle (eng w)); cbn; repeat split; reflexivity.
Qed.

Lemma filter_all_equal (id : nat) (l : list nat) :
  (forall t, In t l -> t = id) ->
  List.filter (fun t => negb (Nat.eqb t id)) l = [].
Proof.
  induction l as [|t l IH]; intros Hall; [reflexivity|].
  cbn [List.filter]. rewrite (Hall t (or_introl eq_refl)), Nat.eqb_refl.
  cbn. apply IH. intros t' Ht'. apply Hall. right. exact Ht'.
Qed.

Lemma opt_nat_eqb_eq (a b : option nat) : a = b -> opt_nat_eqb a b = true.
Proof. intros ->. destruct b; [apply Nat.eqb_refl|reflexivity]. Qed.

(** After teardown the plugin is quiet. *)
Lemma _doTeardown_quiet (w : World) :
  running h w -> quiet (exec (_doTeardown h) w).
Proof.
  intros [Hown Htim].
  destruct (_doTeardown_run w) as (_ & He & Hb & Ht & _).
  unfold quiet. rewrite He, Hb, Ht. split; [|split; [|reflexivity]].
  - intros l Hl. destruct (lSelf l) eqn:Hs; [|reflexivity]. exfalso.
    destruct (getGlobal h) eqn:Hg.
    + unfold others in Hl. apply filter_In in Hl as [Hl Hns].
      destruct (Hown l Hl Hs) as [_ Heq].
      rewrite (opt_nat_eqb_eq _ _ Heq) in Hns. cbn in Hns. discriminate.
    + destruct (Hown l Hl Hs) as [Hg' _]. congruence.
  - destruct (_timeoutHandle (eng w)) as [id|] eqn:Hh.
    + apply filter_all_equal. intros t Ht'.
      specialize (Htim t Ht'). congruence.
    + destruct (timers w) as [|t r] eqn:Htw; [reflexivity|].
      unfold one_timer in Htim. rewrite Htw in Htim.
      specialize (Htim t (or_introl eq_refl)). congruence.
Qed.

(** With none of its listeners on the bus, no event reaches the
    plugin. *)
Lemma runListeners_foreign (ls : list Listener) (name : option string)
    (event : JsVal) (w : World) :
  (forall l, In l ls -> lSelf l = false) ->
  runListeners h helper ls name event w = (Ok tt, w).
Proof.
  induction ls as [|l r IH]; intros Hall; [reflexivity|].
  cbn [runListeners]. rewrite (Hall l (or_introl eq_refl)). cbn.
  apply IH. intros l' Hl'. apply Hall. right. exact Hl'.
Qed.

Lemma dispatchEvent_quiet (name : option string) (event : JsVal) (w : World) :
  quiet w -> dispatchEvent h helper name event w = (Ok tt, w).
Proof.
  intros (Hb & _). unfold dispatchEvent. apply runListeners_foreign, Hb.
Qed.

Lemma fireTimer_quiet (id : nat) (w : World) :
  quiet w -> fireTimer h id w = (Ok tt, w).
Proof. intros (_ & Ht & _). unfold fireTimer. rewrite Ht. reflexivity. Qed.

(** A completion the callback accepts goes to [_setCfg]. *)
Lemma _onFetchComplete_run (w : World) (status : Z) (text : string)
    (isAutoSync : option bool) (parse : string -> Result JsVal) (cfg : JsVal) :
  200 <= status < 400 -> text <> "" ->
  getJSON h = Some parse -> parse text = Ok cfg -> truthy cfg = true ->
  _onFetchComplete h status (Some text) isAutoSync w
  = (Ok tt, exec (_setCfg h cfg isAutoSync) w).
Proof.
  intros [Hlo Hhi] Hne Hj Hp Ht. unfold _onFetchComplete.
  assert (Hs : truthy_str (Some text) = true).
  { cbn. destruct (String.eqb_spec text ""); [contradiction|reflexivity]. }
  apply Z.leb_le in Hlo. apply Z.ltb_lt in Hhi. rewrite Hlo, Hhi, Hs. cbn.
  unfold tryCatch, bind, lift. rewrite Hj, Hp, Ht.
  destruct (_setCfg_total h w cfg isAutoSync) as [b Hb].
  unfold result, exec in *.
  destruct (_setCfg h cfg isAutoSync w) as [r w']. cbn in *. subst r.
  reflexivity.
Qed.

(** C1, as the code has it.  Teardown of a running plugin returns
    normally with the closure cleared, no timer pending and no listener
    of the plugin on the bus; from then on a timer that fires and an
    event the bus dispatches change nothing.  Teardown does not touch the
    outstanding requests: when the response of one arrives afterwards
    with a status in [200,400) and a body that parses to a truthy
    document, that document becomes the snapshot. *)
Theorem teardown_stops_timer_and_listener_only (w : World) :
  running h w ->
  result (_doTeardown h) w = Ok tt /\
  eng (exec (_doTeardown h) w) = cleared (eng w) /\
  timers (exec (_doTeardown h) w) = [] /\
  (forall l, In l (bus (exec (_doTeardown h) w)) -> lSelf l = false) /\
  (forall id,
     fireTimer h id (exec (_doTeardown h) w)
     = (Ok tt, exec (_doTeardown h) w)) /\
  (forall name event,
     dispatchEvent h helper name event (exec (_doTeardown h) w)
     = (Ok tt, exec (_doTeardown h) w)) /\
  inflight (exec (_doTeardown h) w) = inflight w /\
  (forall p status text parse cfg,
     existsb (pending_eqb p) (inflight w) = true ->
     200 <= status < 400 -> text <> "" ->
     getJSON h = Some parse -> parse text = Ok cfg -> truthy cfg = true ->
     _mainConfig
       (eng (exec (settleFetch h p
                     (FetchResolved true status (TextResolved text)))
               (exec (_doTeardown h) w))) = cfg).
Proof.
  intros Hrun. pose proof (_doTeardown_quiet w Hrun) as Hq.
  destruct (_doTeardown_run w) as (Hr & He & _ & _ & Hi & _).
  split; [exact Hr|]. split; [exact He|].
  split; [exact (proj1 (proj2 Hq))|]. split; [exact (proj1 Hq)|].
  split; [intros id; apply fireTimer_quiet, Hq|].
  split; [intros name event; apply dispatchEvent_quiet, Hq|].
  split; [exact Hi|].
  intros p status text parse cfg Hp Hst Hne Hj Hparse Ht.
  unfold settleFetch, exec at 1. rewrite Hi, Hp.
  unfold bind at 1. unfold mod_inflight at 1.
  unfold _fetchSender_settled, _doOnComplete, tryCatch.
  rewrite (_onFetchComplete_run _ status text (pAuto p) parse cfg
             Hst Hne Hj Hparse Ht).
  cbn [snd]. apply _setCfg_stores. exact Ht.
Qed.

End Teardown.

(** C1, as the specification states it, fails for a response in flight:
    the page polls a remote document, is torn down while the first
    request is out, and the response then arrives.  The torn-down plugin
    takes the document as its snapshot and broadcasts it. *)
Lemma teardown_keeps_inflight_response_alive :
  inflight pollingWorld = [firstRequest] /\
  _mainConfig (eng tornWorld) = JNull /\
  _mainConfig (eng (exec (settleFetch browser firstRequest goodResponse)
                      tornWorld))
    = JObj [("sampleRate", JNum 10)] /\
  trace (exec (settleFetch browser firstRequest goodResponse) tornWorld)
    = trace tornWorld
      ++ [ESendCustomEvent None (JObj [("sampleRate", JNum 10)]) JUndef] /\
  exec (settleFetch browser firstRequest goodResponse) tornWorld <> tornWorld.
Proof.
  split; [vm_compute; reflexivity|]. split; [vm_compute; reflexivity|].
  split; [vm_compute; reflexivity|]. split; [vm_compute; reflexivity|].
  intros Heq. apply (f_equal (fun w => _mainConfig (eng w))) in Heq.
  vm_compute in Heq. discriminate Heq.
Qed.

(** ** The invariants hold in every world a plugin can reach *)

Section Invariants.

Variable h : Host.
Variable helper : JsVal -> NonOverrideCfg -> nat -> nat -> Result JsVal.

Lemma preserves_ret {A} (I : World -> Prop) (a : A) : preserves I (ret a).
Proof. intros w Hw. exact Hw. Qed.

Lemma preserves_throw {A} (I : World -> Prop) (e : Exn) :
  preserves I (@throw A e).
Proof. intros w Hw. exact Hw. Qed.

Lemma preserves_lift {A} (I : World -> Prop) (r : Result A) :
  preserves I (lift r).
Proof. intros w Hw. exact Hw. Qed.

Lemma preserves_bind {A B} (I : World -> Prop) (m : M A) (k : A -> M B) :
  preserves I m -> (forall a, preserves I (k a)) -> preserves I (bind m k).
Proof.
  intros Hm Hk w Hw. specialize (Hm w Hw). unfold exec, bind in *.
  destruct (m w) as [[a|e] w1]; cbn in *; [apply Hk|]; exact Hm.
Qed.

Lemma preserves_tryCatch {A} (I : World -> Prop) (body rest : M A) :
  preserves I body -> preserves I rest -> preserves I (tryCatch body rest).
Proof.
  intros Hb Hr w Hw. specialize (Hb w Hw). unfold exec, tryCatch in *.
  destruct (body w) as [[a|e] w1]; cbn in *; [|apply Hr]; exact Hb.
Qed.

Lemma preserves_getEng {A} (I : World -> Prop) (k : State -> M A) :
  (forall s, preserves I (k s)) -> preserves I (bind getEng k).
Proof. intros Hk w Hw. exact (Hk (eng w) w Hw). Qed.

Lemma preserves_when (I : World -> Prop) (b : bool) (m : M unit) :
  preserves I m -> preserves I (when b m).
Proof. destruct b; [trivial|intros _; apply preserves_ret]. Qed.

(** [running] looks at the bus, the timers, the namespace and the
    handle, and at nothing else. *)
Lemma running_same (w w' : World) :
  bus w' = bus w -> timers w' = timers w ->
  _evtNamespace (eng w') = _evtNamespace (eng w) ->
  _timeoutHandle (eng w') = _timeoutHandle (eng w) ->
  running h w -> running h w'.
Proof.
  intros Hb Ht Hn Hh [Hown Htim]. split.
  - intros l Hl Hs. rewrite Hb in Hl. rewrite Hn. exact (Hown l Hl Hs).
  - intros id Hid. rewrite Ht in Hid. rewrite Hh. exact (Htim id Hid).
Qed.

Lemma running_modEng (f : State -> State) :
  (forall s, _evtNamespace (f s) = _evtNamespace s /\
             _timeoutHandle (f s) = _timeoutHandle s) ->
  preserves (running h) (modEng f).
Proof.
  intros Hf w Hw. destruct (Hf (eng w)) as [Hn Hh].
  apply (running_same w); try reflexivity; assumption.
Qed.

Lemma running_emit (e : Effect) : preserves (running h) (emit e).
Proof. intros w Hw. apply (running_same w); try reflexivity; assumption. Qed.

Lemma running_mod_inflight (f : list Pending -> list Pending) :
  preserves (running h) (mod_inflight f).
Proof. intros w Hw. apply (running_same w); try reflexivity; assumption. Qed.

Lemma running_eventOff : preserves (running h) (_eventOff h).
Proof.
  intros w [Hown Htim]. unfold _eventOff, exec, tryCatch, bind, getEng, when.
  destruct (getGlobal h); [|split; assumption]. split.
  - intros l Hl Hs. cbn in Hl. apply filter_In in Hl as [Hl _].
    exact (Hown l Hl Hs).
  - exact Htim.
Qed.

Lemma running_addEventListener : preserves (running h) (_addEventListener h).
Proof.
  intros w [Hown Htim].
  unfold _addEventListener, exec, tryCatch, bind, getEng, when.
  destruct (truthy_bool _); [|split; assumption].
  destruct (getGlobal h) eqn:Hg; [|split; assumption]. split.
  - intros l Hl Hs. cbn in Hl. apply in_app_or in Hl as [Hl|[<-|[]]].
    + destruct (Hown l Hl Hs) as [_ Hn]. split; [exact Hg|exact Hn].
    + split; [exact Hg|reflexivity].
  - exact Htim.
Qed.

Lemma running_sendCfgsyncEvents (d : JsVal) :
  preserves (running h) (_sendCfgsyncEvents h d).
Proof.
  intros w Hw. destruct (_sendCfgsyncEvents_frame h w d) as (b & e & Heq).
  unfold exec. rewrite Heq.
  apply (running_same w); try reflexivity; assumption.
Qed.

Lemma preserves_replaceTartgetByKeys (I : World -> Prop) (cfg : JsVal) :
  preserves I (_replaceTartgetByKeys helper cfg).
Proof.
  intros w Hw. destruct (_replaceTartgetByKeys_total helper cfg w) as [v Hv].
  unfold exec. rewrite Hv. exact Hw.
Qed.

Create HintDb running discriminated.

#[local] Hint Resolve preserves_replaceTartgetByKeys preserves_ret
  preserves_throw preserves_lift running_emit running_mod_inflight
  running_eventOff running_addEventListener running_sendCfgsyncEvents
  : running.

#[local] Hint Extern 1 (preserves _ (modEng _)) =>
  apply running_modEng; intros ?; split; reflexivity : running.

(** Takes a computation apart along its binds, branches and handlers,
    closing every piece that is known to keep the invariant. *)
Ltac keep_running :=
  repeat first
    [ solve [auto 1 with running nocore]
    | match goal with
      | |- preserves _ (when _ _) => apply preserves_when
      | |- preserves _ (tryCatch _ _) => apply preserves_tryCatch
      | |- preserves _ (bind getEng _) => apply preserves_getEng; intros ?
      | |- preserves _ (bind _ _) => apply preserves_bind; [|intros ?]
      | |- preserves _ (if ?b then _ else _) => destruct b
      | |- preserves _ (match ?x with Some _ => _ | None => _ end) =>
          destruct x
      | |- preserves _ (match ?x with Ok _ => _ | Throw _ => _ end) =>
          destruct x
      end ].

Lemma running_updateEventListenerName (name : option string) :
  preserves (running h) (_updateEventListenerName h name).
Proof. unfold _updateEventListenerName. keep_running. Qed.

#[local] Hint Resolve running_updateEventListenerName : running.

Lemma running_onConfigChange_callback (config : IConfiguration) :
  preserves (running h) (onConfigChange_callback h config).
Proof.
  unfold onConfigChange_callback. keep_running.
Qed.

#[local] Hint Resolve running_onConfigChange_callback : running.

Lemma running_setCfg (config : JsVal) (isAutoSync : option bool) :
  preserves (running h) (_setCfg h config isAutoSync).
Proof. unfold _setCfg. keep_running. Qed.

#[local] Hint Resolve running_setCfg : running.

Lemma running_onFetchComplete (status : Z) (response : option string)
    (isAutoSync : option bool) :
  preserves (running h) (_onFetchComplete h status response isAutoSync).
Proof.
  unfold _onFetchComplete. keep_running.
Qed.

#[local] Hint Resolve running_onFetchComplete : running.

(** What every call of [_onFetchComplete] keeps, a run of them keeps. *)
Lemma preserves_oncomplete_calls (I : World -> Prop)
    (cs : list (Z * option string * option bool)) :
  (forall status response isAutoSync,
     preserves I (_onFetchComplete h status response isAutoSync)) ->
  preserves I (oncomplete_calls h cs).
Proof.
  intros Hone. induction cs as [|[[status response] isAutoSync] r IH];
    cbn [oncomplete_calls]; [apply preserves_ret|].
  apply preserves_bind; [apply Hone|intros _; exact IH].
Qed.

Lemma running_oncomplete_calls (cs : list (Z * option string * option bool)) :
  preserves (running h) (oncomplete_calls h cs).
Proof. apply preserves_oncomplete_calls, running_onFetchComplete. Qed.

#[local] Hint Resolve running_oncomplete_calls : running.

Lemma running_call_fetchFn (f : option SendGetFunction) (url : option string)
    (isAutoSync : option bool) :
  preserves (running h) (call_fetchFn h f url isAutoSync).
Proof.
  unfold call_fetchFn. destruct f as [[| |g]|];
    unfold _fetchSender, _xhrSender; keep_running.
Qed.

#[local] Hint Resolve running_call_fetchFn : running.

(** A new timer is armed only when none is pending. *)
Lemma running_setupTimer : preserves (running h) _setupTimer.
Proof.
  intros w [Hown Htim]. unfold _setupTimer, exec, bind, getEng, when.
  destruct (_timeoutHandle (eng w)) as [id|] eqn:Hh; cbn;
    [split; assumption|].
  destruct (truthy_num _); cbn; [|split; assumption]. split.
  - exact Hown.
  - intros id Hid. cbn in Hid. apply in_app_or in Hid as [Hid|[<-|[]]].
    + specialize (Htim id Hid). congruence.
    + reflexivity.
Qed.

#[local] Hint Resolve running_setupTimer : running.

(** The timer that fires is no longer pending when its callback clears
    the handle. *)
Lemma running_fireTimer (id : nat) : preserves (running h) (fireTimer h id).
Proof.
  intros w Hw. unfold fireTimer, exec.
  destruct (existsb (Nat.eqb id) (timers w)) eqn:Hex; [|exact Hw].
  apply existsb_exists in Hex as (t & Ht & Heq).
  apply Nat.eqb_eq in Heq. subst t.
  assert (Hfired : running h
            (exec (bind (cancel id) (fun _ => modEng (set_timeoutHandle None)))
               w)).
  { destruct Hw as [Hown Htim]. split; [exact Hown|].
    intros t Hin. cbn in Hin. apply filter_In in Hin as [Hin Hne].
    pose proof (Htim t Hin) as H1. pose proof (Htim id Ht) as H2.
    assert (t = id) by congruence. subst t.
    rewrite Nat.eqb_refl in Hne. discriminate. }
  assert (Hrest : preserves (running h)
            (bind getEng (fun s =>
               bind (call_fetchFn h (_fetchFn s) (_cfgUrl s) (_isAutoSync s))
                 (fun _ => _setupTimer)))).
  { apply preserves_getEng. intros s. apply preserves_bind.
    - apply running_call_fetchFn.
    - intros _. apply running_setupTimer. }
  exact (Hrest _ Hfired).
Qed.

Lemma running_onCfgSyncEvent (event : JsVal) :
  preserves (running h) (onCfgSyncEvent h helper event).
Proof.
  unfold onCfgSyncEvent. keep_running.
Qed.

Lemma running_dispatchEvent (name : option string) (event : JsVal) :
  preserves (running h) (dispatchEvent h helper name event).
Proof.
  assert (Hls : forall ls,
            preserves (running h) (runListeners h helper ls name event)).
  { induction ls as [|l r IH]; cbn [runListeners]; [apply preserves_ret|].
    apply preserves_bind; [|intros _; exact IH].
    apply preserves_when, preserves_tryCatch;
      [apply running_onCfgSyncEvent|apply preserves_ret]. }
  intros w Hw. exact (Hls (bus w) w Hw).
Qed.

Lemma running_settleFetch (p : Pending) (outcome : FetchOutcome) :
  preserves (running h) (settleFetch h p outcome).
Proof.
  intros w Hw. unfold settleFetch, exec.
  destruct (existsb _ _); [|exact Hw].
  assert (Hm : preserves (running h)
            (bind (mod_inflight (remove_pending p))
               (fun _ => _fetchSender_settled (_onFetchComplete h) (pAuto p)
                           outcome))).
  { unfold _fetchSender_settled, _doOnComplete.
    destruct outcome as [|[|] status res]; keep_running. }
  exact (Hm w Hw).
Qed.

Lemma running_settleXhr (p : Pending) (status : Z) (text : option string) :
  preserves (running h) (settleXhr h p status text).
Proof.
  intros w Hw. unfold settleXhr, exec.
  destruct (existsb _ _); [|exact Hw].
  assert (Hm : preserves (running h)
            (bind (mod_inflight (remove_pending p))
               (fun _ => _xhrSender_onreadystatechange (_onFetchComplete h)
                           (pAuto p) XHR_DONE status text))).
  { unfold _xhrSender_onreadystatechange, _doOnComplete. cbn [Nat.eqb XHR_DONE].
    keep_running. }
  exact (Hm w Hw).
Qed.

(** Every action keeps a running plugin running. *)
Lemma running_act (a : Action) : preserves (running h) (act h helper a).
Proof.
  destruct a; cbn [act]; unfold discard, setCfg, sync, updateEventListenerName.
  - keep_running.
  - keep_running.
  - keep_running.
  - apply running_onConfigChange_callback.
  - apply running_fireTimer.
  - apply running_dispatchEvent.
  - apply running_settleFetch.
  - apply running_settleXhr.
  - apply running_onFetchComplete.
Qed.

Lemma running_after (acts : list Action) (w : World) :
  running h w -> running h (after h helper acts w).
Proof.
  revert w. induction acts as [|a r IH]; intros w Hw; [exact Hw|].
  cbn [after]. apply IH, running_act, Hw.
Qed.

(** [initialize] turns a quiet world into a running one. *)
Lemma initialize_running (config : IConfiguration) (w : World) :
  quiet w -> running h (exec (initialize h config) w).
Proof.
  intros (Hb & Ht & Hh).
  assert (Hns : running h
            (exec (bind createUniqueNamespace
                     (fun ns => modEng (set_evtNamespace (Some ns)))) w)).
  { split.
    - intros l Hl Hs. cbn in Hl. rewrite (Hb l Hl) in Hs. discriminate.
    - intros id Hid. cbn in Hid. rewrite Ht in Hid. destruct Hid. }
  assert (Hrest : preserves (running h) (_populateDefaults h config)).
  { unfold _populateDefaults, _getFetchFnInterface. keep_running. }
  exact (Hrest _ Hns).
Qed.

Lemma world0_quiet : quiet world0.
Proof. split; [intros l []|split; reflexivity]. Qed.

(** From the constructor on: after [initialize] and any run of actions
    the plugin is running. *)
Lemma reachable_running (config : IConfiguration) (acts : list Action) :
  running h (after h helper acts (exec (initialize h config) world0)).
Proof.
  apply running_after, initialize_running, world0_quiet.
Qed.

End Invariants.

(** C1 on a concrete page: the polling page, which is running,
    is torn down while its first request is out. *)
Lemma teardown_witness :
  result (_doTeardown browser) pollingWorld = Ok tt /\
  timers (exec (_doTeardown browser) pollingWorld) = [] /\
  (forall id,
     fireTimer browser id (exec (_doTeardown browser) pollingWorld)
     = (Ok tt, exec (_doTeardown browser) pollingWorld)) /\
  _mainConfig
    (eng (exec (settleFetch browser firstRequest
                  (FetchResolved true 200
                     (TextResolved (json "{'sampleRate':10}"))))
            (exec (_doTeardown browser) pollingWorld)))
  = JObj [("sampleRate", JNum 10)].
Proof.
  assert (Hrun : running browser pollingWorld).
  { unfold pollingWorld. apply initialize_running, world0_quiet. }
  pose proof (teardown_stops_timer_and_listener_only browser
                replaceByNonOverrideCfg pollingWorld Hrun)
    as (H1 & _ & H3 & _ & H5 & _ & _ & H8).
  split; [exact H1|]. split; [exact H3|]. split; [exact H5|].
  apply (H8 firstRequest 200 (json "{'sampleRate':10}") parseJSON
           (JObj [("sampleRate", JNum 10)])).
  - vm_compute. reflexivity.
  - lia.
  - vm_compute. discriminate.
  - reflexivity.
  - vm_compute. reflexivity.
  - reflexivity.
Defined.

(** ** The scenarios of the specification *)

(** Default options: the flags are latched at their defaults and the
    host configuration is the snapshot. *)
Example initialize_defaults :
  _isAutoSync (eng syncedWorld) = Some true /\
  _receiveChanges (eng syncedWorld) = Some false /\
  _cfgUrl (eng syncedWorld) = None /\
  _evtName (eng syncedWorld) = Some "cfgsync" /\
  _mainConfig (eng syncedWorld) = sampleTree /\
  bus syncedWorld = [] /\ timers syncedWorld = [].
Proof. vm_compute. repeat split; reflexivity. Qed.

(** With a [cfgUrl] the host configuration is ignored, one request goes
    out and one timer is armed. *)
Example initialize_polls :
  _mainConfig (eng pollingWorld) = JNull /\
  inflight pollingWorld = [firstRequest] /\
  timers pollingWorld = [1%nat] /\
  _timeoutHandle (eng pollingWorld) = Some 1%nat /\
  trace pollingWorld = [].
Proof. vm_compute. repeat split; reflexivity. Qed.

(** The fetch answers 200 with [{"sampleRate":10}]: that becomes the
    snapshot, it is broadcast, and the timer armed by [initialize] is
    still the only one. *)
Example fetch_200_replaces_snapshot :
  _mainConfig (eng (exec (settleFetch browser firstRequest goodResponse)
                      pollingWorld))
    = JObj [("sampleRate", JNum 10)] /\
  firstCall pollingWorld
    (exec (settleFetch browser firstRequest goodResponse) pollingWorld)
    = Some (ESendCustomEvent (Some "cfgsync")
              (JObj [("sampleRate", JNum 10)]) JUndef) /\
  timers (exec (settleFetch browser firstRequest goodResponse) pollingWorld)
    = [1%nat].
Proof. vm_compute. repeat split; reflexivity. Qed.

(** The fetch answers 404: the snapshot stays, whichever transport
    reports it, and the timer stays armed. *)
Example fetch_404_changes_nothing :
  eng (exec (settleFetch browser firstRequest
               (FetchResolved false 404 (TextResolved "Not Found")))
         pollingWorld) = eng pollingWorld /\
  _onFetchComplete browser 404 (Some "Not Found") (Some true) pollingWorld
    = (Ok tt, pollingWorld) /\
  timers (exec (settleFetch browser firstRequest
                  (FetchResolved false 404 (TextResolved "Not Found")))
            pollingWorld) = [1%nat].
Proof. vm_compute. repeat split; reflexivity. Qed.

(** The timer fires: the next request goes out and the next timer is
    armed, the only one pending. *)
Example timer_rearms :
  result (fireTimer browser 1) pollingWorld = Ok tt /\
  inflight (exec (fireTimer browser 1) pollingWorld)
    = [firstRequest; firstRequest] /\
  timers (exec (fireTimer browser 1) pollingWorld) = [2%nat].
Proof. vm_compute. repeat split; reflexivity. Qed.

(** [setCfg(null)] returns false and sends nothing. *)
Example setCfg_null :
  setCfg browser JNull syncedWorld = (Ok false, syncedWorld).
Proof. vm_compute. reflexivity. Qed.

(** The default rules strip the three identity keys at every level down
    to the fifth and leave a sixth level alone. *)
Example sanitize_depth :
  sanitize defaultNonOverrideCfg 5 1
    (JObj [("a", JObj [("endpointUrl", JStr "u");
       ("b", JObj [("c", JObj [("d", JObj [("connectionString", JStr "s");
          ("e", JObj [("instrumentationKey", JStr "k")])])])])])])
  = JObj [("a", JObj
       [("b", JObj [("c", JObj [("d", JObj
          [("e", JObj [("instrumentationKey", JStr "k")])])])])])].
Proof. vm_compute. reflexivity. Qed.

(** * Further properties *)

(** ** Frames *)

(** Takes a computation apart down to its assignments and outbound
    calls, each of which leaves the observation at hand alone. *)
Ltac frame_walk :=
  repeat first
    [ solve [intros ? Hobs; exact Hobs]
    | match goal with
      | |- preserves _ (when _ _) => apply preserves_when
      | |- preserves _ (tryCatch _ _) => apply preserves_tryCatch
      | |- preserves _ (bind getEng _) => apply preserves_getEng; intros ?
      | |- preserves _ (bind _ _) => apply preserves_bind; [|intros ?]
      | |- preserves _ (if ?b then _ else _) => destruct b
      | |- preserves _ (match ?x with Some _ => _ | None => _ end) =>
          destruct x
      | |- preserves _ (match ?x with Ok _ => _ | Throw _ => _ end) =>
          destruct x
      end ].

Section Frames.

Variable h : Host.
Variable helper : JsVal -> NonOverrideCfg -> nat -> nat -> Result JsVal.

Lemma fixes_notifications {X} (obs : World -> X) (cfgs : list IConfiguration) :
  (forall c, fixes obs (onConfigChange_callback h c)) ->
  fixes obs (notifications h cfgs).
Proof.
  intros Hc v. induction cfgs as [|c r IH]; cbn [notifications].
  - apply preserves_ret.
  - apply preserves_bind; [apply Hc|intros _; exact IH].
Qed.

Lemma pollPart_onConfigChange_callback (config : IConfiguration) :
  fixes pollPart (onConfigChange_callback h config).
Proof.
  intros v. unfold onConfigChange_callback, _updateEventListenerName,
    _eventOff, _addEventListener, _sendCfgsyncEvents, eventOff, eventOn.
  frame_walk.
Qed.

Lemma optionsPart_onConfigChange_callback (config : IConfiguration) :
  fixes optionsPart (onConfigChange_callback h config).
Proof.
  intros v. unfold onConfigChange_callback, _updateEventListenerName,
    _eventOff, _addEventListener, _sendCfgsyncEvents, eventOff, eventOn.
  frame_walk.
Qed.

(** X1.  A host config-change notification never issues a request and
    never arms or cancels a timer: over any sequence of notifications
    the outstanding requests, the pending timers, the timer handle and
    the resolved transport stay as they were.  Polling is started by
    [initialize] alone; a [cfgUrl] that first appears in a later
    notification is latched but never fetched. *)
Theorem notifications_never_poll (cfgs : list IConfiguration) (w : World) :
  inflight (exec (notifications h cfgs) w) = inflight w /\
  timers (exec (notifications h cfgs) w) = timers w /\
  _timeoutHandle (eng (exec (notifications h cfgs) w))
    = _timeoutHandle (eng w) /\
  _fetchFn (eng (exec (notifications h cfgs) w)) = _fetchFn (eng w).
Proof.
  pose proof (fixes_notifications pollPart cfgs
                pollPart_onConfigChange_callback (pollPart w) w eq_refl) as H.
  unfold pollPart in H. injection H as H1 H2 _ H4 H5. auto.
Qed.

(** X2.  The override sync and fetch functions, the receive callback and
    the poll interval are read from the extension configuration once, in
    [initialize]: no sequence of later notifications assigns them again,
    whatever the new configuration says.  (The protected-key rules are
    assigned once as well, but the variable holds the live rules object
    of the host configuration, so nothing is said here of what the rules
    are after a change.) *)
Theorem notifications_keep_options (cfgs : list IConfiguration) (w : World) :
  _overrideSyncFn (eng (exec (notifications h cfgs) w))
    = _overrideSyncFn (eng w) /\
  _overrideFetchFn (eng (exec (notifications h cfgs) w))
    = _overrideFetchFn (eng w) /\
  _onCfgChangeReceive (eng (exec (notifications h cfgs) w))
    = _onCfgChangeReceive (eng w) /\
  _fetchSpan (eng (exec (notifications h cfgs) w)) = _fetchSpan (eng w).
Proof.
  pose proof (fixes_notifications optionsPart cfgs
                optionsPart_onConfigChange_callback (optionsPart w) w eq_refl)
    as H.
  unfold optionsPart in H. injection H as H1 H2 H3 _ H5 _. auto.
Qed.

End Frames.

(** ** Triples *)

Section Triples.

Lemma hoare_ret {A} (P Q : World -> Prop) (a : A) :
  (forall w, P w -> Q w) -> hoare P (ret a) Q.
Proof. intros HQ w Hw. split; [eexists; reflexivity|apply HQ, Hw]. Qed.

Lemma hoare_bind {A B} (P Q R : World -> Prop) (m : M A) (k : A -> M B) :
  hoare P m Q -> (forall a, hoare Q (k a) R) -> hoare P (bind m k) R.
Proof.
  intros Hm Hk w Hw. destruct (Hm w Hw) as [[a Ha] HQ].
  destruct (Hk a _ HQ) as [Hb HR]. unfold result, exec, bind in *.
  destruct (m w) as [r w1]. cbn in *. subst r. split; assumption.
Qed.

(** After [getEng] the closure that was read is the one in the world. *)
Lemma hoare_getEng {A} (P Q : World -> Prop) (k : State -> M A) :
  (forall s, hoare (fun w => P w /\ eng w = s) (k s) Q) ->
  hoare P (bind getEng k) Q.
Proof. intros Hk w Hw. exact (Hk (eng w) w (conj Hw eq_refl)). Qed.

Lemma hoare_when (P Q : World -> Prop) (b : bool) (m : M unit) :
  (b = true -> hoare P m Q) -> (b = false -> forall w, P w -> Q w) ->
  hoare P (when b m) Q.
Proof.
  destruct b; intros Ht Hf; [apply Ht; reflexivity|].
  apply hoare_ret, Hf. reflexivity.
Qed.

(** A computation that always returns. *)
Lemma hoare_total {A} (P Q : World -> Prop) (m : M A) :
  (forall w, exists a, result m w = Ok a) ->
  (forall w, P w -> Q (exec m w)) -> hoare P m Q.
Proof. intros Ht HQ w Hw. split; [apply Ht|apply HQ, Hw]. Qed.

Lemma hoare_modEng (P Q : World -> Prop) (f : State -> State) :
  (forall w, P w -> Q (exec (modEng f) w)) -> hoare P (modEng f) Q.
Proof. apply hoare_total. intros w. eexists; reflexivity. Qed.

Lemma hoare_weaken {A} (P P' Q : World -> Prop) (m : M A) :
  (forall w, P' w -> P w) -> hoare P m Q -> hoare P' m Q.
Proof. intros HP Hm w Hw. apply Hm, HP, Hw. Qed.

End Triples.

(** ** What the pieces of a notification do *)

Section Pieces.

Variable h : Host.

Lemma _eventOff_run (w : World) :
  result (_eventOff h) w = Ok tt /\
  eng (exec (_eventOff h) w) = eng w /\
  bus (exec (_eventOff h) w)
    = (if getGlobal h then others (_evtNamespace (eng w)) (bus w)
       else bus w) /\
  trace (exec (_eventOff h) w) = trace w.
Proof.
  unfold _eventOff, exec, result, tryCatch, bind, getEng, when, eventOff,
    mod_bus, ret, others.
  destruct (getGlobal h); repeat split; reflexivity.
Qed.

Lemma _updateEventListenerName_run (name : option string) (w : World) :
  result (_updateEventListenerName h name) w = Ok true /\
  eng (exec (_updateEventListenerName h name) w)
    = (if truthy_str name then set_evtName name (eng w) else eng w) /\
  bus (exec (_updateEventListenerName h name) w)
    = (if getGlobal h then
         others (_evtNamespace (eng w)) (bus w)
         ++ (if truthy_str name && truthy_bool (_receiveChanges (eng w))
             then [{| lName := name; lNs := _evtNamespace (eng w);
                      lSelf := true |}]
             else [])
       else bus w) /\
  trace (exec (_updateEventListenerName h name) w) = trace w.
Proof.
  split; [apply _updateEventListenerName_true|].
  unfold _updateEventListenerName, _eventOff, _addEventListener, exec,
    tryCatch, bind, getEng, when, eventOff, eventOn, mod_bus, modEng, ret,
    others.
  destruct (getGlobal h), (truthy_str name); cbn;
    destruct (_receiveChanges (eng w)) as [[|]|]; cbn;
    repeat split; rewrite ?app_nil_r; reflexivity.
Qed.

Lemma _sendCfgsyncEvents_total (d : JsVal) (w : World) :
  exists b, result (_sendCfgsyncEvents h d) w = Ok b.
Proof.
  destruct (_sendCfgsyncEvents_frame h w d) as (b & e & Heq).
  exists b. unfold result. rewrite Heq. reflexivity.
Qed.

(** The outbound call a send makes. *)
Lemma _sendCfgsyncEvents_trace (d : JsVal) (w : World) :
  eng (exec (_sendCfgsyncEvents h d) w) = eng w /\
  trace (exec (_sendCfgsyncEvents h d) w)
  = trace w
    ++ [match _overrideSyncFn (eng w) with
        | Some _ => EOverrideSync (_mainConfig (eng w)) d
        | None => ESendCustomEvent (_evtName (eng w)) (_mainConfig (eng w)) d
        end].
Proof.
  unfold exec. destruct (_overrideSyncFn (eng w)) as [f|] eqn:Hf.
  - rewrite (_sendCfgsyncEvents_override h w d f Hf). split; reflexivity.
  - rewrite (_sendCfgsyncEvents_bus h w d Hf). split; reflexivity.
Qed.

End Pieces.

(** ** Notifications while polling *)

(** Walks a computation along its binds with one assertion [I] kept
    between the steps, leaving the steps themselves. *)
Ltac inv_seq I :=
  cbv zeta;
  repeat match goal with
    | |- hoare _ (bind getEng _) _ => apply hoare_getEng; intros ?
    | |- hoare _ (bind _ _) _ => apply hoare_bind with (Q := I); [|intros ?]
    end.

Section PollMode.

Variable h : Host.
Variable w0 : World.
Hypothesis polling : truthy_str (_cfgUrl (eng w0)) = true.

Lemma ignoring_onConfigChange_callback (config : IConfiguration) :
  hoare (ignoring w0) (onConfigChange_callback h config) (ignoring w0).
Proof.
  unfold onConfigChange_callback. inv_seq (ignoring w0).
  - apply hoare_modEng. intros w Hw. exact Hw.
  - apply hoare_when; [intros _; apply hoare_modEng|intros _];
      intros w [Hw _]; exact Hw.
  - apply hoare_when; [intros _; apply hoare_modEng|intros _];
      intros w [Hw _]; exact Hw.
  - apply hoare_when; [intros _|intros _ w [Hw _]; exact Hw].
    destruct (truthy_bool (_receiveChanges _)).
    + match goal with |- context [_updateEventListenerName h ?n] =>
        set (name := n) end.
      apply hoare_bind with (Q := ignoring w0); [|intros _; apply hoare_ret; auto].
      apply hoare_total.
      * intros w. eexists. apply _updateEventListenerName_run.
      * intros w [(Hu & Hm & Ht) _].
        destruct (_updateEventListenerName_run h name w) as (_ & He & _ & Htr).
        unfold ignoring. rewrite He, Htr.
        destruct (truthy_str name); repeat split; assumption.
    + apply hoare_bind with (Q := ignoring w0).
      * apply hoare_total; [intros w; eexists; apply _eventOff_run|].
        intros w [(Hu & Hm & Ht) _].
        destruct (_eventOff_run h w) as (_ & He & _ & Htr).
        unfold ignoring. rewrite He, Htr. repeat split; assumption.
      * intros _. apply hoare_modEng. intros w Hw. exact Hw.
  - apply hoare_when; [intros Hnull|intros _ w [Hw _]; exact Hw].
    intros w [(Hu & _) Hs]. exfalso. subst. rewrite Hu in Hnull.
    destruct (_cfgUrl (eng w0)); discriminate.
  - apply hoare_when; [intros Hfalsy|intros _ w [Hw _]; exact Hw].
    intros w [(Hu & _) Hs]. exfalso. subst. rewrite Hu, polling in Hfalsy.
    discriminate.
Qed.

End PollMode.

Section PollModeRuns.

Variable h : Host.

(** X3.  While a [cfgUrl] is latched, host config-change notifications
    are ignored: over any sequence of them each returns normally, no
    outbound call is made, the address stays, and the host configuration
    is not taken for the snapshot: a snapshot that is still null, no
    document having arrived, stays null. *)
Theorem notifications_ignored_while_polling
    (cfgs : list IConfiguration) (w : World) :
  truthy_str (_cfgUrl (eng w)) = true ->
  result (notifications h cfgs) w = Ok tt /\
  trace (exec (notifications h cfgs) w) = trace w /\
  _cfgUrl (eng (exec (notifications h cfgs) w)) = _cfgUrl (eng w) /\
  (_mainConfig (eng w) = JNull ->
   _mainConfig (eng (exec (notifications h cfgs) w)) = JNull).
Proof.
  intros Hp.
  assert (Hall : hoare (ignoring w) (notifications h cfgs) (ignoring w)).
  { induction cfgs as [|c r IH]; cbn [notifications].
    - apply hoare_ret. auto.
    - eapply hoare_bind; [apply (ignoring_onConfigChange_callback h w Hp)|].
      intros _. exact IH. }
  destruct (Hall w (conj eq_refl (conj eq_refl eq_refl)))
    as [[[] Hr] (Hu & Hm & Ht)].
  split; [exact Hr|]. split; [exact Ht|]. split; [exact Hu|].
  intros Hnull. rewrite Hm. exact Hnull.
Qed.

End PollModeRuns.

(** X3 on a concrete page: the polling page is told of a new host
    configuration. *)
Lemma notifications_ignored_witness :
  _mainConfig (eng (exec (notifications browser [contraryConfig]) pollingWorld))
    = JNull /\
  trace (exec (notifications browser [contraryConfig]) pollingWorld)
    = trace pollingWorld.
Proof.
  assert (Hp : truthy_str (_cfgUrl (eng pollingWorld)) = true)
    by (vm_compute; reflexivity).
  assert (Hn : _mainConfig (eng pollingWorld) = JNull)
    by (vm_compute; reflexivity).
  destruct (notifications_ignored_while_polling browser [contraryConfig]
              pollingWorld Hp) as (_ & Ht & _ & Hm).
  split; [exact (Hm Hn)|exact Ht].
Defined.

(** ** The event name and the broadcast of a notification *)

Section NotificationEffects.

Variable h : Host.

Lemma opt_str_eqb_eq (a b : option string) : opt_str_eqb a b = true -> a = b.
Proof.
  destruct a as [x|], b as [y|]; cbn; intros H; try discriminate;
    [|reflexivity].
  apply String.eqb_eq in H. subst. reflexivity.
Qed.

(** The resolved name is never empty. *)
Lemma newEvtName_truthy (config : IConfiguration) :
  truthy_str (newEvtName config) = true.
Proof.
  unfold newEvtName. destruct (truthy_str (customEvtName _)) eqn:Hc;
    [exact Hc|reflexivity].
Qed.

Lemma hoare_when_modEng (P Q : World -> Prop) (b : bool) (f : State -> State) :
  (forall w, P w -> Q w) -> (forall w, P w -> Q (exec (modEng f) w)) ->
  hoare P (when b (modEng f)) Q.
Proof.
  intros Hskip Hset. apply hoare_when; [intros _; apply hoare_modEng|intros _];
    assumption.
Qed.

(** The fourth step of a notification: whichever branch runs, the stored
    name is the resolved one afterwards, and nothing is sent. *)
Lemma rename_step (config : IConfiguration) (w0 : World) (s : State) :
  hoare (fun w => unsent w0 w /\ eng w = s)
    (when (negb (opt_str_eqb (_evtName s) (newEvtName config)))
       (if truthy_bool (_receiveChanges s)
        then bind (_updateEventListenerName h (newEvtName config))
               (fun _ => ret tt)
        else bind (_eventOff h)
               (fun _ => modEng (set_evtName (newEvtName config)))))
    (fun w => unsent w0 w /\ _evtName (eng w) = newEvtName config).
Proof.
  apply hoare_when.
  - intros _. destruct (truthy_bool (_receiveChanges s)).
    + eapply hoare_bind; [|intros _; apply hoare_ret; intros w Hw; exact Hw].
      apply hoare_total.
      * intros w. eexists. apply _updateEventListenerName_run.
      * intros w [[Ht Ho] _].
        destruct (_updateEventListenerName_run h (newEvtName config) w)
          as (_ & He & _ & Htr).
        unfold unsent. rewrite He, Htr, newEvtName_truthy. cbn.
        repeat split; assumption.
    + apply hoare_bind with (Q := unsent w0).
      * apply hoare_total; [intros w; eexists; apply _eventOff_run|].
        intros w [[Ht Ho] _].
        destruct (_eventOff_run h w) as (_ & He & _ & Htr).
        unfold unsent. rewrite He, Htr. split; assumption.
      * intros _. apply hoare_modEng. intros w [Ht Ho].
        split; [split; assumption|reflexivity].
  - intros Heq w [Hu Hs]. split; [exact Hu|]. subst s.
    apply negb_false_iff in Heq. apply opt_str_eqb_eq, Heq.
Qed.

(** Storing the host configuration and broadcasting it. *)
Lemma store_and_send_run (tree : JsVal) (w : World) :
  bind (modEng (set_mainConfig tree))
    (fun _ => bind getEng (fun s' =>
       when (truthy_bool (_isAutoSync s'))
         (bind (_sendCfgsyncEvents h JUndef) (fun _ => ret tt)))) w
  = (Ok tt,
     if truthy_bool (_isAutoSync (eng w))
     then traced (exec (modEng (set_mainConfig tree)) w)
            (match _overrideSyncFn (eng w) with
             | Some _ => EOverrideSync tree JUndef
             | None => ESendCustomEvent (_evtName (eng w)) tree JUndef
             end)
     else exec (modEng (set_mainConfig tree)) w).
Proof.
  unfold bind at 1, modEng at 1. unfold bind at 1, getEng at 1.
  cbn [eng _isAutoSync set_mainConfig exec snd].
  destruct (truthy_bool (_isAutoSync (eng w))); cbn [when]; [|reflexivity].
  unfold bind.
  destruct (_overrideSyncFn (eng w)) as [f|] eqn:Hf.
  - rewrite (_sendCfgsyncEvents_override h _ JUndef f) by exact Hf.
    reflexivity.
  - rewrite (_sendCfgsyncEvents_bus h _ JUndef) by exact Hf. reflexivity.
Qed.

(** The last step: the host configuration becomes the snapshot and is
    broadcast, unless a [cfgUrl] is set. *)
Lemma broadcast_step (config : IConfiguration) (w0 : World) (s : State) :
  hoare (fun w => (unsent w0 w /\ _evtName (eng w) = newEvtName config)
                  /\ eng w = s)
    (when (negb (truthy_str (_cfgUrl s)))
       (bind (modEng (set_mainConfig (cfgTree config)))
          (fun _ => bind getEng (fun s' =>
             when (truthy_bool (_isAutoSync s'))
               (bind (_sendCfgsyncEvents h JUndef) (fun _ => ret tt))))))
    (fun w =>
       _evtName (eng w) = newEvtName config /\
       (truthy_str (_cfgUrl (eng w)) = false ->
        _mainConfig (eng w) = cfgTree config /\
        trace w
        = trace w0
          ++ (if truthy_bool (_isAutoSync (eng w))
              then [broadcastOf w0 (newEvtName config) (cfgTree config)]
              else []))).
Proof.
  intros w [[[Ht Ho] Hn] Hs]. subst s. unfold result, exec.
  destruct (truthy_str (_cfgUrl (eng w))) eqn:Hu; cbn [negb when].
  - split; [eexists; reflexivity|]. cbn.
    split; [exact Hn|]. rewrite Hu. discriminate.
  - rewrite store_and_send_run. cbn [fst snd].
    split; [eexists; reflexivity|].
    destruct (truthy_bool (_isAutoSync (eng w))) eqn:Ha; cbn.
    + split; [exact Hn|]. intros _. split; [reflexivity|].
      unfold truthy_bool in Ha. rewrite Ha, Ht. unfold broadcastOf.
      rewrite Ho, Hn. reflexivity.
    + split; [exact Hn|]. intros _. split; [reflexivity|].
      unfold truthy_bool in Ha. rewrite Ha, Ht, app_nil_r. reflexivity.
Qed.

Lemma onConfigChange_callback_effects (config : IConfiguration) (w0 : World) :
  hoare (unsent w0) (onConfigChange_callback h config)
    (fun w =>
       _evtName (eng w) = newEvtName config /\
       (truthy_str (_cfgUrl (eng w)) = false ->
        _mainConfig (eng w) = cfgTree config /\
        trace w
        = trace w0
          ++ (if truthy_bool (_isAutoSync (eng w))
              then [broadcastOf w0 (newEvtName config) (cfgTree config)]
              else []))).
Proof.
  unfold onConfigChange_callback. cbv zeta. fold (newEvtName config).
  apply hoare_bind with (Q := unsent w0);
    [apply hoare_modEng; intros w Hw; exact Hw|intros _].
  apply hoare_getEng. intros s1. apply hoare_bind with (Q := unsent w0);
    [apply hoare_when_modEng; intros w [Hw _]; exact Hw|intros _].
  apply hoare_getEng. intros s2. apply hoare_bind with (Q := unsent w0);
    [apply hoare_when_modEng; intros w [Hw _]; exact Hw|intros _].
  apply hoare_getEng. intros s3.
  eapply hoare_bind; [apply rename_step|intros _].
  apply hoare_getEng. intros s4.
  apply hoare_bind
    with (Q := fun w => unsent w0 w /\ _evtName (eng w) = newEvtName config);
    [apply hoare_when_modEng; intros w [Hw _]; exact Hw|intros _].
  apply hoare_getEng. intros s5. apply broadcast_step.
Qed.

(** X4.  After a host config-change notification the stored event name
    is the configured [customEvtName], or [cfgsync] when that is missing
    or empty, in receive mode and in broadcast-only mode alike. *)
Theorem notification_sets_event_name (config : IConfiguration) (w : World) :
  (forall n, customEvtName (cfgExt config) = Some n -> n <> "" ->
     _evtName (eng (exec (onConfigChange_callback h config) w)) = Some n) /\
  (customEvtName (cfgExt config) = None \/
   customEvtName (cfgExt config) = Some "" ->
     _evtName (eng (exec (onConfigChange_callback h config) w))
       = Some "cfgsync").
Proof.
  destruct (onConfigChange_callback_effects config w w (conj eq_refl eq_refl))
    as [_ [Hn _]].
  rewrite Hn. unfold newEvtName. cbn. split.
  - intros n Hc Hne. rewrite Hc. cbn.
    destruct (String.eqb_spec n ""); [contradiction|reflexivity].
  - intros [Hc|Hc]; rewrite Hc; reflexivity.
Qed.

(** X5.  A host config-change notification that leaves [cfgUrl] unset
    returns normally.  With auto-sync on, the call it makes is the
    broadcast of the host configuration: to the override sync function
    if the closure holds one, else on the bus under the event name the
    configuration resolves to.  With auto-sync off it makes no outbound call, and the
    host configuration is the snapshot. *)
Theorem notification_broadcasts_host_config
    (config : IConfiguration) (w : World) :
  truthy_str (_cfgUrl (eng (exec (onConfigChange_callback h config) w)))
    = false ->
  result (onConfigChange_callback h config) w = Ok tt /\
  (truthy_bool (_isAutoSync (eng (exec (onConfigChange_callback h config) w)))
     = true ->
   firstCall w (exec (onConfigChange_callback h config) w)
   = Some match _overrideSyncFn (eng w) with
          | Some _ => EOverrideSync (cfgTree config) JUndef
          | None =>
              ESendCustomEvent (newEvtName config) (cfgTree config) JUndef
          end) /\
  (truthy_bool (_isAutoSync (eng (exec (onConfigChange_callback h config) w)))
     = false ->
   trace (exec (onConfigChange_callback h config) w) = trace w /\
   _mainConfig (eng (exec (onConfigChange_callback h config) w))
     = cfgTree config).
Proof.
  intros Hu.
  destruct (onConfigChange_callback_effects config w w (conj eq_refl eq_refl))
    as [[[] Hr] [Hn Hb]].
  destruct (Hb Hu) as [Hm Ht].
  split; [exact Hr|]. split; intros Ha; rewrite Ha in Ht.
  - apply (firstCall_app _ _ _ []). rewrite Ht. reflexivity.
  - split; [rewrite Ht; apply app_nil_r|exact Hm].
Qed.

End NotificationEffects.

(** X4 on a concrete page: a custom event name arrives. *)
Lemma notification_sets_event_name_witness :
  _evtName (eng (exec (onConfigChange_callback browser contraryConfig)
                   syncedWorld)) = Some "renamed".
Proof.
  refine (proj1 (notification_sets_event_name browser contraryConfig
                   syncedWorld) "renamed" _ _).
  - reflexivity.
  - discriminate.
Defined.

(** X5 on a concrete page: the host configuration changes on a page with
    default options. *)
Lemma notification_broadcasts_witness :
  firstCall syncedWorld
    (exec (onConfigChange_callback browser plainConfig) syncedWorld)
  = Some match _overrideSyncFn (eng syncedWorld) with
         | Some _ => EOverrideSync (cfgTree plainConfig) JUndef
         | None =>
             ESendCustomEvent (newEvtName plainConfig) (cfgTree plainConfig)
               JUndef
         end.
Proof.
  assert (Hu : truthy_str
                 (_cfgUrl (eng (exec (onConfigChange_callback browser
                                        plainConfig) syncedWorld))) = false)
    by (vm_compute; reflexivity).
  assert (Ha : truthy_bool
                 (_isAutoSync (eng (exec (onConfigChange_callback browser
                                            plainConfig) syncedWorld))) = true)
    by (vm_compute; reflexivity).
  exact (proj1 (proj2 (notification_broadcasts_host_config browser plainConfig
                         syncedWorld Hu)) Ha).
Defined.

(** ** A notification, written out *)

Section NotificationRun.

Variable h : Host.

(** A latch: assign when unset. *)
Lemma latch_isAutoSync_run (v : option bool) (w : World) :
  when (isNullOrUndefined (_isAutoSync (eng w))) (modEng (set_isAutoSync v)) w
  = (Ok tt, exec (modEng (set_isAutoSync (latch (_isAutoSync (eng w)) v))) w).
Proof.
  destruct w as [e b t n i tr]. destruct e. cbn.
  destruct _isAutoSync0; reflexivity.
Qed.

Lemma latch_receiveChanges_run (v : option bool) (w : World) :
  when (isNullOrUndefined (_receiveChanges (eng w)))
    (modEng (set_receiveChanges v)) w
  = (Ok tt,
     exec (modEng (set_receiveChanges (latch (_receiveChanges (eng w)) v))) w).
Proof.
  destruct w as [e b t n i tr]. destruct e. cbn.
  destruct _receiveChanges0; reflexivity.
Qed.

Lemma latch_cfgUrl_run (v : option string) (w : World) :
  when (isNullOrUndefined (_cfgUrl (eng w))) (modEng (set_cfgUrl v)) w
  = (Ok tt, exec (modEng (set_cfgUrl (latch (_cfgUrl (eng w)) v))) w).
Proof.
  destruct w as [e b t n i tr]. destruct e. cbn.
  destruct _cfgUrl0; reflexivity.
Qed.

(** The renaming step. *)
Lemma rename_run (name : option string) (w : World) :
  truthy_str name = true ->
  when (negb (opt_str_eqb (_evtName (eng w)) name))
    (if truthy_bool (_receiveChanges (eng w))
     then bind (_updateEventListenerName h name) (fun _ => ret tt)
     else bind (_eventOff h) (fun _ => modEng (set_evtName name))) w
  = (Ok tt,
     {| eng := set_evtName name (eng w);
        bus :=
          if negb (opt_str_eqb (_evtName (eng w)) name) && getGlobal h then
            if truthy_bool (_receiveChanges (eng w)) then
              others (_evtNamespace (eng w)) (bus w)
              ++ [ownListener name (_evtNamespace (eng w))]
            else others (_evtNamespace (eng w)) (bus w)
          else bus w;
        timers := timers w; nextId := nextId w; inflight := inflight w;
        trace := trace w |}).
Proof.
  intros Hn. destruct w as [e b t n i tr]. destruct e. cbn.
  destruct (opt_str_eqb _evtName0 name) eqn:Heq; cbn.
  - apply opt_str_eqb_eq in Heq. subst. reflexivity.
  - unfold _updateEventListenerName, _eventOff, _addEventListener, tryCatch,
      bind, getEng, when, eventOff, eventOn, mod_bus, modEng, ret, others,
      ownListener.
    rewrite Hn. cbn.
    destruct _receiveChanges0 as [[|]|], (getGlobal h); cbn; reflexivity.
Qed.

(** The last step. *)
Lemma store_or_ignore_run (tree : JsVal) (w : World) :
  when (negb (truthy_str (_cfgUrl (eng w))))
    (bind (modEng (set_mainConfig tree))
       (fun _ => bind getEng (fun s' =>
          when (truthy_bool (_isAutoSync s'))
            (bind (_sendCfgsyncEvents h JUndef) (fun _ => ret tt))))) w
  = (Ok tt,
     {| eng :=
          set_mainConfig
            (if truthy_str (_cfgUrl (eng w)) then _mainConfig (eng w)
             else tree) (eng w);
        bus := bus w; timers := timers w; nextId := nextId w;
        inflight := inflight w;
        trace :=
          if negb (truthy_str (_cfgUrl (eng w)))
             && truthy_bool (_isAutoSync (eng w))
          then trace w ++ [broadcastOf w (_evtName (eng w)) tree]
          else trace w |}).
Proof.
  destruct (truthy_str (_cfgUrl (eng w))) eqn:Hu; cbn [negb when andb].
  - destruct w as [e b t n i tr]. destruct e. reflexivity.
  - rewrite store_and_send_run. unfold broadcastOf.
    destruct (truthy_bool (_isAutoSync (eng w))); reflexivity.
Qed.

Lemma bind_run {A B} (m : M A) (k : A -> M B) (w w1 : World) (a : A) :
  m w = (Ok a, w1) -> bind m k w = k a w1.
Proof. intros Hm. unfold bind. rewrite Hm. reflexivity. Qed.

(** One notification never throws, and leaves the world written out in
    [afterConfigChange]. *)
Lemma onConfigChange_callback_run (config : IConfiguration) (w : World) :
  onConfigChange_callback h config w = (Ok tt, afterConfigChange h config w).
Proof.
  unfold onConfigChange_callback. cbv zeta. fold (newEvtName config).
  unfold bind at 1, modEng at 1. cbv beta iota.
  unfold bind at 1, getEng at 1. cbv beta iota.
  rewrite (bind_run _ _ _ _ tt (latch_isAutoSync_run _ _)).
  unfold bind at 1, getEng at 1. cbv beta iota.
  rewrite (bind_run _ _ _ _ tt (latch_receiveChanges_run _ _)).
  unfold bind at 1, getEng at 1. cbv beta iota.
  rewrite (bind_run _ _ _ _ tt
             (rename_run (newEvtName config) _ (newEvtName_truthy config))).
  unfold bind at 1, getEng at 1. cbv beta iota.
  rewrite (bind_run _ _ _ _ tt (latch_cfgUrl_run _ _)).
  unfold bind at 1, getEng at 1. cbv beta iota.
  rewrite store_or_ignore_run.
  reflexivity.
Qed.

End NotificationRun.

(** ** One listener, one timer *)

Section Standing.

Variable h : Host.
Variable helper : JsVal -> NonOverrideCfg -> nat -> nat -> Result JsVal.

Lemma tuned_same (w w' : World) :
  listenPart w' = listenPart w -> tuned h w -> tuned h w'.
Proof.
  unfold listenPart, tuned. intros Heq. injection Heq as Hb Hn Hns Hr.
  rewrite Hb, Hn, Hns, Hr. trivial.
Qed.

Lemma armed_same (w w' : World) :
  timerPart w' = timerPart w -> armed w -> armed w'.
Proof.
  unfold timerPart, armed. intros Heq. injection Heq as Ht Hh.
  rewrite Ht, Hh. trivial.
Qed.

Lemma tuned_of_fixes {A} (m : M A) :
  fixes listenPart m -> preserves (tuned h) m.
Proof.
  intros Hf w Hw. apply (tuned_same w); [|exact Hw].
  exact (Hf (listenPart w) w eq_refl).
Qed.

Lemma armed_of_fixes {A} (m : M A) :
  fixes timerPart m -> preserves armed m.
Proof.
  intros Hf w Hw. apply (armed_same w); [|exact Hw].
  exact (Hf (timerPart w) w eq_refl).
Qed.

Lemma fixes_fst {A X Y} (f : World -> X) (g : World -> Y) (m : M A) :
  fixes (fun w => (f w, g w)) m -> fixes f m /\ fixes g m.
Proof.
  intros Hf. split; intros v w Hw;
    pose proof (Hf (f w, g w) w eq_refl) as H; cbv beta in H;
    injection H as H1 H2; congruence.
Qed.

(** *** What leaves both alone *)

Lemma standing_sendCfgsyncEvents (d : JsVal) :
  fixes standingPart (_sendCfgsyncEvents h d).
Proof. intros v. unfold _sendCfgsyncEvents. frame_walk. Qed.

Lemma standing_setCfg (config : JsVal) (isAutoSync : option bool) :
  fixes standingPart (_setCfg h config isAutoSync).
Proof. intros v. unfold _setCfg, _sendCfgsyncEvents. frame_walk. Qed.

Lemma standing_onFetchComplete (status : Z) (response : option string)
    (isAutoSync : option bool) :
  fixes standingPart (_onFetchComplete h status response isAutoSync).
Proof.
  intros v. unfold _onFetchComplete, _setCfg, _sendCfgsyncEvents. frame_walk.
Qed.

Lemma standing_onCfgSyncEvent (event : JsVal) :
  fixes standingPart (onCfgSyncEvent h helper event).
Proof.
  intros v. unfold onCfgSyncEvent, _replaceTartgetByKeys. frame_walk.
Qed.

Lemma standing_call_fetchFn (f : option SendGetFunction)
    (url : option string) (isAutoSync : option bool) :
  fixes standingPart (call_fetchFn h f url isAutoSync).
Proof.
  intros v. unfold call_fetchFn. destruct f as [[| |g]|];
    unfold _fetchSender, _xhrSender; frame_walk.
  apply preserves_oncomplete_calls. intros. apply standing_onFetchComplete.
Qed.

Lemma standing_dispatchEvent (name : option string) (event : JsVal) :
  fixes standingPart (dispatchEvent h helper name event).
Proof.
  intros v.
  assert (Hls : forall ls,
            preserves (fun w => standingPart w = v)
              (runListeners h helper ls name event)).
  { induction ls as [|l r IH]; cbn [runListeners]; [apply preserves_ret|].
    apply preserves_bind; [|intros _; exact IH].
    apply preserves_when, preserves_tryCatch;
      [apply standing_onCfgSyncEvent|apply preserves_ret]. }
  intros w Hw. exact (Hls (bus w) w Hw).
Qed.

Lemma standing_settleFetch (p : Pending) (outcome : FetchOutcome) :
  fixes standingPart (settleFetch h p outcome).
Proof.
  intros v w Hw. unfold settleFetch, exec.
  destruct (existsb _ _); [|exact Hw].
  assert (Hm : preserves (fun w => standingPart w = v)
            (bind (mod_inflight (remove_pending p))
               (fun _ => _fetchSender_settled (_onFetchComplete h) (pAuto p)
                           outcome))).
  { apply preserves_bind; [intros ? Hobs; exact Hobs|intros _].
    unfold _fetchSender_settled, _doOnComplete.
    destruct outcome as [|[|] status res];
      try apply preserves_ret.
    apply preserves_tryCatch;
      [apply standing_onFetchComplete|apply preserves_ret]. }
  exact (Hm w Hw).
Qed.

Lemma standing_settleXhr (p : Pending) (status : Z) (text : option string) :
  fixes standingPart (settleXhr h p status text).
Proof.
  intros v w Hw. unfold settleXhr, exec.
  destruct (existsb _ _); [|exact Hw].
  assert (Hm : preserves (fun w => standingPart w = v)
            (bind (mod_inflight (remove_pending p))
               (fun _ => _xhrSender_onreadystatechange (_onFetchComplete h)
                           (pAuto p) XHR_DONE status text))).
  { apply preserves_bind; [intros ? Hobs; exact Hobs|intros _].
    unfold _xhrSender_onreadystatechange, _doOnComplete.
    cbn [Nat.eqb XHR_DONE].
    apply preserves_tryCatch;
      [apply standing_onFetchComplete|apply preserves_ret]. }
  exact (Hm w Hw).
Qed.

(** *** The timer side *)

Lemma timerPart_updateEventListenerName (name : option string) :
  fixes timerPart (_updateEventListenerName h name).
Proof.
  intros v. unfold _updateEventListenerName, _eventOff, _addEventListener,
    eventOff, eventOn.
  frame_walk.
Qed.

Lemma timerPart_onConfigChange_callback (config : IConfiguration) :
  fixes timerPart (onConfigChange_callback h config).
Proof.
  intros v w Hw. rewrite <- Hw. unfold exec.
  rewrite onConfigChange_callback_run. reflexivity.
Qed.

Lemma armed_setupTimer : preserves armed _setupTimer.
Proof.
  intros w Hw. unfold armed in *.
  unfold _setupTimer, exec, bind, getEng, when.
  destruct (_timeoutHandle (eng w)) as [id|] eqn:Hh; cbn.
  - rewrite Hh. exact Hw.
  - destruct (truthy_num _); cbn; [rewrite Hw; reflexivity|].
    rewrite Hh. exact Hw.
Qed.

Lemma armed_fireTimer (id : nat) : preserves armed (fireTimer h id).
Proof.
  intros w Hw. unfold fireTimer, exec.
  destruct (existsb (Nat.eqb id) (timers w)) eqn:Hex; [|exact Hw].
  assert (Hfired : armed
            (exec (bind (cancel id) (fun _ => modEng (set_timeoutHandle None)))
               w)).
  { unfold armed in *. cbn.
    destruct (_timeoutHandle (eng w)) as [id0|]; rewrite Hw in *; cbn in *.
    - rewrite orb_false_r in Hex. apply Nat.eqb_eq in Hex. subst id0.
      rewrite Nat.eqb_refl. reflexivity.
    - discriminate. }
  assert (Hrest : preserves armed
            (bind getEng (fun s =>
               bind (call_fetchFn h (_fetchFn s) (_cfgUrl s) (_isAutoSync s))
                 (fun _ => _setupTimer)))).
  { apply preserves_getEng. intros s. apply preserves_bind.
    - apply armed_of_fixes.
      apply (fixes_fst listenPart timerPart), standing_call_fetchFn.
    - intros _. apply armed_setupTimer. }
  exact (Hrest _ Hfired).
Qed.

(** *** The listener side *)

Lemma listenPart_setupTimer : fixes listenPart _setupTimer.
Proof. intros v. unfold _setupTimer, scheduleTimeout. frame_walk. Qed.

Lemma listenPart_fireTimer (id : nat) : fixes listenPart (fireTimer h id).
Proof.
  intros v w Hw. unfold fireTimer, exec.
  destruct (existsb _ _); [|exact Hw].
  assert (Hm : preserves (fun w => listenPart w = v)
            (bind (cancel id) (fun _ => _setupTimer_callback h))).
  { unfold _setupTimer_callback. apply preserves_bind;
      [intros ? Hobs; exact Hobs|intros _].
    apply preserves_bind; [intros ? Hobs; exact Hobs|intros _].
    apply preserves_getEng. intros s. apply preserves_bind.
    - apply (fixes_fst listenPart timerPart), standing_call_fetchFn.
    - intros _. apply listenPart_setupTimer. }
  exact (Hm w Hw).
Qed.

Lemma selfListeners_others (ns : option nat) (b : list Listener) :
  selfListeners (others ns b) = others ns (selfListeners b).
Proof.
  unfold selfListeners, others.
  induction b as [|l r IH]; [reflexivity|]. cbn [List.filter].
  destruct (opt_nat_eqb (lNs l) ns) eqn:Hn, (lSelf l) eqn:Hs;
    cbn [negb List.filter]; rewrite ?Hn, ?Hs; cbn [negb]; rewrite IH;
    reflexivity.
Qed.

(** [eventOff] under the plugin's namespace removes what the plugin has
    on the bus. *)
Lemma tuned_others (w : World) :
  tuned h w -> selfListeners (others (_evtNamespace (eng w)) (bus w)) = [].
Proof.
  intros [Hnone|(_ & _ & Hone)]; rewrite selfListeners_others.
  - rewrite Hnone. reflexivity.
  - rewrite Hone. unfold others, ownListener. cbn.
    rewrite (opt_nat_eqb_eq _ _ eq_refl). reflexivity.
Qed.

Lemma selfListeners_app (a b : list Listener) :
  selfListeners (a ++ b) = selfListeners a ++ selfListeners b.
Proof. apply List.filter_app. Qed.

Lemma tuned_onConfigChange_callback (config : IConfiguration) :
  preserves (tuned h) (onConfigChange_callback h config).
Proof.
  intros w Hw. unfold exec. rewrite onConfigChange_callback_run. cbn [snd].
  pose proof (tuned_others w Hw) as Hoff.
  unfold tuned, afterConfigChange. cbn.
  destruct (opt_str_eqb (_evtName (eng w)) (newEvtName config)) eqn:Hname;
    cbn [negb andb].
  - apply opt_str_eqb_eq in Hname.
    destruct Hw as [Hnone|(Hg & Hr & Hone)]; [left; exact Hnone|right].
    split; [exact Hg|]. rewrite <- Hname.
    destruct (_receiveChanges (eng w)) as [[|]|]; try discriminate.
    cbn. split; [reflexivity|exact Hone].
  - destruct (getGlobal h) eqn:Hg.
    + destruct (truthy_bool (latch _ _)) eqn:Hr.
      * right. split; [reflexivity|]. split; [exact Hr|].
        rewrite selfListeners_app, Hoff. reflexivity.
      * left. exact Hoff.
    + destruct Hw as [Hnone|(Hg' & _)]; [left; exact Hnone|congruence].
Qed.

Lemma tuned_updateEventListenerName (name : option string) :
  preserves (tuned h) (_updateEventListenerName h name).
Proof.
  intros w Hw.
  destruct (_updateEventListenerName_run h name w) as (_ & He & Hb & _).
  pose proof (tuned_others w Hw) as Hoff.
  unfold tuned. rewrite He, Hb.
  destruct (getGlobal h) eqn:Hg.
  - destruct (truthy_str name) eqn:Hn; cbn [andb].
    + destruct (truthy_bool (_receiveChanges (eng w))) eqn:Hr.
      * right. split; [reflexivity|]. split; [exact Hr|].
        rewrite selfListeners_app, Hoff. reflexivity.
      * left. rewrite app_nil_r. exact Hoff.
    + left. rewrite app_nil_r. exact Hoff.
  - destruct Hw as [Hnone|(Hg' & _)]; [left; exact Hnone|congruence].
Qed.

(** *** Every action keeps both *)

Lemma standing_act (a : Action) :
  preserves (fun w => tuned h w /\ armed w) (act h helper a).
Proof.
  assert (Hboth : forall (m : M unit),
            fixes standingPart m ->
            preserves (fun w => tuned h w /\ armed w) m).
  { intros m Hm w [Ht Ha].
    destruct (fixes_fst listenPart timerPart m Hm) as [Hl Htm].
    split; [apply (tuned_of_fixes m Hl), Ht|apply (armed_of_fixes m Htm), Ha]. }
  destruct a; cbn [act]; unfold discard, setCfg, sync, updateEventListenerName.
  - apply Hboth. intros v. apply preserves_bind; [|intros; apply preserves_ret].
    apply preserves_getEng. intros s. apply standing_setCfg.
  - apply Hboth. intros v. apply preserves_bind; [|intros; apply preserves_ret].
    apply standing_sendCfgsyncEvents.
  - intros w [Ht Ha]. split.
    + assert (Hp : preserves (tuned h)
                (bind (_updateEventListenerName h eventName)
                   (fun _ => ret tt))).
      { apply preserves_bind; [apply tuned_updateEventListenerName|].
        intros; apply preserves_ret. }
      exact (Hp w Ht).
    + assert (Hp : preserves armed
                (bind (_updateEventListenerName h eventName)
                   (fun _ => ret tt))).
      { apply preserves_bind;
          [apply armed_of_fixes, timerPart_updateEventListenerName|].
        intros; apply preserves_ret. }
      exact (Hp w Ha).
  - intros w [Ht Ha]. split.
    + apply tuned_onConfigChange_callback, Ht.
    + apply (armed_of_fixes _ (timerPart_onConfigChange_callback config)), Ha.
  - intros w [Ht Ha]. split.
    + apply (tuned_of_fixes _ (listenPart_fireTimer id)), Ht.
    + apply armed_fireTimer, Ha.
  - apply Hboth, standing_dispatchEvent.
  - apply Hboth, standing_settleFetch.
  - apply Hboth, standing_settleXhr.
  - apply Hboth, standing_onFetchComplete.
Qed.

Lemma standing_after (acts : list Action) (w : World) :
  tuned h w /\ armed w -> tuned h (after h helper acts w) /\
                          armed (after h helper acts w).
Proof.
  revert w. induction acts as [|a r IH]; intros w Hw; [exact Hw|].
  cbn [after]. apply IH, standing_act, Hw.
Qed.

(** [initialize] in a quiet world. *)
Lemma standing_initialize (config : IConfiguration) (w : World) :
  quiet w ->
  tuned h (exec (initialize h config) w) /\
  armed (exec (initialize h config) w).
Proof.
  intros (Hb & Ht & Hh).
  assert (Hns : (fun w => tuned h w /\ armed w)
            (exec (bind createUniqueNamespace
                     (fun ns => modEng (set_evtNamespace (Some ns)))) w)).
  { split.
    - left. cbn. unfold selfListeners.
      induction (bus w) as [|l r IH]; [reflexivity|]. cbn.
      rewrite (Hb l (or_introl eq_refl)). apply IH.
      intros l' Hl'. apply Hb. right. exact Hl'.
    - unfold armed. cbn. rewrite Ht, Hh. reflexivity. }
  assert (Hrest : preserves (fun w => tuned h w /\ armed w)
            (_populateDefaults h config)).
  { unfold _populateDefaults. apply preserves_bind.
    - exact (standing_act (AConfigChange config)).
    - intros _. apply preserves_getEng. intros s.
      destruct (_extensionConfig s) as [ext|]; [|apply preserves_throw].
      repeat (apply preserves_bind;
              [intros w1 [Ht1 Ha1]; split;
               [exact (tuned_same w1 _ eq_refl Ht1)
               |exact (armed_same w1 _ eq_refl Ha1)]
              |intros _]).
      apply preserves_getEng. intros s1. apply preserves_when.
      unfold _getFetchFnInterface.
      apply preserves_bind.
      { apply preserves_getEng. intros s2.
        destruct (_overrideFetchFn s2); [apply preserves_ret|].
        destruct (isFetchSupported h); [apply preserves_ret|].
        destruct (isXhrSupported h); apply preserves_ret. }
      intros f. apply preserves_bind;
        [intros w1 [Ht1 Ha1]; split;
         [exact (tuned_same w1 _ eq_refl Ht1)
         |exact (armed_same w1 _ eq_refl Ha1)]|intros _].
      apply preserves_getEng. intros s3. apply preserves_bind.
      { apply preserves_when. intros w1 [Ht1 Ha1].
        destruct (fixes_fst listenPart timerPart _
                    (standing_call_fetchFn (_fetchFn s3) (_cfgUrl s3)
                       (_isAutoSync s3))) as [Hl Htm].
        split; [apply (tuned_of_fixes _ Hl), Ht1
               |apply (armed_of_fixes _ Htm), Ha1]. }
      intros _ w1 [Ht1 Ha1]. split.
      + apply (tuned_of_fixes _ listenPart_setupTimer), Ht1.
      + apply armed_setupTimer, Ha1. }
  exact (Hrest _ Hns).
Qed.

End Standing.

(** ** What a completion leaves alone *)

Section Completions.

Variable h : Host.

Lemma besidesSnapshot_onFetchComplete (status : Z) (response : option string)
    (isAutoSync : option bool) :
  fixes besidesSnapshot (_onFetchComplete h status response isAutoSync).
Proof.
  intros v. unfold _onFetchComplete, _setCfg, _sendCfgsyncEvents. frame_walk.
Qed.

Lemma _onFetchComplete_total (status : Z) (response : option string)
    (isAutoSync : option bool) (w : World) :
  result (_onFetchComplete h status response isAutoSync) w = Ok tt.
Proof.
  unfold _onFetchComplete, result.
  destruct (_ && _ && _); [|reflexivity].
  unfold tryCatch. destruct (getJSON h) as [parse|]; [|reflexivity].
  unfold bind, lift. destruct (parse _) as [cfg|e]; [|reflexivity].
  destruct (truthy cfg); [|reflexivity].
  destruct (_setCfg_total h w cfg isAutoSync) as [b Hb]. unfold result in Hb.
  destruct (_setCfg h cfg isAutoSync w) as [r w1]. cbn in Hb. subst r.
  reflexivity.
Qed.

Lemma oncomplete_calls_total (cs : list (Z * option string * option bool))
    (w : World) :
  result (oncomplete_calls h cs) w = Ok tt.
Proof.
  revert w. induction cs as [|[[status response] isAutoSync] r IH]; intros w;
    [reflexivity|].
  unfold result in *. cbn [oncomplete_calls]. unfold bind.
  pose proof (_onFetchComplete_total status response isAutoSync w) as Hr.
  unfold result in Hr.
  destruct (_onFetchComplete h status response isAutoSync w) as [x w1].
  cbn in Hr. subst x. apply IH.
Qed.

Lemma besidesSnapshot_oncomplete_calls
    (cs : list (Z * option string * option bool)) :
  fixes besidesSnapshot (oncomplete_calls h cs).
Proof.
  intros v. apply preserves_oncomplete_calls. intros.
  apply besidesSnapshot_onFetchComplete.
Qed.

(** A run of completions returns normally. *)
Lemma oncomplete_calls_run (cs : list (Z * option string * option bool))
    (w : World) :
  exists w1,
    oncomplete_calls h cs w = (Ok tt, w1) /\
    besidesSnapshot w1 = besidesSnapshot w.
Proof.
  exists (exec (oncomplete_calls h cs) w). split.
  - pose proof (oncomplete_calls_total cs w) as Hr. unfold result, exec in *.
    destruct (oncomplete_calls h cs w) as [r w1]. cbn in *. subst r.
    reflexivity.
  - exact (besidesSnapshot_oncomplete_calls cs _ w eq_refl).
Qed.

(** Polling, whatever the transport, leaves the closure but for the
    snapshot, the bus and the timers as they are. *)
Lemma besidesSnapshot_call_fetchFn (f : option SendGetFunction)
    (url : option string) (isAutoSync : option bool) :
  fixes besidesSnapshot (call_fetchFn h f url isAutoSync).
Proof.
  intros v. unfold call_fetchFn. destruct f as [[| |g]|];
    unfold _fetchSender, _xhrSender; frame_walk.
  apply besidesSnapshot_oncomplete_calls.
Qed.

(** A call of the user's fetch function: the call is recorded, the
    completions it makes run, and what it returns or throws is the
    outcome. *)
Lemma call_override_run (g : UserFetchFn) (url : option string)
    (isAutoSync : option bool) (w : World) :
  exists w1,
    call_fetchFn h (Some (OverrideFetch g)) url isAutoSync w
    = (fReturned (g url isAutoSync), w1) /\
    w1 = exec (oncomplete_calls h (fCompleted (g url isAutoSync)))
           (traced w (EOverrideFetch url isAutoSync)) /\
    besidesSnapshot w1 = besidesSnapshot w.
Proof.
  destruct (oncomplete_calls_run (fCompleted (g url isAutoSync))
              (traced w (EOverrideFetch url isAutoSync)))
    as (w1 & Hrun & Hb).
  exists w1. cbn [call_fetchFn]. unfold bind at 1 2, emit, lift.
  fold (traced w (EOverrideFetch url isAutoSync)). rewrite Hrun.
  split; [reflexivity|]. split; [|exact Hb].
  unfold exec. rewrite Hrun. reflexivity.
Qed.

(** The fields an equation on [besidesSnapshot] gives. *)
Lemma besides_fields (w w' : World) :
  besidesSnapshot w' = besidesSnapshot w ->
  timerPart w' = timerPart w /\
  _cfgUrl (eng w') = _cfgUrl (eng w) /\
  _isAutoSync (eng w') = _isAutoSync (eng w) /\
  _receiveChanges (eng w') = _receiveChanges (eng w) /\
  _fetchSpan (eng w') = _fetchSpan (eng w) /\
  _fetchFn (eng w') = _fetchFn (eng w) /\
  _evtName (eng w') = _evtName (eng w) /\
  bus w' = bus w.
Proof.
  intros Hb.
  pose proof (f_equal (fun b => (snd (fst b),
                                 _timeoutHandle (fst (fst (fst b))))) Hb) as H1.
  pose proof (f_equal (fun b => _cfgUrl (fst (fst (fst b)))) Hb) as H2.
  pose proof (f_equal (fun b => _isAutoSync (fst (fst (fst b)))) Hb) as H3.
  pose proof (f_equal (fun b => _receiveChanges (fst (fst (fst b)))) Hb) as H4.
  pose proof (f_equal (fun b => _fetchSpan (fst (fst (fst b)))) Hb) as H5.
  pose proof (f_equal (fun b => _fetchFn (fst (fst (fst b)))) Hb) as H6.
  pose proof (f_equal (fun b => _evtName (fst (fst (fst b)))) Hb) as H7.
  pose proof (f_equal (fun b => snd (fst (fst b))) Hb) as H8.
  repeat split; assumption.
Qed.

End Completions.

(** ** [initialize] *)

Section Initialize.

Variable h : Host.
Variable helper : JsVal -> NonOverrideCfg -> nat -> nat -> Result JsVal.

(** [initialize] is the first notification, the options, and then
    polling if a [cfgUrl] came out of them. *)
Lemma initialize_run (config : IConfiguration) (w : World) :
  initialize h config w
  = when (truthy_str (_cfgUrl (eng (configured h config w))))
      (startPolling h) (configured h config w).
Proof.
  unfold initialize. unfold bind at 1, createUniqueNamespace at 1.
  cbv beta iota. unfold bind at 1, modEng at 1. cbv beta iota.
  unfold _populateDefaults.
  rewrite (bind_run _ _ _ _ tt (onConfigChange_callback_run h config _)).
  unfold bind at 1, getEng at 1. cbv beta iota.
  cbn [afterConfigChange eng _extensionConfig].
  repeat (unfold bind at 1, modEng at 1; cbv beta iota).
  unfold bind at 1, getEng at 1. cbv beta iota.
  reflexivity.
Qed.

Lemma orDefault_None {A} (x : option A) : orDefault x None = x.
Proof. destruct x; reflexivity. Qed.

Lemma _fetchSender_total (url : option string) (auto : option bool)
    (w : World) :
  result (_fetchSender h url auto) w = Ok tt /\
  timerPart (exec (_fetchSender h url auto) w) = timerPart w.
Proof.
  unfold _fetchSender, result, exec, tryCatch, bind, lift, mod_inflight, ret.
  destruct (_ && _ && _); [|split; reflexivity].
  destruct (newRequest h url) as [[]|e]; split; reflexivity.
Qed.

Lemma _xhrSender_total (url : option string) (auto : option bool)
    (w : World) :
  result (_xhrSender h url auto) w = Ok tt /\
  timerPart (exec (_xhrSender h url auto) w) = timerPart w.
Proof.
  unfold _xhrSender, result, exec, tryCatch, bind, lift, mod_inflight, ret.
  destruct (xhrOpenSend h url) as [[]|e]; split; reflexivity.
Qed.

Lemma _setupTimer_total (w : World) : result _setupTimer w = Ok tt.
Proof.
  unfold _setupTimer, result, bind, getEng, when.
  destruct (_ && _); reflexivity.
Qed.

(** With a falsy interval [_setupTimer] does nothing. *)
Lemma _setupTimer_idle (w : World) :
  truthy_num (_fetchSpan (eng w)) = false -> _setupTimer w = (Ok tt, w).
Proof.
  intros Hs. unfold _setupTimer, bind, getEng, when.
  rewrite Hs, andb_false_r. reflexivity.
Qed.

(** The transport [_getFetchFnInterface] resolves. *)
Lemma _getFetchFnInterface_run (w : World) :
  exists f,
    _getFetchFnInterface h w = (Ok f, w) /\
    match _overrideFetchFn (eng w) with
    | Some g => f = Some (OverrideFetch g)
    | None => f = None \/ f = Some FetchSender \/ f = Some XhrSender
    end.
Proof.
  unfold _getFetchFnInterface, bind, getEng.
  destruct (_overrideFetchFn (eng w)) as [g|].
  - eexists. split; reflexivity.
  - destruct (isFetchSupported h); [|destruct (isXhrSupported h)];
      eexists; (split; [reflexivity|]); auto.
Qed.

Lemma startPolling_unfold (w : World) (f : option SendGetFunction) :
  _getFetchFnInterface h w = (Ok f, w) ->
  startPolling h w
  = bind (when (isSome f)
            (call_fetchFn h f (_cfgUrl (eng w)) (_isAutoSync (eng w))))
      (fun _ => _setupTimer) (exec (modEng (set_fetchFn f)) w).
Proof.
  intros Hf. unfold startPolling. rewrite (bind_run _ _ _ _ _ Hf).
  reflexivity.
Qed.

(** Polling starts without an exception unless the override fetch
    function throws one; when it does, no timer is armed. *)
Lemma startPolling_cases (w : World) :
  (_overrideFetchFn (eng w) = None -> result (startPolling h) w = Ok tt) /\
  (forall g, _overrideFetchFn (eng w) = Some g ->
     fReturned (g (_cfgUrl (eng w)) (_isAutoSync (eng w))) = Ok tt ->
     result (startPolling h) w = Ok tt) /\
  (forall g e, _overrideFetchFn (eng w) = Some g ->
     fReturned (g (_cfgUrl (eng w)) (_isAutoSync (eng w))) = Throw e ->
     result (startPolling h) w = Throw e /\
     timerPart (exec (startPolling h) w) = timerPart w /\
     _cfgUrl (eng (exec (startPolling h) w)) = _cfgUrl (eng w) /\
     _isAutoSync (eng (exec (startPolling h) w)) = _isAutoSync (eng w)).
Proof.
  destruct (_getFetchFnInterface_run w) as (f & Hf & Hcase).
  unfold result, exec. rewrite (startPolling_unfold w f Hf).
  split; [|split].
  - intros Hg. rewrite Hg in Hcase.
    destruct Hcase as [->|[->| ->]]; cbn [isSome when call_fetchFn].
    + unfold bind, ret. apply _setupTimer_total.
    + unfold bind.
      match goal with |- context [_fetchSender h ?u ?a ?w'] =>
        destruct (_fetchSender_total u a w') as [Hr _]; unfold result in Hr;
        destruct (_fetchSender h u a w') as [r w1]; cbn in Hr; subst r end.
      apply _setupTimer_total.
    + unfold bind.
      match goal with |- context [_xhrSender h ?u ?a ?w'] =>
        destruct (_xhrSender_total u a w') as [Hr _]; unfold result in Hr;
        destruct (_xhrSender h u a w') as [r w1]; cbn in Hr; subst r end.
      apply _setupTimer_total.
  - intros g Hg Hok. rewrite Hg in Hcase. subst f.
    cbn [isSome when]. unfold bind.
    match goal with |- context [call_fetchFn h _ ?u ?a ?x] =>
      destruct (call_override_run h g u a x) as (x1 & Hrun & _ & Hb);
      rewrite Hrun end.
    cbn [exec snd eng set_fetchFn _cfgUrl _isAutoSync modEng]. rewrite Hok.
    apply _setupTimer_total.
  - intros g e Hg Hthrow. rewrite Hg in Hcase. subst f.
    cbn [isSome when]. unfold bind.
    match goal with |- context [call_fetchFn h _ ?u ?a ?x] =>
      destruct (call_override_run h g u a x) as (x1 & Hrun & _ & Hb);
      rewrite Hrun end.
    cbn [exec snd eng set_fetchFn _cfgUrl _isAutoSync modEng]. rewrite Hthrow.
    cbn [fst snd].
    destruct (besides_fields _ _ Hb) as (H1 & H2 & H3 & _).
    split; [reflexivity|]. split; [exact H1|]. split; [exact H2|exact H3].
Qed.

(** With a falsy interval polling arms no timer, whatever else
    happens. *)
Lemma startPolling_idle (w : World) :
  truthy_num (_fetchSpan (eng w)) = false ->
  timerPart (exec (startPolling h) w) = timerPart w.
Proof.
  intros Hs.
  assert (Hp : preserves
            (fun w' => timerPart w' = timerPart w /\
                       truthy_num (_fetchSpan (eng w')) = false)
            (startPolling h)).
  { unfold startPolling, _getFetchFnInterface.
    apply preserves_bind.
    { apply preserves_getEng. intros s.
      destruct (_overrideFetchFn s); [apply preserves_ret|].
      destruct (isFetchSupported h); [apply preserves_ret|].
      destruct (isXhrSupported h); apply preserves_ret. }
    intros f. apply preserves_bind; [intros ? Hobs; exact Hobs|intros _].
    apply preserves_getEng. intros s. apply preserves_bind.
    - apply preserves_when.
      intros w' [Ht Hf].
      destruct (besides_fields _ _
                  (besidesSnapshot_call_fetchFn h (_fetchFn s) (_cfgUrl s)
                     (_isAutoSync s) _ w' eq_refl))
        as (H1 & _ & _ & _ & H5 & _).
      rewrite H1, H5. split; assumption.
    - intros _ w' [Ht Hf]. unfold exec. rewrite (_setupTimer_idle w' Hf).
      split; assumption. }
  exact (proj1 (Hp w (conj eq_refl Hs))).
Qed.

(** X6.  [initialize] lets an exception out only when the user's
    override fetch function throws it: without an override fetch
    function it always returns normally, and when it does throw, the
    exception is the one the override threw for the latched address and
    no poll timer has been armed. *)
Theorem initialize_throws_only_from_override_fetch
    (config : IConfiguration) (w : World) :
  (overrideFetchFn (cfgExt config) = None ->
   result (initialize h config) w = Ok tt) /\
  (forall e, result (initialize h config) w = Throw e ->
     exists g,
       overrideFetchFn (cfgExt config) = Some g /\
       fReturned
         (g (_cfgUrl (eng (exec (initialize h config) w)))
            (_isAutoSync (eng (exec (initialize h config) w)))) = Throw e /\
       timers (exec (initialize h config) w) = timers w /\
       _timeoutHandle (eng (exec (initialize h config) w))
         = _timeoutHandle (eng w)).
Proof.
  unfold result, exec. rewrite initialize_run.
  set (c := configured h config w).
  assert (Hov : _overrideFetchFn (eng c) = overrideFetchFn (cfgExt config)).
  { unfold c. cbn. apply orDefault_None. }
  assert (Htp : timerPart c = timerPart w) by reflexivity.
  destruct (startPolling_cases c) as (Hnone & Hok & Hthrow).
  destruct (truthy_str (_cfgUrl (eng c))); cbn [when].
  - split.
    + intros Hn. apply Hnone. rewrite Hov. exact Hn.
    + intros e He.
      destruct (overrideFetchFn (cfgExt config)) as [g|] eqn:Hg.
      2:{ unfold result in Hnone. rewrite (Hnone Hov) in He. discriminate. }
      exists g. split; [reflexivity|].
      destruct (fReturned (g (_cfgUrl (eng c)) (_isAutoSync (eng c))))
        as [[]|e'] eqn:Hcall.
      { unfold result in Hok. rewrite (Hok g Hov Hcall) in He. discriminate. }
      destruct (Hthrow g e' Hov Hcall) as (Hr & Ht & Hu & Ha).
      unfold result, exec in *. rewrite Hr in He. injection He as <-.
      rewrite Hu, Ha. split; [exact Hcall|].
      unfold timerPart in Ht. injection Ht as Ht1 Ht2.
      split; [exact Ht1|exact Ht2].
  - split; [reflexivity|]. intros e He. discriminate.
Qed.

(** X7.  With [scheduleFetchTimeout] set to 0, [initialize] arms no poll
    timer, whether or not a [cfgUrl] is set and whatever the first fetch
    does. *)
Theorem initialize_zero_interval_arms_no_timer
    (config : IConfiguration) (w : World) :
  scheduleFetchTimeout (cfgExt config) = Some 0 ->
  timers (exec (initialize h config) w) = timers w /\
  _timeoutHandle (eng (exec (initialize h config) w))
    = _timeoutHandle (eng w).
Proof.
  intros Hz. unfold exec. rewrite initialize_run.
  set (c := configured h config w).
  assert (Htp : timerPart c = timerPart w) by reflexivity.
  assert (Hs : truthy_num (_fetchSpan (eng c)) = false).
  { unfold c. cbn. rewrite Hz. reflexivity. }
  assert (Hfin : timerPart
            (snd (when (truthy_str (_cfgUrl (eng c))) (startPolling h) c))
            = timerPart w).
  { destruct (truthy_str (_cfgUrl (eng c))); cbn [when];
      [|exact Htp].
    rewrite <- Htp. apply (startPolling_idle c Hs). }
  unfold timerPart in Hfin. injection Hfin as H1 H2. split; assumption.
Qed.

End Initialize.

(** X6 on a concrete page: the override fetch function is down. *)
Lemma initialize_throws_witness :
  exists g,
    overrideFetchFn (cfgExt failingConfig) = Some g /\
    fReturned
      (g (_cfgUrl (eng (exec (initialize browser failingConfig) world0)))
         (_isAutoSync (eng (exec (initialize browser failingConfig) world0))))
      = Throw (UserError "down") /\
    timers (exec (initialize browser failingConfig) world0) = timers world0 /\
    _timeoutHandle (eng (exec (initialize browser failingConfig) world0))
      = _timeoutHandle (eng world0).
Proof.
  refine (proj2 (initialize_throws_only_from_override_fetch browser
                   failingConfig world0) (UserError "down") _).
  vm_compute. reflexivity.
Defined.

(** X7 on a concrete page: the interval is 0. *)
Lemma initialize_zero_interval_witness :
  timers (exec (initialize browser fetchOnceConfig) world0) = timers world0 /\
  _timeoutHandle (eng (exec (initialize browser fetchOnceConfig) world0))
    = _timeoutHandle (eng world0).
Proof.
  exact (initialize_zero_interval_arms_no_timer browser fetchOnceConfig world0
           eq_refl).
Defined.

(** The first fetch still goes out when the interval is 0. *)
Example fetch_once :
  inflight (exec (initialize browser fetchOnceConfig) world0) = [firstRequest].
Proof. vm_compute. reflexivity. Qed.

(** ** Across lifecycles *)

Section Lifecycles.

Variable h : Host.
Variable helper : JsVal -> NonOverrideCfg -> nat -> nat -> Result JsVal.

(** Between lifecycles the plugin is quiet. *)
Lemma lifecycles_quiet (runs : list (IConfiguration * list Action))
    (w : World) :
  quiet w -> quiet (lifecycles h helper runs w).
Proof.
  revert w. induction runs as [|[config acts] r IH]; intros w Hw; [exact Hw|].
  cbn [lifecycles]. apply IH, _doTeardown_quiet, running_after,
    initialize_running, Hw.
Qed.

Lemma standing_lifecycle (runs : list (IConfiguration * list Action))
    (config : IConfiguration) (acts : list Action) :
  tuned h (after h helper acts
             (exec (initialize h config) (lifecycles h helper runs world0)))
  /\
  armed (after h helper acts
           (exec (initialize h config) (lifecycles h helper runs world0))).
Proof.
  apply standing_after, (standing_initialize h helper), lifecycles_quiet,
    world0_quiet.
Qed.

(** X8.  At most one poll timer is ever pending, and it is the one
    [_timeoutHandle] holds: this is so after any number of lifecycles,
    an [initialize] and any run of public calls, config changes, timer
    fires, bus events and transport completions. *)
Theorem poll_timer_is_single (runs : list (IConfiguration * list Action))
    (config : IConfiguration) (acts : list Action) :
  timers (after h helper acts
            (exec (initialize h config) (lifecycles h helper runs world0)))
  = match _timeoutHandle
            (eng (after h helper acts
                    (exec (initialize h config)
                       (lifecycles h helper runs world0)))) with
    | Some id => [id]
    | None => []
    end.
Proof. exact (proj2 (standing_lifecycle runs config acts)). Qed.

Lemma selfListeners_In (l : Listener) (b : list Listener) :
  In l b -> lSelf l = true -> In l (selfListeners b).
Proof. intros Hl Hs. apply filter_In. split; assumption. Qed.

(** An event that matches no listener of the plugin changes nothing. *)
Lemma runListeners_skip (ls : list Listener) (name : option string)
    (event : JsVal) (w : World) :
  (forall l, In l ls -> lSelf l && opt_str_eqb (lName l) name = false) ->
  runListeners h helper ls name event w = (Ok tt, w).
Proof.
  induction ls as [|l r IH]; intros Hall; [reflexivity|].
  cbn [runListeners]. rewrite (Hall l (or_introl eq_refl)). cbn.
  apply IH. intros l' Hl'. apply Hall. right. exact Hl'.
Qed.

(** X9.  The plugin never has more than one listener on the bus.  When
    it has one, the host has a global object, receive mode is on, and
    the listener sits under the stored event name and the plugin's
    namespace; so an event dispatched under any other name, or to a
    plugin that is not in receive mode, changes nothing.  This is so
    after any number of lifecycles, an [initialize] and any run of
    actions. *)
Theorem plugin_listens_at_most_once
    (runs : list (IConfiguration * list Action)) (config : IConfiguration)
    (acts : list Action) :
  let w := after h helper acts
             (exec (initialize h config) (lifecycles h helper runs world0)) in
  (List.length (selfListeners (bus w)) <= 1)%nat /\
  (forall l, In l (bus w) -> lSelf l = true ->
     getGlobal h = true /\
     truthy_bool (_receiveChanges (eng w)) = true /\
     lName l = _evtName (eng w) /\ lNs l = _evtNamespace (eng w)) /\
  (forall name event,
     name <> _evtName (eng w) \/ truthy_bool (_receiveChanges (eng w)) = false ->
     dispatchEvent h helper name event w = (Ok tt, w)).
Proof.
  intros w. destruct (standing_lifecycle runs config acts) as [Ht _].
  fold w in Ht.
  assert (Hown : forall l, In l (bus w) -> lSelf l = true ->
            getGlobal h = true /\
            truthy_bool (_receiveChanges (eng w)) = true /\
            lName l = _evtName (eng w) /\ lNs l = _evtNamespace (eng w)).
  { intros l Hl Hs. pose proof (selfListeners_In l _ Hl Hs) as Hin.
    destruct Ht as [Hnone|(Hg & Hr & Hone)].
    - rewrite Hnone in Hin. destruct Hin.
    - rewrite Hone in Hin. destruct Hin as [<-|[]]. auto. }
  split; [|split; [exact Hown|]].
  - destruct Ht as [->|(_ & _ & ->)]; cbn; lia.
  - intros name event Hcase. unfold dispatchEvent.
    apply runListeners_skip. intros l Hl.
    destruct (lSelf l) eqn:Hs; [|reflexivity]. cbn.
    destruct (Hown l Hl Hs) as (_ & Hr & Hn & _).
    destruct Hcase as [Hne|Hoff]; [|congruence].
    destruct (opt_str_eqb (lName l) name) eqn:Heq; [|reflexivity].
    apply opt_str_eqb_eq in Heq. congruence.
Qed.

End Lifecycles.

(** X9 on a concrete page: an event under another name reaches a page in
    receive mode. *)
Lemma plugin_listens_witness :
  dispatchEvent browser replaceByNonOverrideCfg (Some "other") peerEvent
    (after browser replaceByNonOverrideCfg []
       (exec (initialize browser receivingConfig)
          (lifecycles browser replaceByNonOverrideCfg [] world0)))
  = (Ok tt,
     after browser replaceByNonOverrideCfg []
       (exec (initialize browser receivingConfig)
          (lifecycles browser replaceByNonOverrideCfg [] world0))).
Proof.
  refine (proj2 (proj2 (plugin_listens_at_most_once browser
                          replaceByNonOverrideCfg [] receivingConfig []))
            (Some "other") peerEvent _).
  left. vm_compute. discriminate.
Defined.

(** ** The first broadcast, and latches across a teardown *)

Section FirstBroadcast.

Variable h : Host.

Lemma truthy_bool_disableAutoSync_default (x : option bool) :
  truthy_bool (orDefault x (Some false)) = truthy_bool x.
Proof. destruct x; reflexivity. Qed.

(** X10.  In a fresh closure, [initialize] without a [cfgUrl] and with
    auto-sync on returns normally and broadcasts the host configuration
    once, on the bus, even when the configuration names an override sync
    function: [_overrideSyncFn] is assigned only after the first
    notification has run, so the override sees later broadcasts but not
    the first. *)
Theorem initialize_first_broadcast_is_on_the_bus
    (config : IConfiguration) (w : World) :
  _overrideSyncFn (eng w) = None ->
  _cfgUrl (eng w) = None ->
  _isAutoSync (eng w) = None ->
  truthy_str (cfgUrl (cfgExt config)) = false ->
  truthy_bool (disableAutoSync (cfgExt config)) = false ->
  result (initialize h config) w = Ok tt /\
  trace (exec (initialize h config) w)
    = trace w
      ++ [ESendCustomEvent (newEvtName config) (cfgTree config) JUndef] /\
  _mainConfig (eng (exec (initialize h config) w)) = cfgTree config /\
  _overrideSyncFn (eng (exec (initialize h config) w))
    = overrideSyncFn (cfgExt config).
Proof.
  intros Ho Hu Ha Hcu Hda. unfold result, exec. rewrite initialize_run.
  set (c := configured h config w).
  assert (Hurl : truthy_str (_cfgUrl (eng c)) = false).
  { unfold c. cbn. rewrite Hu. cbn. rewrite orDefault_None. exact Hcu. }
  rewrite Hurl. cbn [when fst snd].
  split; [reflexivity|]. unfold c. cbn.
  rewrite Hu, Ha. cbn. rewrite orDefault_None, Hcu.
  change (default false ?x) with (truthy_bool x).
  rewrite truthy_bool_disableAutoSync_default, Hda. cbn.
  unfold broadcastOf. cbn. rewrite Ho.
  split; [reflexivity|]. split; [reflexivity|]. apply orDefault_None.
Qed.

(** X11.  Latches last one lifecycle: after a teardown, the next
    [initialize] takes auto-sync, receive mode and the address from the
    configuration it is given, whatever they were before. *)
Theorem reinitialize_latches_afresh (config : IConfiguration) (w : World) :
  let w' := exec (initialize h config) (exec (_doTeardown h) w) in
  _isAutoSync (eng w')
    = Some (negb (truthy_bool (disableAutoSync (cfgExt config)))) /\
  _receiveChanges (eng w')
    = Some (truthy_bool (receiveChanges (cfgExt config))) /\
  _cfgUrl (eng w') = cfgUrl (cfgExt config).
Proof.
  intros w'.
  assert (Hfix : forall c,
            _isAutoSync (eng (exec (startPolling h) c)) = _isAutoSync (eng c)
            /\ _receiveChanges (eng (exec (startPolling h) c))
               = _receiveChanges (eng c)
            /\ _cfgUrl (eng (exec (startPolling h) c)) = _cfgUrl (eng c)).
  { intros c.
    assert (Hp : fixes (fun x => (_isAutoSync (eng x), _receiveChanges (eng x),
                                  _cfgUrl (eng x)))
                   (startPolling h)).
    { intros v. unfold startPolling, _getFetchFnInterface.
      apply preserves_bind.
      { apply preserves_getEng. intros s.
        destruct (_overrideFetchFn s); [apply preserves_ret|].
        destruct (isFetchSupported h); [apply preserves_ret|].
        destruct (isXhrSupported h); apply preserves_ret. }
      intros f. apply preserves_bind; [intros ? Hobs; exact Hobs|intros _].
      apply preserves_getEng. intros s. apply preserves_bind.
      - apply preserves_when. intros x Hx.
        destruct (besides_fields _ _
                    (besidesSnapshot_call_fetchFn h (_fetchFn s) (_cfgUrl s)
                       (_isAutoSync s) _ x eq_refl))
          as (_ & H2 & H3 & H4 & _).
        cbv beta. rewrite H2, H3, H4. exact Hx.
      - intros _. unfold _setupTimer, scheduleTimeout. frame_walk. }
    pose proof (Hp _ c eq_refl) as H. cbv beta in H.
    injection H as H1 H2 H3. auto. }
  destruct (_doTeardown_run h w) as (_ & He & _).
  unfold w', exec at 1 3 5. rewrite initialize_run.
  set (c := configured h config (exec (_doTeardown h) w)).
  assert (Hc : _isAutoSync (eng c)
               = Some (negb (truthy_bool (disableAutoSync (cfgExt config))))
               /\ _receiveChanges (eng c)
                  = Some (truthy_bool (receiveChanges (cfgExt config)))
               /\ _cfgUrl (eng c) = cfgUrl (cfgExt config)).
  { unfold c. cbn. rewrite He. cbn.
    rewrite truthy_bool_disableAutoSync_default, orDefault_None.
    repeat split. destruct (receiveChanges (cfgExt config)); reflexivity. }
  destruct Hc as (Hc1 & Hc2 & Hc3).
  destruct (truthy_str (_cfgUrl (eng c))); cbn [when snd].
  - destruct (Hfix c) as (H1 & H2 & H3). unfold exec in H1, H2, H3.
    rewrite H1, H2, H3. auto.
  - auto.
Qed.

End FirstBroadcast.

(** X10 on a concrete page: an override sync function is configured. *)
Lemma initialize_first_broadcast_witness :
  trace (exec (initialize browser overridingConfig) world0)
    = trace world0
      ++ [ESendCustomEvent (newEvtName overridingConfig)
            (cfgTree overridingConfig) JUndef] /\
  _overrideSyncFn (eng (exec (initialize browser overridingConfig) world0))
    = overrideSyncFn (cfgExt overridingConfig).
Proof.
  destruct (initialize_first_broadcast_is_on_the_bus browser overridingConfig
              world0 eq_refl eq_refl eq_refl eq_refl eq_refl)
    as (_ & Ht & _ & Ho).
  split; [exact Ht|exact Ho].
Defined.

(** The override sees the next broadcast. *)
Example override_sees_later_broadcasts :
  trace (exec (sync browser JUndef)
           (exec (initialize browser overridingConfig) world0))
  = [ESendCustomEvent (Some "cfgsync") sampleTree JUndef;
     EOverrideSync sampleTree JUndef].
Proof. vm_compute. reflexivity. Qed.

(** ** Polling *)

Section Polling.

Variable h : Host.

(** X12.  A poll timer that fires on a plugin with a built-in transport
    and a non-zero interval returns normally and arms exactly one new
    timer, whose handle is stored; it sends nothing, leaves the bus and
    the snapshot alone and puts out at most one request, for the stored
    address with the stored auto-sync flag. *)
Theorem timer_tick_polls_and_rearms (id : nat) (w : World) :
  timers w = [id] ->
  _fetchFn (eng w) = Some FetchSender \/ _fetchFn (eng w) = Some XhrSender ->
  truthy_num (_fetchSpan (eng w)) = true ->
  let w' := exec (fireTimer h id) w in
  result (fireTimer h id) w = Ok tt /\
  timers w' = [nextId w] /\
  _timeoutHandle (eng w') = Some (nextId w) /\
  nextId w' = S (nextId w) /\
  trace w' = trace w /\
  bus w' = bus w /\
  _mainConfig (eng w') = _mainConfig (eng w) /\
  (inflight w' = inflight w \/
   exists via, inflight w' = inflight w ++ [pollOf via w]).
Proof.
  intros Ht Hf Hs w'. unfold w', fireTimer, result, exec.
  rewrite Ht. cbn [existsb]. rewrite Nat.eqb_refl. cbn [orb].
  unfold cancel, mod_timers, _setupTimer_callback, _setupTimer,
    scheduleTimeout, bind, modEng, getEng, when.
  cbn. rewrite Ht. cbn [List.filter]. rewrite Nat.eqb_refl. cbn [negb].
  destruct Hf as [Hf|Hf]; rewrite Hf; cbn [call_fetchFn];
    unfold _fetchSender, _xhrSender, tryCatch, bind, lift, mod_inflight, ret.
  - destruct (truthy_str (_cfgUrl (eng w)) && getGlobal h && globalFetch h);
      [destruct (newRequest h (_cfgUrl (eng w))) as [[]|e]|];
      cbn; rewrite Hs; cbn; repeat split; auto;
      right; exists ViaFetch; reflexivity.
  - destruct (xhrOpenSend h (_cfgUrl (eng w))) as [[]|e];
      cbn; rewrite Hs; cbn; repeat split; auto;
      right; exists ViaXhr; reflexivity.
Qed.

Lemma existsb_pending_false (p : Pending) (l : list Pending) :
  existsb (pending_eqb p) l = false -> remove_pending p l = l.
Proof.
  induction l as [|q r IH]; [reflexivity|]. cbn.
  destruct (pending_eqb p q); [discriminate|]. cbn. intros Hr.
  rewrite (IH Hr). reflexivity.
Qed.

Lemma answered_absent (p : Pending) (w : World) :
  existsb (pending_eqb p) (inflight w) = false -> answered p w = w.
Proof.
  intros Hp. unfold answered. rewrite (existsb_pending_false _ _ Hp).
  destruct w; reflexivity.
Qed.

Lemma inflight_onFetchComplete (status : Z) (response : option string)
    (isAutoSync : option bool) :
  fixes inflight (_onFetchComplete h status response isAutoSync).
Proof.
  intros v. unfold _onFetchComplete, _setCfg, _sendCfgsyncEvents. frame_walk.
Qed.

(** A response that reaches the callback leaves the timers, the handle
    and the transport, and the queue as it finds it. *)
Lemma _doOnComplete_poll (status : Z) (text : option string)
    (isAutoSync : option bool) (w : World) :
  let w' := exec (_doOnComplete (_onFetchComplete h) status text isAutoSync)
              w in
  timers w' = timers w /\
  _timeoutHandle (eng w') = _timeoutHandle (eng w) /\
  _fetchFn (eng w') = _fetchFn (eng w) /\
  inflight w' = inflight w.
Proof.
  intros w'.
  assert (Hb : preserves (fun x => besidesSnapshot x = besidesSnapshot w)
            (_doOnComplete (_onFetchComplete h) status text isAutoSync)).
  { apply preserves_tryCatch;
      [apply besidesSnapshot_onFetchComplete|apply preserves_ret]. }
  assert (Hi : preserves (fun x => inflight x = inflight w)
            (_doOnComplete (_onFetchComplete h) status text isAutoSync)).
  { apply preserves_tryCatch;
      [apply inflight_onFetchComplete|apply preserves_ret]. }
  destruct (besides_fields _ _ (Hb w eq_refl)) as (H1 & _ & _ & _ & _ & H6 & _).
  unfold timerPart in H1. fold w' in H1, H6.
  pose proof (f_equal fst H1) as Ht. pose proof (f_equal snd H1) as Hh.
  cbn [fst snd] in Ht, Hh.
  split; [exact Ht|]. split; [exact Hh|]. split; [exact H6|].
  exact (Hi w eq_refl).
Qed.

(** X13.  A response never throws into the host, whatever the transport
    reports, the parser does with the body or the send of the new
    snapshot does.  It arms and cancels no timer, leaves the resolved
    transport alone, and takes the request it answers, and no other, off
    the queue of outstanding requests. *)
Theorem responses_never_throw_nor_touch_the_timer (p : Pending)
    (outcome : FetchOutcome) (status : Z) (text : option string) (w : World) :
  result (settleFetch h p outcome) w = Ok tt /\
  result (settleXhr h p status text) w = Ok tt /\
  (forall m,
     m = settleFetch h p outcome \/ m = settleXhr h p status text ->
     timers (exec m w) = timers w /\
     _timeoutHandle (eng (exec m w)) = _timeoutHandle (eng w) /\
     _fetchFn (eng (exec m w)) = _fetchFn (eng w) /\
     inflight (exec m w) = remove_pending p (inflight w)).
Proof.
  assert (Hf : settleFetch h p outcome w
               = if existsb (pending_eqb p) (inflight w)
                 then _fetchSender_settled (_onFetchComplete h) (pAuto p)
                        outcome (answered p w)
                 else (Ok tt, w)) by reflexivity.
  assert (Hx : settleXhr h p status text w
               = if existsb (pending_eqb p) (inflight w)
                 then _doOnComplete (_onFetchComplete h) status text (pAuto p)
                        (answered p w)
                 else (Ok tt, w)) by reflexivity.
  assert (Hdone : forall st tx,
            fst (_doOnComplete (_onFetchComplete h) st tx (pAuto p)
                   (answered p w)) = Ok tt).
  { intros st tx. apply (_doOnComplete_total (pAuto p) (answered p w)). }
  pose proof (fun st tx => _doOnComplete_poll st tx (pAuto p) (answered p w))
    as Hpoll. cbv zeta in Hpoll. unfold exec in Hpoll.
  assert (Hall : forall m,
            m = settleFetch h p outcome \/ m = settleXhr h p status text ->
            fst (m w) = Ok tt /\
            timers (snd (m w)) = timers w /\
            _timeoutHandle (eng (snd (m w))) = _timeoutHandle (eng w) /\
            _fetchFn (eng (snd (m w))) = _fetchFn (eng w) /\
            inflight (snd (m w)) = remove_pending p (inflight w)).
  { intros m Hm.
    destruct (existsb (pending_eqb p) (inflight w)) eqn:Hp.
    - destruct Hm as [->| ->]; [rewrite Hf|rewrite Hx].
      + destruct outcome as [|[|] st res]; cbn [_fetchSender_settled];
          try (repeat split; reflexivity).
        split; [apply Hdone|apply Hpoll].
      + split; [apply Hdone|apply Hpoll].
    - rewrite (existsb_pending_false p _ Hp).
      destruct Hm as [->| ->]; [rewrite Hf|rewrite Hx];
        repeat split; reflexivity. }
  unfold result, exec.
  split; [apply (Hall _ (or_introl eq_refl))|].
  split; [apply (Hall _ (or_intror eq_refl))|].
  intros m Hm. apply (Hall m Hm).
Qed.

(** X14.  A poll that failed only leaves the queue of outstanding
    requests: when the fetch is rejected, the response is not [ok], the
    status is outside [200,400) or the body is missing or empty, the
    world afterwards is the one before without the request. *)
Theorem failed_poll_only_leaves_the_queue (p : Pending) (status : Z)
    (text : option string) (w : World) :
  status < 200 \/ 400 <= status \/ text = None \/ text = Some "" ->
  settleXhr h p status text w = (Ok tt, answered p w) /\
  settleFetch h p
    (FetchResolved true status
       match text with Some t => TextResolved t | None => TextRejected end) w
  = (Ok tt, answered p w) /\
  settleFetch h p FetchRejected w = (Ok tt, answered p w) /\
  (forall st res,
     settleFetch h p (FetchResolved false st res) w = (Ok tt, answered p w)).
Proof.
  intros Hbad.
  assert (Hguard : (200 <=? status) && (status <? 400) && truthy_str text
                   = false).
  { destruct Hbad as [H | [H | [ -> | -> ] ] ].
    - apply Z.leb_gt in H. rewrite H. reflexivity.
    - apply Z.ltb_ge in H. rewrite H, andb_false_r. reflexivity.
    - apply andb_false_r.
    - apply andb_false_r. }
  unfold settleFetch, settleXhr.
  destruct (existsb (pending_eqb p) (inflight w)) eqn:Hp.
  - unfold bind, mod_inflight, _xhrSender_onreadystatechange,
      _fetchSender_settled, _doOnComplete, tryCatch, _onFetchComplete.
    cbn [Nat.eqb XHR_DONE]. rewrite Hguard.
    assert (Hguard' : (200 <=? status) && (status <? 400)
                      && truthy_str
                           match
                             match text with
                             | Some t => TextResolved t
                             | None => TextRejected
                             end
                           with
                           | TextResolved t => Some t
                           | TextRejected => None
                           end = false).
    { destruct text; exact Hguard. }
    rewrite Hguard'. repeat split; reflexivity.
  - rewrite (answered_absent p w Hp). repeat split; reflexivity.
Qed.

(** X15.  Over the events of one XHR request the handler never throws,
    whatever the callback does, and it calls back once for each event at
    [DONE], in order, with the status and the text of that event. *)
Theorem xhr_events_call_back_in_order (oncomplete : OnCompleteCallback)
    (isAutoSync : option bool) (evs : list (nat * Z * option string))
    (w : World) :
  result (xhr_events oncomplete isAutoSync evs) w = Ok tt /\
  trace (exec (xhr_events recordComplete isAutoSync evs) w)
  = trace w ++ completions isAutoSync evs.
Proof.
  split.
  - revert w. induction evs as [|[[rs st] tx] evs IH]; intros w;
      [reflexivity|].
    unfold result in *. cbn [xhr_events]. unfold bind.
    assert (Hh : fst (_xhrSender_onreadystatechange oncomplete isAutoSync rs
                        st tx w) = Ok tt).
    { unfold _xhrSender_onreadystatechange.
      destruct (Nat.eqb rs XHR_DONE); [|reflexivity].
      apply (_doOnComplete_total isAutoSync w). }
    destruct (_xhrSender_onreadystatechange oncomplete isAutoSync rs st tx w)
      as [r w1]. cbn in Hh. subst r. apply IH.
  - revert w. induction evs as [|[[rs st] tx] evs IH]; intros w.
    + cbn. rewrite app_nil_r. reflexivity.
    + unfold exec in *. cbn [xhr_events]. unfold bind.
      rewrite _xhrSender_onreadystatechange_calls.
      unfold completions. cbn [List.filter fst snd].
      destruct (Nat.eqb rs XHR_DONE).
      * rewrite IH. cbn [traced trace List.map fst snd].
        rewrite <- app_assoc. reflexivity.
      * apply IH.
Qed.

(** X16.  The public [setCfg] never throws.  A falsy config changes
    nothing and gives false.  For a truthy config on a plugin with
    auto-sync on, the call the plugin makes is the broadcast of the new
    config, to the override sync function if the closure holds one, else
    on the bus under the stored event name; [setCfg] returns what that
    call returned, false when it threw. *)
Theorem setCfg_broadcasts_new_config (config : JsVal) (w : World) :
  (exists b, result (setCfg h config) w = Ok b) /\
  (truthy config = false -> setCfg h config w = (Ok false, w)) /\
  (truthy config = true -> truthy_bool (_isAutoSync (eng w)) = true ->
   result (setCfg h config) w = Ok (sendResult h w config) /\
   firstCall w (exec (setCfg h config) w)
     = Some (broadcastOf w (_evtName (eng w)) config)).
Proof.
  split; [|split].
  - unfold setCfg, result, bind, getEng.
    apply (_setCfg_total h w config (_isAutoSync (eng w))).
  - unfold setCfg, _setCfg, bind, getEng. intros ->. reflexivity.
  - unfold setCfg, _setCfg, bind, getEng, result, exec.
    intros -> ->. unfold modEng. cbn [fst snd].
    set (w1 := {| eng := set_mainConfig config (eng w); bus := bus w;
                  timers := timers w; nextId := nextId w;
                  inflight := inflight w; trace := trace w |}).
    unfold sendResult, broadcastOf.
    destruct (_overrideSyncFn (eng w)) as [f|] eqn:Hf.
    + rewrite (_sendCfgsyncEvents_override h w1 JUndef f Hf).
      split; [reflexivity|]. apply (firstCall_app _ _ _ []). reflexivity.
    + rewrite (_sendCfgsyncEvents_bus h w1 JUndef Hf).
      split; [reflexivity|]. apply (firstCall_app _ _ _ []). reflexivity.
Qed.

End Polling.

(** X12 on a concrete page: the first tick of a polling page. *)
Lemma timer_tick_witness :
  result (fireTimer browser 1) pollingWorld = Ok tt /\
  timers (exec (fireTimer browser 1) pollingWorld) = [nextId pollingWorld].
Proof.
  assert (Ht : timers pollingWorld = [1%nat]) by (vm_compute; reflexivity).
  assert (Hf : _fetchFn (eng pollingWorld) = Some FetchSender
               \/ _fetchFn (eng pollingWorld) = Some XhrSender)
    by (left; vm_compute; reflexivity).
  assert (Hs : truthy_num (_fetchSpan (eng pollingWorld)) = true)
    by (vm_compute; reflexivity).
  destruct (timer_tick_polls_and_rearms browser 1%nat pollingWorld Ht Hf Hs)
    as (Hr & Htm & _).
  split; [exact Hr|exact Htm].
Defined.

(** X14 on a concrete page: the remote answers 404. *)
Lemma failed_poll_witness :
  settleXhr browser firstRequest 404 (Some "Not Found") pollingWorld
  = (Ok tt, answered firstRequest pollingWorld).
Proof.
  refine (proj1 (failed_poll_only_leaves_the_queue browser firstRequest 404
                   (Some "Not Found") pollingWorld _)).
  right. left. lia.
Defined.

(** X16 on a concrete page: a new config is set by hand. *)
Lemma setCfg_broadcasts_witness :
  firstCall syncedWorld (exec (setCfg browser sampleTree) syncedWorld)
  = Some (broadcastOf syncedWorld (_evtName (eng syncedWorld)) sampleTree).
Proof.
  assert (Hc : truthy sampleTree = true) by reflexivity.
  assert (Ha : truthy_bool (_isAutoSync (eng syncedWorld)) = true)
    by (vm_compute; reflexivity).
  destruct (proj2 (proj2 (setCfg_broadcasts_new_config browser sampleTree
                            syncedWorld)) Hc Ha) as (_ & Ht).
  exact Ht.
Defined.

(** ** Events on the bus *)

Section Listening.

Variable h : Host.
Variable helper : JsVal -> NonOverrideCfg -> nat -> nat -> Result JsVal.

Lemma opt_str_eqb_refl (a : option string) : opt_str_eqb a a = true.
Proof. destruct a as [s|]; [apply String.eqb_refl|reflexivity]. Qed.

Lemma selfListeners_none (ls : list Listener) :
  selfListeners ls = [] -> forall l, In l ls -> lSelf l = false.
Proof.
  intros Hn l Hl. destruct (lSelf l) eqn:Hs; [|reflexivity].
  pose proof (proj2 (filter_In lSelf l ls) (conj Hl Hs)) as Hin.
  unfold selfListeners in Hn. rewrite Hn in Hin. destruct Hin.
Qed.

Lemma runListeners_deaf (ls : list Listener) (name : option string)
    (event : JsVal) (w : World) :
  selfListeners ls = [] ->
  runListeners h helper ls name event w = (Ok tt, w).
Proof.
  intros Hn. induction ls as [|l r IH]; [reflexivity|].
  cbn [runListeners].
  rewrite (selfListeners_none _ Hn l (or_introl eq_refl)). cbn.
  apply IH. unfold selfListeners in *. cbn [List.filter] in Hn.
  destruct (lSelf l); [discriminate|exact Hn].
Qed.

(** With one listener of the plugin on the bus, under the name of the
    event, the handler runs once. *)
Lemma runListeners_once (ls : list Listener) (l : Listener)
    (event : JsVal) (w : World) :
  selfListeners ls = [l] ->
  runListeners h helper ls (lName l) event w
  = tryCatch (onCfgSyncEvent h helper event) (ret tt) w.
Proof.
  induction ls as [|x r IH]; intros Hone; [discriminate|].
  cbn [runListeners]. unfold selfListeners in *. cbn [List.filter] in Hone.
  destruct (lSelf x) eqn:Hs.
  - injection Hone as -> Hr. rewrite opt_str_eqb_refl. cbn [andb when].
    unfold bind, tryCatch.
    destruct (onCfgSyncEvent h helper event w) as [[[]|e] w1]; cbn [ret];
      apply (runListeners_deaf r _ event w1 Hr).
  - cbn. apply IH, Hone.
Qed.

(** X17.  An event dispatched under the stored event name to a plugin
    that has a listener on the bus runs the handler exactly once, and
    what the handler throws does not reach the bus.  This is so after
    any number of lifecycles, an [initialize] and any run of actions. *)
Theorem matching_event_is_handled_once
    (runs : list (IConfiguration * list Action)) (config : IConfiguration)
    (acts : list Action) (event : JsVal) :
  let w := after h helper acts
             (exec (initialize h config) (lifecycles h helper runs world0)) in
  selfListeners (bus w) <> [] ->
  dispatchEvent h helper (_evtName (eng w)) event w
    = tryCatch (onCfgSyncEvent h helper event) (ret tt) w /\
  result (dispatchEvent h helper (_evtName (eng w)) event) w = Ok tt.
Proof.
  intros w Hsome. destruct (standing_lifecycle h helper runs config acts)
    as [[Hnone|(_ & _ & Hone)] _]; fold w in Hnone || fold w in Hone.
  - contradiction.
  - assert (Heq : dispatchEvent h helper (_evtName (eng w)) event w
                  = tryCatch (onCfgSyncEvent h helper event) (ret tt) w).
    { unfold dispatchEvent.
      exact (runListeners_once (bus w) _ event w Hone). }
    split; [exact Heq|]. unfold result. rewrite Heq. unfold tryCatch.
    destruct (onCfgSyncEvent h helper event w) as [[[]|e] w1]; reflexivity.
Qed.

Lemma notifications_same_name (cfgs : list IConfiguration) (w : World) :
  (forall c, In c cfgs -> newEvtName c = _evtName (eng w)) ->
  bus (exec (notifications h cfgs) w) = bus w /\
  _evtName (eng (exec (notifications h cfgs) w)) = _evtName (eng w).
Proof.
  revert w. induction cfgs as [|c r IH]; intros w Hall;
    [split; reflexivity|].
  unfold exec in *. cbn [notifications]. unfold bind.
  rewrite onConfigChange_callback_run.
  pose proof (Hall c (or_introl eq_refl)) as Hc.
  assert (Hb : bus (afterConfigChange h c w) = bus w).
  { cbn. rewrite Hc, opt_str_eqb_refl. reflexivity. }
  assert (Hn : _evtName (eng (afterConfigChange h c w)) = _evtName (eng w))
    by exact Hc.
  destruct (IH (afterConfigChange h c w)) as [H1 H2].
  { intros c' Hc'. rewrite Hn. apply Hall. right. exact Hc'. }
  rewrite H1, H2. split; assumption.
Qed.

(** X18.  [updateEventListenerName] called without a name detaches the
    plugin's listener and attaches none, while the stored event name
    stays; change notifications that keep the event name do not attach
    one again, so from then on no event reaches the plugin, receive mode
    or not. *)
Theorem nameless_rename_stops_receiving (name : option string)
    (cfgs : list IConfiguration) (w : World) :
  tuned h w -> truthy_str name = false ->
  (forall c, In c cfgs -> newEvtName c = _evtName (eng w)) ->
  let w' := exec (notifications h cfgs)
              (exec (updateEventListenerName h name) w) in
  result (updateEventListenerName h name) w = Ok true /\
  _evtName (eng w') = _evtName (eng w) /\
  _receiveChanges (eng (exec (updateEventListenerName h name) w))
    = _receiveChanges (eng w) /\
  selfListeners (bus w') = [] /\
  (forall n event, dispatchEvent h helper n event w' = (Ok tt, w')).
Proof.
  intros Ht Hname Hall w'.
  destruct (_updateEventListenerName_run h name w) as (Hr & He & Hb & _).
  rewrite Hname in He. rewrite Hname in Hb. cbn [andb] in Hb.
  rewrite app_nil_r in Hb.
  set (w1 := exec (updateEventListenerName h name) w) in *.
  change (exec (_updateEventListenerName h name) w) with w1 in He, Hb.
  destruct (notifications_same_name cfgs w1) as [Hb' Hn'].
  { intros c Hc. rewrite He. apply Hall, Hc. }
  fold w' in Hb', Hn'.
  assert (Hdeaf : selfListeners (bus w') = []).
  { rewrite Hb', Hb. destruct (getGlobal h) eqn:Hg.
    - apply (tuned_others h), Ht.
    - destruct Ht as [Hnone|(Hg' & _)]; [exact Hnone|congruence]. }
  split; [exact Hr|]. split; [rewrite Hn', He; reflexivity|].
  split; [rewrite He; reflexivity|]. split; [exact Hdeaf|].
  intros n event. unfold dispatchEvent. apply runListeners_deaf, Hdeaf.
Qed.

End Listening.

(** X17 on a concrete page: a peer's event reaches a page in receive
    mode. *)
Lemma matching_event_witness :
  result
    (dispatchEvent browser replaceByNonOverrideCfg
       (_evtName
          (eng (after browser replaceByNonOverrideCfg []
                  (exec (initialize browser receivingConfig)
                     (lifecycles browser replaceByNonOverrideCfg []
                        world0)))))
       peerEvent)
    (after browser replaceByNonOverrideCfg []
       (exec (initialize browser receivingConfig)
          (lifecycles browser replaceByNonOverrideCfg [] world0)))
  = Ok tt.
Proof.
  refine (proj2 (matching_event_is_handled_once browser
                   replaceByNonOverrideCfg [] receivingConfig [] peerEvent _)).
  vm_compute. discriminate.
Defined.

(** X18 on a concrete page: the name is dropped from a page in receive
    mode, and the host configuration changes afterwards. *)
Lemma nameless_rename_witness :
  selfListeners
    (bus (exec (notifications browser [receivingConfig])
            (exec (updateEventListenerName browser None) receivingWorld)))
  = [].
Proof.
  assert (Ht : tuned browser receivingWorld).
  { right. split; [reflexivity|]. split; vm_compute; reflexivity. }
  assert (Hall : forall c, In c [receivingConfig] ->
                   newEvtName c = _evtName (eng receivingWorld)).
  { intros c [<-|[]]. vm_compute. reflexivity. }
  destruct (nameless_rename_stops_receiving browser replaceByNonOverrideCfg
              None [receivingConfig] receivingWorld Ht eq_refl Hall)
    as (_ & _ & _ & Hd & _).
  exact Hd.
Defined.

(** The page was listening before. *)
Example receivingWorld_listens :
  selfListeners (bus receivingWorld)
  = [ownListener (Some "cfgsync") (Some 0%nat)].
Proof. vm_compute. reflexivity. Qed.

(** ** The first poll *)

Section FirstPoll.

Variable h : Host.

Lemma _setupTimer_frame :
  fixes (fun x => (inflight x, trace x, bus x, _mainConfig (eng x)))
    _setupTimer.
Proof. intros v. unfold _setupTimer, scheduleTimeout. frame_walk. Qed.

Lemma built_in_poll_frame (f : option SendGetFunction) (u : option string)
    (a : option bool) :
  match f with Some (OverrideFetch _) => False | _ => True end ->
  fixes (fun x => (trace x, bus x, _mainConfig (eng x)))
    (bind (when (isSome f) (call_fetchFn h f u a)) (fun _ => _setupTimer)).
Proof.
  intros Hf v. apply preserves_bind.
  - destruct f as [[| |g]|]; cbn [isSome when call_fetchFn];
      [unfold _fetchSender|unfold _xhrSender|destruct Hf|]; frame_walk.
  - intros _. unfold _setupTimer, scheduleTimeout. frame_walk.
Qed.

Lemma _setupTimer_same (x : World) :
  inflight (snd (_setupTimer x)) = inflight x /\
  trace (snd (_setupTimer x)) = trace x /\
  _mainConfig (eng (snd (_setupTimer x))) = _mainConfig (eng x).
Proof.
  pose proof (_setupTimer_frame _ x eq_refl) as Hs. unfold exec in Hs.
  injection Hs as H1 H2 _ H4. auto.
Qed.

Lemma built_in_poll_same (f : option SendGetFunction) (u : option string)
    (a : option bool) (x : World) :
  match f with Some (OverrideFetch _) => False | _ => True end ->
  trace (snd (bind (when (isSome f) (call_fetchFn h f u a))
                (fun _ => _setupTimer) x)) = trace x /\
  _mainConfig (eng (snd (bind (when (isSome f) (call_fetchFn h f u a))
                           (fun _ => _setupTimer) x)))
  = _mainConfig (eng x).
Proof.
  intros Hf. pose proof (built_in_poll_frame f u a Hf _ x eq_refl) as Hs.
  unfold exec in Hs. injection Hs as H1 _ H3. auto.
Qed.

(** A run of completions only adds to the trace, and puts out no
    request. *)
Lemma oncomplete_calls_grow (cs : list (Z * option string * option bool))
    (x : World) :
  (exists l, trace (exec (oncomplete_calls h cs) x) = trace x ++ l) /\
  inflight (exec (oncomplete_calls h cs) x) = inflight x.
Proof.
  split.
  - assert (Hp : preserves (fun y => exists l, trace y = trace x ++ l)
              (oncomplete_calls h cs)).
    { apply preserves_oncomplete_calls. intros status response isAutoSync.
      assert (Hemit : forall e,
                preserves (fun y => exists l, trace y = trace x ++ l)
                  (emit e)).
      { intros e y [l Hl]. exists (l ++ [e]). cbn. rewrite Hl.
        symmetry. apply app_assoc. }
      unfold _onFetchComplete, _setCfg, _sendCfgsyncEvents.
      repeat first
        [ apply Hemit
        | solve [intros ? Hobs; exact Hobs]
        | match goal with
          | |- preserves _ (when _ _) => apply preserves_when
          | |- preserves _ (tryCatch _ _) => apply preserves_tryCatch
          | |- preserves _ (bind getEng _) => apply preserves_getEng; intros ?
          | |- preserves _ (bind _ _) => apply preserves_bind; [|intros ?]
          | |- preserves _ (if ?b then _ else _) => destruct b
          | |- preserves _ (match ?y with Some _ => _ | None => _ end) =>
              destruct y
          end ]. }
    apply Hp. exists []. symmetry. apply app_nil_r.
  - assert (Hp : fixes inflight (oncomplete_calls h cs)).
    { intros v. apply preserves_oncomplete_calls. intros.
      unfold _onFetchComplete, _setCfg, _sendCfgsyncEvents. frame_walk. }
    exact (Hp _ x eq_refl).
Qed.

(** Polling through the user's fetch function: the call to it comes
    first, and no request goes out over a built-in transport. *)
Lemma override_poll_same (g : UserFetchFn) (u : option string)
    (a : option bool) (x : World) :
  let x' := snd (bind (call_fetchFn h (Some (OverrideFetch g)) u a)
                   (fun _ => _setupTimer) x) in
  firstCall x x' = Some (EOverrideFetch u a) /\
  inflight x' = inflight x /\
  (fCompleted (g u a) = [] ->
   trace x' = trace x ++ [EOverrideFetch u a] /\
   _mainConfig (eng x') = _mainConfig (eng x)).
Proof.
  intros x'. unfold x', bind.
  destruct (call_override_run h g u a x) as (x1 & Hrun & Hx1 & _).
  rewrite Hrun.
  destruct (oncomplete_calls_grow (fCompleted (g u a))
              (traced x (EOverrideFetch u a))) as [[l Hl] Hin].
  rewrite <- Hx1 in Hl, Hin. cbn [traced trace inflight] in Hl, Hin.
  rewrite <- app_assoc in Hl. cbn [app] in Hl.
  assert (Hnil : fCompleted (g u a) = [] ->
                 trace x1 = trace x ++ [EOverrideFetch u a] /\
                 _mainConfig (eng x1) = _mainConfig (eng x)).
  { intros Hc. rewrite Hx1, Hc. split; reflexivity. }
  destruct (fReturned (g u a)) as [[]|e]; cbn [fst snd].
  - destruct (_setupTimer_same x1) as (H1 & H2 & H3).
    split; [apply (firstCall_app _ _ _ l); rewrite H2; exact Hl|].
    split; [rewrite H1; exact Hin|].
    intros Hc. rewrite H2, H3. exact (Hnil Hc).
  - split; [apply (firstCall_app _ _ _ l); exact Hl|].
    split; [exact Hin|exact Hnil].
Qed.

(** What [initialize] leaves when the address is set: the snapshot and
    the trace of [configured] are those before. *)
Lemma configured_with_address (config : IConfiguration) (w : World) :
  _cfgUrl (eng w) = None ->
  truthy_str (cfgUrl (cfgExt config)) = true ->
  _cfgUrl (eng (configured h config w)) = cfgUrl (cfgExt config) /\
  _isAutoSync (eng (configured h config w))
    = latch (_isAutoSync (eng w))
        (Some (negb (truthy_bool (disableAutoSync (cfgExt config))))) /\
  _overrideFetchFn (eng (configured h config w))
    = overrideFetchFn (cfgExt config) /\
  trace (configured h config w) = trace w /\
  inflight (configured h config w) = inflight w /\
  _mainConfig (eng (configured h config w)) = _mainConfig (eng w).
Proof.
  intros Hu Hcu. cbn. rewrite Hu. cbn.
  rewrite !orDefault_None, Hcu, truthy_bool_disableAutoSync_default. cbn.
  repeat split.
Qed.

(** X19.  [initialize] with a [cfgUrl] polls instead of broadcasting.
    Without an override fetch function it makes no outbound call and
    leaves the snapshot as it was.  With one, the call it makes is the
    one to the override, with the address and the auto-sync flag, and no
    request is put out over a built-in transport; when the override does
    not complete before it returns, that call is the only one and the
    snapshot is as it was. *)
Theorem initialize_with_address_polls_instead_of_broadcasting
    (config : IConfiguration) (w : World) :
  _cfgUrl (eng w) = None ->
  truthy_str (cfgUrl (cfgExt config)) = true ->
  (overrideFetchFn (cfgExt config) = None ->
   trace (exec (initialize h config) w) = trace w /\
   _mainConfig (eng (exec (initialize h config) w)) = _mainConfig (eng w)) /\
  (forall g, overrideFetchFn (cfgExt config) = Some g ->
     let url := cfgUrl (cfgExt config) in
     let auto :=
       latch (_isAutoSync (eng w))
         (Some (negb (truthy_bool (disableAutoSync (cfgExt config))))) in
     firstCall w (exec (initialize h config) w)
       = Some (EOverrideFetch url auto) /\
     inflight (exec (initialize h config) w) = inflight w /\
     (fCompleted (g url auto) = [] ->
      trace (exec (initialize h config) w)
        = trace w ++ [EOverrideFetch url auto] /\
      _mainConfig (eng (exec (initialize h config) w))
        = _mainConfig (eng w))).
Proof.
  intros Hu Hcu. unfold exec. rewrite initialize_run.
  destruct (configured_with_address config w Hu Hcu)
    as (Hurl & Hauto & Hov & Htr & Hin & Hmc).
  generalize dependent (configured h config w). intros c Hurl Hauto Hov Htr
    Hin Hmc.
  rewrite Hurl, Hcu. cbn [when].
  destruct (_getFetchFnInterface_run h c) as (f & Hf & Hcase).
  rewrite (startPolling_unfold h c f Hf). rewrite Hov in Hcase.
  assert (He : exec (modEng (set_fetchFn f)) c
               = {| eng := set_fetchFn f (eng c); bus := bus c;
                    timers := timers c; nextId := nextId c;
                    inflight := inflight c; trace := trace c |})
    by reflexivity.
  rewrite He. clear He.
  set (c1 := {| eng := set_fetchFn f (eng c); bus := bus c;
                timers := timers c; nextId := nextId c;
                inflight := inflight c; trace := trace c |}).
  split.
  - intros Hn. rewrite Hn in Hcase.
    assert (Hb : match f with
                 | Some (OverrideFetch _) => False
                 | _ => True
                 end).
    { destruct Hcase as [->|[->| ->]]; exact I. }
    destruct (built_in_poll_same f (_cfgUrl (eng c)) (_isAutoSync (eng c))
                c1 Hb) as (H1 & H3).
    rewrite H1, H3. split; [exact Htr|exact Hmc].
  - intros g Hg. rewrite Hg in Hcase. subst f. cbn [isSome when].
    pose proof (override_poll_same g (_cfgUrl (eng c)) (_isAutoSync (eng c))
                  c1) as Hpoll.
    cbv zeta in Hpoll. rewrite Hurl, Hauto in Hpoll. rewrite ?Hurl, ?Hauto.
    destruct Hpoll as (H1 & H2 & H3).
    split; [|split].
    + unfold firstCall, callsSince in *. rewrite <- Htr. exact H1.
    + rewrite H2. exact Hin.
    + intros Hc. destruct (H3 Hc) as [H4 H5]. rewrite H4, H5.
      split; [rewrite <- Htr; reflexivity|exact Hmc].
Qed.

End FirstPoll.

(** X19 on a concrete page: the override fetch function is down, and is
    still the only thing called. *)
Lemma initialize_with_address_witness :
  trace (exec (initialize browser failingConfig) world0)
  = trace world0
    ++ [EOverrideFetch (cfgUrl (cfgExt failingConfig))
          (latch (_isAutoSync (eng world0))
             (Some (negb (truthy_bool
                            (disableAutoSync (cfgExt failingConfig))))))].
Proof.
  exact (proj1 (proj2 (proj2
           (proj2 (initialize_with_address_polls_instead_of_broadcasting
                     browser failingConfig world0 eq_refl eq_refl)
              failingFetch eq_refl)) eq_refl)).
Defined.

(** An override that answers before it returns: the document is stored
    and broadcast inside [initialize], and the timer is armed after. *)
Example initialize_served_inside :
  result (initialize browser servedConfig) world0 = Ok tt /\
  _mainConfig (eng (exec (initialize browser servedConfig) world0))
    = JObj [("sampleRate", JNum 10)] /\
  trace (exec (initialize browser servedConfig) world0)
    = [EOverrideFetch (Some "https://example/cfg.json") (Some true);
       ESendCustomEvent (Some "cfgsync") (JObj [("sampleRate", JNum 10)])
         JUndef] /\
  inflight (exec (initialize browser servedConfig) world0) = [] /\
  timers (exec (initialize browser servedConfig) world0) = [1%nat].
Proof. vm_compute. repeat split; reflexivity. Qed.

(** ** A poll that succeeds *)

Section GoodPoll.

Variable h : Host.

Lemma _setCfg_run (cfg : JsVal) (isAutoSync : option bool) (x : World) :
  truthy cfg = true ->
  _mainConfig (eng (exec (_setCfg h cfg isAutoSync) x)) = cfg /\
  inflight (exec (_setCfg h cfg isAutoSync) x) = inflight x /\
  trace (exec (_setCfg h cfg isAutoSync) x)
  = trace x
    ++ (if truthy_bool isAutoSync
        then [broadcastOf x (_evtName (eng x)) cfg] else []).
Proof.
  intros Hc. unfold _setCfg, exec, bind, modEng. rewrite Hc. cbn [fst snd].
  set (x1 := {| eng := set_mainConfig cfg (eng x); bus := bus x;
                timers := timers x; nextId := nextId x;
                inflight := inflight x; trace := trace x |}).
  destruct (truthy_bool isAutoSync).
  - unfold broadcastOf.
    destruct (_overrideSyncFn (eng x)) as [f|] eqn:Hf.
    + rewrite (_sendCfgsyncEvents_override h x1 JUndef f Hf).
      repeat split; reflexivity.
    + rewrite (_sendCfgsyncEvents_bus h x1 JUndef Hf).
      repeat split; reflexivity.
  - cbn. rewrite app_nil_r. repeat split; reflexivity.
Qed.

(** X20.  A poll that succeeds is stored and told to the peers: when the
    response to an outstanding request has a status in [200,400) and a
    body that parses to a truthy document, the handler returns normally
    and the request leaves the queue.  When the request was put out with
    auto-sync on, the call the plugin makes is the broadcast of the
    document; when it was put out with auto-sync off, no outbound call is
    made and the document is the snapshot.  This is so over both
    transports. *)
Theorem good_poll_replaces_and_broadcasts (p : Pending) (status : Z)
    (text : string) (parse : string -> Result JsVal) (cfg : JsVal)
    (w : World) :
  existsb (pending_eqb p) (inflight w) = true ->
  200 <= status < 400 -> text <> "" ->
  getJSON h = Some parse -> parse text = Ok cfg -> truthy cfg = true ->
  forall m,
    m = settleXhr h p status (Some text) \/
    m = settleFetch h p (FetchResolved true status (TextResolved text)) ->
    result m w = Ok tt /\
    inflight (exec m w) = remove_pending p (inflight w) /\
    (truthy_bool (pAuto p) = true ->
     firstCall w (exec m w)
       = Some (broadcastOf w (_evtName (eng w)) cfg)) /\
    (truthy_bool (pAuto p) = false ->
     trace (exec m w) = trace w /\
     _mainConfig (eng (exec m w)) = cfg).
Proof.
  intros Hp Hst Hne Hj Hparse Hc m Hm.
  assert (Heq : m w
                = (Ok tt, exec (_setCfg h cfg (pAuto p)) (answered p w))).
  { destruct Hm as [->| ->]; unfold settleXhr, settleFetch; rewrite Hp;
      unfold bind, mod_inflight, _xhrSender_onreadystatechange,
        _fetchSender_settled, _doOnComplete, tryCatch;
      cbn [Nat.eqb XHR_DONE];
      fold (answered p w);
      rewrite (_onFetchComplete_run h (answered p w) status text (pAuto p)
                 parse cfg Hst Hne Hj Hparse Hc);
      reflexivity. }
  unfold result, exec at 1 2 3 4. rewrite Heq. cbn [fst snd].
  destruct (_setCfg_run cfg (pAuto p) (answered p w) Hc) as (H1 & H2 & H3).
  split; [reflexivity|]. split; [exact H2|].
  split; intros Ha; rewrite Ha in H3.
  - apply (firstCall_app _ _ _ []). exact H3.
  - split; [rewrite H3; apply app_nil_r|exact H1].
Qed.

End GoodPoll.

(** X20 on a concrete page: the first poll is answered. *)
Lemma good_poll_witness :
  firstCall pollingWorld
    (exec (settleFetch browser firstRequest
             (FetchResolved true 200
                (TextResolved (json "{'sampleRate':10}"))))
       pollingWorld)
  = Some (broadcastOf pollingWorld (_evtName (eng pollingWorld))
            (JObj [("sampleRate", JNum 10)])).
Proof.
  assert (Hp : existsb (pending_eqb firstRequest) (inflight pollingWorld)
               = true) by (vm_compute; reflexivity).
  assert (Hne : json "{'sampleRate':10}" <> "") by (vm_compute; discriminate).
  assert (Hst : 200 <= 200 < 400) by lia.
  assert (Hparse : parseJSON (json "{'sampleRate':10}")
                   = Ok (JObj [("sampleRate", JNum 10)]))
    by (vm_compute; reflexivity).
  destruct (good_poll_replaces_and_broadcasts browser firstRequest 200
              (json "{'sampleRate':10}") parseJSON
              (JObj [("sampleRate", JNum 10)]) pollingWorld Hp
              Hst Hne eq_refl Hparse eq_refl _ (or_intror eq_refl))
    as (_ & _ & Hm & _).
  exact (Hm eq_refl).
Defined.
